(** * CarePredict: the preprocessing and visualisation computations

    A shallow embedding of the data computations of
    [pages/4_Data_Preprocessing.py] and [pages/5_Data_Visualization.py]:
    the IQR outlier bounds and the outlier treatments, duplicate removal,
    the date handlers with their [try]/[except] blocks, the age groups,
    the session store written by the page, and the risk-rate aggregation.

    Numbers are exact rationals ([Q]) extended with [NaN]; the pandas
    primitives the pages call ([quantile], [median], [min], [max],
    [duplicated], [drop_duplicates], [groupby], [sort_values], [mean]) are
    written out following their documented behaviour.  Equality of
    computed numbers is [Qeq] ([==]).

    The pages compute in 64-bit floats.  Comparisons, minima, maxima and
    counts are exact there as well; sums, products and quotients are
    rounded.  The quartiles and bounds below are therefore those of the
    page on the columns [exact_column] describes (where no step rounds),
    and statements about other columns are restricted to what rounding
    cannot change; the capping is also given for arbitrary bounds
    ([clip]), and the scaler with its rounding as a parameter
    ([min_max_scale]). *)

From Stdlib Require Import QArith Qround ZArith List Bool Arith Lia Lqa.
From Stdlib Require Import String Ascii Sorting.Sorted Sorting.Permutation.
Import ListNotations.

Local Open Scope Q_scope.

(** ** Numbers of a numeric column *)

(** A value of an [int64]/[float64] column: a number, or [NaN] for a
    missing value. *)
Inductive num : Type :=
| NaN
| Fin (x : Q).

(** Python's [<] and [>] on floats: every comparison with [NaN] is false. *)
Definition Qlt_bool (x y : Q) : bool := negb (Qle_bool y x).

Definition num_ltb (a b : num) : bool :=
  match a, b with
  | Fin x, Fin y => Qlt_bool x y
  | _, _ => false
  end.

Definition num_gtb (a b : num) : bool := num_ltb b a.

(** Arithmetic propagates [NaN]. *)
Definition num_lift2 (f : Q -> Q -> Q) (a b : num) : num :=
  match a, b with
  | Fin x, Fin y => Fin (f x y)
  | _, _ => NaN
  end.

Definition num_add : num -> num -> num := num_lift2 Qplus.
Definition num_sub : num -> num -> num := num_lift2 Qminus.
Definition num_mul : num -> num -> num := num_lift2 Qmult.

(** The propositional orders read by the theorems: they hold between
    numbers only. *)
Definition num_lt (a b : num) : Prop :=
  match a, b with
  | Fin x, Fin y => x < y
  | _, _ => False
  end.

Definition num_le (a b : num) : Prop :=
  match a, b with
  | Fin x, Fin y => x <= y
  | _, _ => False
  end.

(** Same number up to the representation of the fraction; [NaN] matches
    [NaN] only. *)
Definition num_eq (a b : num) : Prop :=
  match a, b with
  | Fin x, Fin y => x == y
  | NaN, NaN => True
  | _, _ => False
  end.

(** ** Sorting *)

Section InsertionSort.
Context {A : Type}.
Variable leb : A -> A -> bool.

Fixpoint insert (x : A) (l : list A) : list A :=
  match l with
  | [] => [x]
  | y :: l' => if leb x y then x :: l else y :: insert x l'
  end.

Fixpoint sort (l : list A) : list A :=
  match l with
  | [] => []
  | x :: l' => insert x (sort l')
  end.
End InsertionSort.

(** ** Series.quantile, Series.median, Series.min, Series.max *)

(** The non-missing values of a column, in row order. *)
Fixpoint dropna (s : list num) : list Q :=
  match s with
  | [] => []
  | NaN :: s' => dropna s'
  | Fin x :: s' => x :: dropna s'
  end.

(** Linear interpolation in an ascending list [v] at the fractional
    position [pos]: between the neighbours [v[lo]] and [v[hi]], with
    [hi] clamped to the last index. *)
Definition interpolate (v : list Q) (pos : Q) : Q :=
  let lo := Z.to_nat (Qfloor pos) in
  let hi := Nat.min (S lo) (List.length v - 1) in
  let frac := pos - inject_Z (Qfloor pos) in
  let a := nth lo v 0 in
  let b := nth hi v 0 in
  a + (b - a) * frac.

(** [s.quantile(q)] with the default [interpolation='linear']: missing
    values are skipped, the position is [(n-1)*q], and a column without
    values gives [NaN]. *)
Definition quantile (s : list num) (q : Q) : num :=
  let v := sort Qle_bool (dropna s) in
  match v with
  | [] => NaN
  | _ :: _ => Fin (interpolate v (inject_Z (Z.of_nat (List.length v) - 1) * q))
  end.

(** [s.median()]: the middle value of the sorted non-missing values, or
    the mean of the two middle ones. *)
Definition median (s : list num) : num :=
  let v := sort Qle_bool (dropna s) in
  let n := List.length v in
  match v with
  | [] => NaN
  | _ :: _ =>
      if Nat.even n
      then Fin ((nth (n / 2 - 1) v 0 + nth (n / 2) v 0) / 2)
      else Fin (nth (n / 2) v 0)
  end.

Definition Qmin_list (x : Q) (l : list Q) : Q :=
  fold_left (fun m y => if Qle_bool y m then y else m) l x.

Definition Qmax_list (x : Q) (l : list Q) : Q :=
  fold_left (fun m y => if Qle_bool m y then y else m) l x.

(** [s.min()] and [s.max()] skip missing values. *)
Definition series_min (s : list num) : num :=
  match dropna s with
  | [] => NaN
  | x :: l => Fin (Qmin_list x l)
  end.

Definition series_max (s : list num) : num :=
  match dropna s with
  | [] => NaN
  | x :: l => Fin (Qmax_list x l)
  end.

(** ** Outlier bounds (lines 137-143 and 307-314 of the preprocessing page) *)

Definition Q1 (s : list num) : num := quantile s (1 # 4).
Definition Q3 (s : list num) : num := quantile s (3 # 4).
Definition IQR (s : list num) : num := num_sub (Q3 s) (Q1 s).
Definition lower_bound (s : list num) : num :=
  num_sub (Q1 s) (num_mul (Fin (3 # 2)) (IQR s)).
Definition upper_bound (s : list num) : num :=
  num_add (Q3 s) (num_mul (Fin (3 # 2)) (IQR s)).

(** [(s < lower_bound) | (s > upper_bound)], row by row, against the
    exact bounds. *)
Definition outliers_mask (s : list num) : list bool :=
  map (fun v => num_ltb v (lower_bound s) || num_gtb v (upper_bound s)) s.

(** [mask.sum()] *)
Definition mask_sum (mask : list bool) : nat :=
  List.length (filter (fun b => b) mask).

(** [outlier_count = outliers_mask.sum()] *)
Definition outlier_count (s : list num) : nat :=
  mask_sum (outliers_mask s).

(** ** Capping (lines 329-330): two masked assignments, one after the
    other, against the exact bounds *)

Definition assign_where (p : num -> bool) (value : num) (s : list num) : list num :=
  map (fun v => if p v then value else v) s.

Definition cap_outliers (s : list num) : list num :=
  let lb := lower_bound s in
  let ub := upper_bound s in
  let s1 := assign_where (fun v => num_ltb v lb) lb s in
  assign_where (fun v => num_gtb v ub) ub s1.

(** What the two assignments make of one value, and of one number when
    both bounds are numbers. *)
Definition cap_value (lb ub v : num) : num :=
  let v1 := if num_ltb v lb then lb else v in
  if num_gtb v1 ub then ub else v1.

Definition clamp (l u x : Q) : Q :=
  let x1 := if Qlt_bool x l then l else x in
  if Qlt_bool u x1 then u else x1.

(** The sorted non-missing values [quantile] and [median] work on. *)
Definition sorted_values (s : list num) : list Q := sort Qle_bool (dropna s).

Definition ages : list num :=
  [Fin 10; Fin 200; Fin 30; Fin 32; Fin 31].

(** ** Age groups (lines 479-489) *)

Definition categorize_age (age : num) : string :=
  if num_ltb age (Fin 18) then "Child"
  else if num_ltb age (Fin 35) then "Young Adult"
  else if num_ltb age (Fin 55) then "Middle Age"
  else if num_ltb age (Fin 75) then "Senior"
  else "Elderly".

(** ** Tables *)

(** A column with its dtype: numeric ([int64]/[float64]), [object]
    (strings, [None] for a missing value), [datetime64[ns]] (nanoseconds
    since the epoch, [None] for [NaT]) or [bool] (what [read_csv] makes of
    a column of [True]/[False]; it holds no missing value). *)
Inductive Series : Type :=
| Numeric (v : list num)
| Object (v : list (option string))
| Datetime (v : list (option Z))
| Bool (v : list bool).

(** A DataFrame: its columns, in order, by name. *)
Definition DataFrame : Type := list (string * Series).

Definition series_len (s : Series) : nat :=
  match s with
  | Numeric v => List.length v
  | Object v => List.length v
  | Datetime v => List.length v
  | Bool v => List.length v
  end.

(** [len(df)] *)
Definition len (df : DataFrame) : nat :=
  match df with
  | [] => 0%nat
  | (_, s) :: _ => series_len s
  end.

Definition column_names (df : DataFrame) : list string := map fst df.

(** [df[c]] *)
Fixpoint get_col (df : DataFrame) (c : string) : option Series :=
  match df with
  | [] => None
  | (c', s) :: df' => if String.eqb c' c then Some s else get_col df' c
  end.

(** [df[c] = s]: replaces the column, or appends a new last column. *)
Fixpoint set_col (df : DataFrame) (c : string) (s : Series) : DataFrame :=
  match df with
  | [] => [(c, s)]
  | (c', s') :: df' =>
      if String.eqb c' c then (c', s) :: df' else (c', s') :: set_col df' c s
  end.

(** Selection by a boolean mask. *)
Fixpoint select {A : Type} (mask : list bool) (l : list A) : list A :=
  match mask, l with
  | b :: mask', x :: l' => if b then x :: select mask' l' else select mask' l'
  | _, _ => []
  end.

Definition series_select (mask : list bool) (s : Series) : Series :=
  match s with
  | Numeric v => Numeric (select mask v)
  | Object v => Object (select mask v)
  | Datetime v => Datetime (select mask v)
  | Bool v => Bool (select mask v)
  end.

(** [df[mask]] *)
Definition loc_rows (mask : list bool) (df : DataFrame) : DataFrame :=
  map (fun cs => (fst cs, series_select mask (snd cs))) df.

(** *** Rows and duplicates *)

Inductive cell : Type :=
| CNum (x : num)
| CStr (s : option string)
| CTime (t : option Z)
| CBool (b : bool).

Definition num_same (a b : num) : bool :=
  match a, b with
  | NaN, NaN => true
  | Fin x, Fin y => Qeq_bool x y
  | _, _ => false
  end.

Definition option_same {A : Type} (eqb : A -> A -> bool) (a b : option A) : bool :=
  match a, b with
  | None, None => true
  | Some x, Some y => eqb x y
  | _, _ => false
  end.

(** Two cells hold the same value; missing values count as equal to each
    other, as [duplicated] has it. *)
Definition cell_same (a b : cell) : bool :=
  match a, b with
  | CNum x, CNum y => num_same x y
  | CStr x, CStr y => option_same String.eqb x y
  | CTime x, CTime y => option_same Z.eqb x y
  | CBool x, CBool y => Bool.eqb x y
  | _, _ => false
  end.

Fixpoint row_same (r1 r2 : list cell) : bool :=
  match r1, r2 with
  | [], [] => true
  | a :: r1', b :: r2' => cell_same a b && row_same r1' r2'
  | _, _ => false
  end.

Definition cell_at (s : Series) (i : nat) : cell :=
  match s with
  | Numeric v => CNum (nth i v NaN)
  | Object v => CStr (nth i v None)
  | Datetime v => CTime (nth i v None)
  | Bool v => CBool (nth i v false)
  end.

Definition row (df : DataFrame) (i : nat) : list cell :=
  map (fun cs => cell_at (snd cs) i) df.

Definition rows (df : DataFrame) : list (list cell) :=
  map (row df) (seq 0 (len df)).

(** [duplicated] with the default [keep='first']: a row is marked when an
    earlier row holds the same values. *)
Fixpoint duplicated_from (seen rs : list (list cell)) : list bool :=
  match rs with
  | [] => []
  | r :: rs' => existsb (row_same r) seen :: duplicated_from (r :: seen) rs'
  end.

Definition duplicated (df : DataFrame) : list bool :=
  duplicated_from [] (rows df).

(** [df.drop_duplicates()] keeps the rows [duplicated] does not mark. *)
Definition drop_duplicates (df : DataFrame) : DataFrame :=
  loc_rows (map negb (duplicated df)) df.

(** *** Column names *)

Definition lower_ascii (c : ascii) : ascii :=
  let n := nat_of_ascii c in
  if ((65 <=? n) && (n <=? 90))%nat then ascii_of_nat (n + 32) else c.

(** [str.lower()] on ASCII letters. *)
Fixpoint lower (s : string) : string :=
  match s with
  | EmptyString => EmptyString
  | String c s' => String (lower_ascii c) (lower s')
  end.

(** [sub in s] *)
Fixpoint contains (sub s : string) : bool :=
  String.prefix sub s ||
  match s with
  | EmptyString => false
  | String _ s' => contains sub s'
  end.

Definition is_numeric (s : Series) : bool :=
  match s with Numeric _ => true | _ => false end.

Definition is_datetime (s : Series) : bool :=
  match s with Datetime _ => true | _ => false end.

Definition is_object (s : Series) : bool :=
  match s with Object _ => true | _ => false end.

(** [data.select_dtypes(include=[np.number]).columns.tolist()] *)
Definition numerical_cols_of (df : DataFrame) : list string :=
  map fst (filter (fun cs => is_numeric (snd cs)) df).

(** [data.select_dtypes(include=['object']).columns.tolist()] *)
Definition categorical_cols_of (df : DataFrame) : list string :=
  map fst (filter (fun cs => is_object (snd cs)) df).

Definition mem (c : string) (l : list string) : bool :=
  existsb (String.eqb c) l.

(** Lines 137-143: the rows shown as outliers of column [col]. *)
Definition outliers (df : DataFrame) (col : string) : option DataFrame :=
  match get_col df col with
  | Some (Numeric v) => Some (loc_rows (outliers_mask v) df)
  | _ => None
  end.

(** ** The session store and what a run of the page shows *)

(** [st.session_state]: the uploaded table and the processed table, each
    present or not. *)
Record SessionState : Type := mkSession {
  healthcare_data : option DataFrame;
  healthcare_data_processed : option DataFrame
}.

Inductive treatment_method : Type :=
| keep_as_is
| remove_outliers
| cap_winsorization
| transform_with_log.

(** The button pressed in a run, with the values of the selectboxes it
    reads.  The buttons of the missing-value, encoding and scaling tabs
    are not part of the model. *)
Inductive button : Type :=
| btn_remove_duplicates
| btn_convert_date (col : string)
| btn_apply_outlier_treatment (col : string) (method : treatment_method)
| btn_extract_date_features (col : string)
| btn_calculate_los
| btn_create_age_groups.

(** The inline messages of the modelled handlers ([st.success],
    [st.error], [st.warning]); their texts are kept as constructors. *)
Inductive message : Type :=
| warning_no_data
| success_removed_duplicates (n : nat)
| success_converted (col : string)
| error_converting (col : string)
| success_removed_outliers (n : nat)
| success_capped (lb ub : num)
| success_log (col : string)
| error_log_non_positive
| success_date_features (col : string)
| error_date_features
| success_length_of_stay
| error_length_of_stay
| success_age_groups.

Definition is_error (m : message) : bool :=
  match m with
  | error_converting _ | error_log_non_positive
  | error_date_features | error_length_of_stay => true
  | _ => false
  end.

(** How a run ends: to the last line, by [st.rerun()], by [st.stop()], or
    by an exception nothing catches. *)
Inductive outcome : Type :=
| completed
| rerun
| stopped
| crashed.

Record run_result : Type := mkResult {
  final : SessionState;
  messages : list message;
  how : outcome
}.

(** The state of a run: the working copy [data], the store, and the
    messages shown so far. *)
Record run_state : Type := mkRun {
  data : DataFrame;
  session : SessionState;
  shown : list message
}.

Inductive flow : Type :=
| next (st : run_state)
| halt (e : outcome) (st : run_state).

Definition block : Type := run_state -> flow.

Definition then_block (b1 b2 : block) : block :=
  fun st =>
    match b1 st with
    | next st' => b2 st'
    | halt e st' => halt e st'
    end.

Notation "b1 >>> b2" := (then_block b1 b2) (at level 61, left associativity).

Definition show (m : message) (st : run_state) : run_state :=
  mkRun (data st) (session st) (shown st ++ [m]).

Definition set_data (d : DataFrame) (st : run_state) : run_state :=
  mkRun d (session st) (shown st).

(** [st.session_state['healthcare_data_processed'] = data] *)
Definition store_processed (st : run_state) : run_state :=
  mkRun (data st)
        (mkSession (healthcare_data (session st)) (Some (data st)))
        (shown st).

(** ** The body of a [try] block *)

(** A [try] body works on the table; [None] says that an exception was
    raised, and the table keeps the assignments made before it. *)
Definition attempt (A : Type) : Type := DataFrame -> DataFrame * option A.

Definition ret {A : Type} (a : A) : attempt A := fun d => (d, Some a).

Definition bind {A B : Type} (m : attempt A) (k : A -> attempt B) : attempt B :=
  fun d =>
    match m d with
    | (d', Some a) => k a d'
    | (d', None) => (d', None)
    end.

Notation "x <- m ;; k" := (bind m (fun x => k))
  (at level 62, m at next level, right associativity).
Notation "m ;;; k" := (bind m (fun _ => k))
  (at level 62, right associativity).

(** A library call that may raise. *)
Definition lift {A : Type} (o : option A) : attempt A := fun d => (d, o).

(** [data[c]] *)
Definition column (c : string) : attempt Series := fun d => (d, get_col d c).

(** [data[c] = s] *)
Definition assign (c : string) (s : Series) : attempt unit :=
  fun d => (set_col d c s, Some tt).

Fixpoint traverse {A B : Type} (f : A -> option B) (l : list A) : option (list B) :=
  match l with
  | [] => Some []
  | x :: l' =>
      match f x, traverse f l' with
      | Some y, Some r => Some (y :: r)
      | _, _ => None
      end
  end.

(** ** Library functions taken as given *)

(** [np.log1p], the parsers behind [pd.to_datetime] ([None]: the value is
    refused and the call raises) and the [.dt] field accessors. *)
Record externals : Type := mkExternals {
  log1p : Q -> Q;
  parse_datetime : string -> option Z;
  epoch_to_datetime : Q -> option Z;
  dt_year : Z -> Z;
  dt_month : Z -> Z;
  dt_day : Z -> Z;
  dt_dayofweek : Z -> Z;
  dt_quarter : Z -> Z
}.

Definition ns_per_day : Z := 86400000000000.

Section Page.
Variable lib : externals.

(** [pd.to_datetime(s)] with the default [errors='raise']: one value
    that cannot be converted fails the whole call, and a [bool] column
    is refused as a whole (TypeError). *)
Definition to_datetime (s : Series) : option (list (option Z)) :=
  match s with
  | Datetime v => Some v
  | Object v =>
      traverse (fun c => match c with
                         | None => Some None
                         | Some str => option_map Some (parse_datetime lib str)
                         end) v
  | Numeric v =>
      traverse (fun n => match n with
                         | NaN => Some None
                         | Fin x => option_map Some (epoch_to_datetime lib x)
                         end) v
  | Bool _ => None
  end.

(** The [.dt] accessor: datetime columns only. *)
Definition dt_values (s : Series) : option (list (option Z)) :=
  match s with
  | Datetime v => Some v
  | _ => None
  end.

Definition dt_field (f : Z -> Z) (v : list (option Z)) : Series :=
  Numeric (map (fun t => match t with
                         | Some z => Fin (inject_Z (f z))
                         | None => NaN
                         end) v).

(** [(d - a).dt.days] *)
Definition days_between (d a : list (option Z)) : Series :=
  Numeric (map (fun p => match p with
                         | (Some x, Some y) => Fin (inject_Z ((x - y) / ns_per_day))
                         | _ => NaN
                         end) (combine d a)).

(** [(s > 0).all()] *)
Definition all_positive (v : list num) : bool :=
  forallb (fun x => num_gtb x (Fin 0)) v.

Definition log1p_series (v : list num) : list num :=
  map (fun x => match x with Fin q => Fin (log1p lib q) | NaN => NaN end) v.

(** *** Handlers *)

(** A handler written as [try: body; st.success; store; st.rerun()]
    [except Exception: st.error].  [st.rerun()] ends the run; after the
    [except] branch the script goes on, with whatever the body had
    assigned to [data] before it raised. *)
Definition try_except (body : attempt unit) (ok err : message) : block :=
  fun st =>
    match body (data st) with
    | (d, Some _) => halt rerun (store_processed (show ok (set_data d st)))
    | (d, None) => next (show err (set_data d st))
    end.

(** Lines 255-266. *)
Definition duplicates_block (click : option button) : block :=
  fun st =>
    let duplicate_count := mask_sum (duplicated (data st)) in
    if (0 <? duplicate_count)%nat then
      match click with
      | Some btn_remove_duplicates =>
          let st1 := set_data (drop_duplicates (data st)) st in
          let st2 := store_processed st1 in
          halt rerun (show (success_removed_duplicates duplicate_count) st2)
      | _ => next st
      end
    else next st.

Definition date_columns_of (df : DataFrame) : list string :=
  filter (fun c => contains "date" (lower c)) (column_names df).

Definition convert_date_body (col : string) : attempt unit :=
  s <- column col ;;
  v <- lift (to_datetime s) ;;
  assign col (Datetime v).

(** Lines 280-293: one button for each date column that is not a
    datetime column yet. *)
Definition convert_date_block (click : option button) : block :=
  fun st =>
    match click with
    | Some (btn_convert_date col) =>
        match get_col (data st) col with
        | Some s =>
            if mem col (date_columns_of (data st)) && negb (is_datetime s)
            then try_except (convert_date_body col)
                            (success_converted col) (error_converting col) st
            else next st
        | None => next st
        end
    | _ => next st
    end.

Definition apply_treatment (method : treatment_method) (col : string)
           (v : list num) (st : run_state) : run_state :=
  match method with
  | remove_outliers =>
      show (success_removed_outliers (outlier_count v))
           (set_data (loc_rows (map negb (outliers_mask v)) (data st)) st)
  | cap_winsorization =>
      show (success_capped (lower_bound v) (upper_bound v))
           (set_data (set_col (data st) col (Numeric (cap_outliers v))) st)
  | transform_with_log =>
      if all_positive v
      then show (success_log col)
                (set_data (set_col (data st) col (Numeric (log1p_series v))) st)
      else show error_log_non_positive st
  | keep_as_is => st
  end.

(** Lines 298-342; [numerical_cols] is the list computed at line 89. *)
Definition outlier_block (numerical_cols : list string)
           (click : option button) : block :=
  fun st =>
    match click with
    | Some (btn_apply_outlier_treatment col method) =>
        match get_col (data st) col with
        | Some (Numeric v) =>
            if mem col numerical_cols && (0 <? outlier_count v)%nat
            then halt rerun (store_processed (apply_treatment method col v st))
            else next st
        | _ => next st
        end
    | _ => next st
    end.

Definition date_cols_of (df : DataFrame) : list string :=
  map fst (filter (fun cs => is_datetime (snd cs) || contains "date" (lower (fst cs))) df).

Definition extract_field (col suffix : string) (f : Z -> Z) : attempt unit :=
  s <- column col ;;
  v <- lift (dt_values s) ;;
  assign (col ++ suffix) (dt_field f v).

Definition extract_fields (col : string) : attempt unit :=
  extract_field col "_year" (dt_year lib) ;;;
  extract_field col "_month" (dt_month lib) ;;;
  extract_field col "_day" (dt_day lib) ;;;
  extract_field col "_weekday" (dt_dayofweek lib) ;;;
  extract_field col "_quarter" (dt_quarter lib).

Definition date_features_body (col : string) : attempt unit :=
  s <- column col ;;
  (if is_datetime s then ret tt
   else v <- lift (to_datetime s) ;; assign col (Datetime v)) ;;;
  extract_fields col.

(** Lines 353-378. *)
Definition date_features_block (click : option button) : block :=
  fun st =>
    match click with
    | Some (btn_extract_date_features col) =>
        if mem col (date_cols_of (data st)) && negb (String.eqb col "")
        then try_except (date_features_body col)
                        (success_date_features col) error_date_features st
        else next st
    | _ => next st
    end.

(** Lines 449-457: the last matching column of each kind. *)
Definition find_los_cols (cols : list string) : option string * option string :=
  fold_left
    (fun found col =>
       if contains "admission" (lower col) && contains "date" (lower col)
       then (Some col, snd found)
       else if contains "discharge" (lower col) && contains "date" (lower col)
            then (fst found, Some col)
            else found)
    cols (None, None).

Definition length_of_stay_body (admission_col discharge_col : string) : attempt unit :=
  a <- column admission_col ;;
  va <- lift (to_datetime a) ;;
  assign admission_col (Datetime va) ;;;
  d <- column discharge_col ;;
  vd <- lift (to_datetime d) ;;
  assign discharge_col (Datetime vd) ;;;
  d' <- column discharge_col ;;
  a' <- column admission_col ;;
  x <- lift (dt_values d') ;;
  y <- lift (dt_values a') ;;
  assign "length_of_stay" (days_between x y).

(** Lines 459-474. *)
Definition los_block (click : option button) : block :=
  fun st =>
    match find_los_cols (column_names (data st)), click with
    | (Some admission_col, Some discharge_col), Some btn_calculate_los =>
        try_except (length_of_stay_body admission_col discharge_col)
                   success_length_of_stay error_length_of_stay st
    | _, _ => next st
    end.

(** Lines 477-494.  [apply(categorize_age)] compares every value with
    numbers: [True] and [False] count as 1 and 0, and on a column of
    strings or timestamps that holds a row the comparison raises, and
    nothing catches it. *)
Definition age_groups_block (click : option button) : block :=
  fun st =>
    match get_col (data st) "age", click with
    | Some s, Some btn_create_age_groups =>
        match s with
        | Numeric v =>
            let d := set_col (data st) "age_group"
                             (Object (map (fun a => Some (categorize_age a)) v)) in
            halt rerun (store_processed (show success_age_groups (set_data d st)))
        | Bool v =>
            let d := set_col (data st) "age_group"
                             (Object (map (fun _ => Some "Child"%string) v)) in
            halt rerun (store_processed (show success_age_groups (set_data d st)))
        | _ =>
            if (series_len s =? 0)%nat
            then halt rerun
                      (store_processed
                         (show success_age_groups
                               (set_data (set_col (data st) "age_group" (Object [])) st)))
            else halt crashed st
        end
    | _, _ => next st
    end.

(** *** The assessment of the working copy (lines 32-193) *)

(** The choice a [st.selectbox] starts with: its first option.  The
    page tests the choice for truth, which the empty name fails, as
    does the empty list of options.  (No column of a table made by
    [read_csv] has the empty name, so that every other choice passes
    the test as well.) *)
Definition selected (options : list string) : string := hd EmptyString options.

Fixpoint has_duplicates (l : list string) : bool :=
  match l with
  | [] => false
  | x :: l' => mem x l' || has_duplicates l'
  end.

(** Three statements of lines 32-193 raise, and nothing catches them:
    line 59, when two columns share a name ([data[col]] is then a
    table, which has no [tolist]); line 149, the division by
    [len(data)] in the outlier tab of the chosen numerical column, on a
    table without rows; line 174, in the chart of the chosen
    categorical column ([fig.update_xaxis]: the figure has
    [update_xaxes], and no [update_xaxis]). *)
Definition assessment_raises (df : DataFrame) : bool :=
  has_duplicates (column_names df)
  || (negb (String.eqb (selected (numerical_cols_of df)) "") && (len df =? 0)%nat)
  || negb (String.eqb (selected (categorical_cols_of df)) "").

Definition assessment_block : block :=
  fun st => if assessment_raises (data st) then halt crashed st else next st.

(** One run of the preprocessing page: line 25 stops it without an
    uploaded table; line 30 takes the working copy; lines 32-193 assess
    it; the handler of the pressed button runs; a run that reaches line
    567 stores the working copy as the processed table. *)
Definition preprocessing_page (click : option button) (ss : SessionState) : run_result :=
  match healthcare_data ss with
  | None => mkResult ss [warning_no_data] stopped
  | Some df =>
      let script :=
        assessment_block >>>
        duplicates_block click >>> convert_date_block click >>>
        outlier_block (numerical_cols_of df) click >>>
        date_features_block click >>> los_block click >>>
        age_groups_block click in
      match script (mkRun df ss []) with
      | next st =>
          let st' := store_processed st in
          mkResult (session st') (shown st') completed
      | halt e st => mkResult (session st) (shown st) e
      end
  end.
End Page.

(** ** Risk rates (visualisation page, lines 83 and 579-581) *)

Definition is_abnormal (o : option string) : bool :=
  match o with
  | Some s => String.eqb s "Abnormal"
  | None => false
  end.

Definition Qnat (n : nat) : Q := inject_Z (Z.of_nat n).

(** [mean()] of a boolean column; [NaN] when it has no row. *)
Definition mean_bool (l : list bool) : num :=
  match l with
  | [] => NaN
  | _ :: _ => Fin (Qnat (mask_sum l) / Qnat (List.length l))
  end.

(** [(x == 'Abnormal').mean() * 100] *)
Definition abnormal_rate (x : list (option string)) : num :=
  num_mul (mean_bool (map is_abnormal x)) (Fin 100).

(** Line 83, over the whole column. *)
Definition abnormal_pct (outcomes : list (option string)) : num :=
  abnormal_rate outcomes.

Fixpoint present (keys : list (option string)) : list string :=
  match keys with
  | [] => []
  | None :: keys' => present keys'
  | Some k :: keys' => k :: present keys'
  end.

(** The group labels of [groupby]: the distinct keys, sorted; rows with a
    missing key belong to no group. *)
Definition group_keys (keys : list (option string)) : list string :=
  sort String.leb (nodup string_dec (present keys)).

Definition has_key (g : string) (k : option string) : bool :=
  match k with
  | Some k' => String.eqb k' g
  | None => false
  end.

(** The outcome values of the rows of group [g], in row order. *)
Definition group_of (g : string) (keys outcomes : list (option string))
  : list (option string) :=
  map snd (filter (fun ko => has_key g (fst ko)) (combine keys outcomes)).

(** The counts a group's rate is made of: its rows, and those of them
    whose outcome is "Abnormal". *)
Definition group_size (g : string) (keys outcomes : list (option string)) : nat :=
  List.length (filter (fun ko => has_key g (fst ko)) (combine keys outcomes)).

Definition group_abnormal (g : string) (keys outcomes : list (option string)) : nat :=
  List.length (filter (fun ko => has_key g (fst ko) && is_abnormal (snd ko))
                      (combine keys outcomes)).

Definition group_rate (g : string) (keys outcomes : list (option string)) : num :=
  Fin (Qnat (group_abnormal g keys outcomes) / Qnat (group_size g keys outcomes) * 100).

(** [groupby(key)[outcome].apply(f)] *)
Definition groupby_apply (f : list (option string) -> num)
           (keys outcomes : list (option string)) : list (string * num) :=
  map (fun g => (g, f (group_of g keys outcomes))) (group_keys keys).

(** The order of [sort_values(ascending=False)]: larger first, [NaN] last. *)
Definition desc_leb (a b : string * num) : bool :=
  match snd a, snd b with
  | Fin x, Fin y => Qle_bool y x
  | _, NaN => true
  | NaN, Fin _ => false
  end.

Definition sort_values_desc (l : list (string * num)) : list (string * num) :=
  sort desc_leb l.

(** Lines 579-581. *)
Definition risk_analysis (keys outcomes : list (option string)) : list (string * num) :=
  sort_values_desc (groupby_apply abnormal_rate keys outcomes).



(** ** An instance of the library functions, for the examples *)

Definition digit (c : ascii) : option Z :=
  let n := nat_of_ascii c in
  if ((48 <=? n) && (n <=? 57))%nat then Some (Z.of_nat (n - 48)) else None.

Definition is_dash (c : ascii) : bool := Ascii.eqb c "-"%char.

(** Days since 1970-01-01 of a date of the proleptic Gregorian calendar. *)
Definition days_from_civil (y m d : Z) : Z :=
  let y' := if (m <=? 2)%Z then (y - 1)%Z else y in
  let era := (y' / 400)%Z in
  let yoe := (y' - era * 400)%Z in
  let mp := if (2 <? m)%Z then (m - 3)%Z else (m + 9)%Z in
  let doy := ((153 * mp + 2) / 5 + d - 1)%Z in
  let doe := (yoe * 365 + yoe / 4 - yoe / 100 + doy)%Z in
  (era * 146097 + doe - 719468)%Z.

(** Year, month and day of a number of days since 1970-01-01. *)
Definition civil_from_days (z : Z) : Z * Z * Z :=
  let z' := (z + 719468)%Z in
  let era := (z' / 146097)%Z in
  let doe := (z' - era * 146097)%Z in
  let yoe := ((doe - doe / 1460 + doe / 36524 - doe / 146096) / 365)%Z in
  let doy := (doe - (365 * yoe + yoe / 4 - yoe / 100))%Z in
  let mp := ((5 * doy + 2) / 153)%Z in
  let d := (doy - (153 * mp + 2) / 5 + 1)%Z in
  let m := if (mp <? 10)%Z then (mp + 3)%Z else (mp - 9)%Z in
  let y := (yoe + era * 400)%Z in
  (if (m <=? 2)%Z then (y + 1)%Z else y, m, d).

(** Dates written [YYYY-MM-DD]; anything else is refused. *)
Definition parse_iso_date (s : string) : option Z :=
  match list_ascii_of_string s with
  | [y1; y2; y3; y4; s1; m1; m2; s2; d1; d2] =>
      match digit y1, digit y2, digit y3, digit y4,
            digit m1, digit m2, digit d1, digit d2 with
      | Some a, Some b, Some c, Some d, Some e, Some f, Some g, Some h =>
          let y := (a * 1000 + b * 100 + c * 10 + d)%Z in
          let m := (e * 10 + f)%Z in
          let dd := (g * 10 + h)%Z in
          if is_dash s1 && is_dash s2 &&
             (1 <=? m)%Z && (m <=? 12)%Z && (1 <=? dd)%Z && (dd <=? 31)%Z
          then Some (days_from_civil y m dd * ns_per_day)%Z
          else None
      | _, _, _, _, _, _, _, _ => None
      end
  | _ => None
  end.

Definition civil_of (t : Z) : Z * Z * Z := civil_from_days (t / ns_per_day).

(** [np.log1p] has no rational values; the instance takes the
    approximation 2x/(2+x). *)
Definition sample_lib : externals :=
  mkExternals
    (fun x => 2 * x / (2 + x))
    parse_iso_date
    (fun x => if Qle_bool (inject_Z (- 2 ^ 63)) x && Qle_bool x (inject_Z (2 ^ 63 - 1))
              then Some (Qfloor x) else None)
    (fun t => fst (fst (civil_of t)))
    (fun t => snd (fst (civil_of t)))
    (fun t => snd (civil_of t))
    (fun t => ((t / ns_per_day + 3) mod 7)%Z)
    (fun t => ((snd (fst (civil_of t)) - 1) / 3 + 1)%Z).

(** A file as [read_csv] parses it, before its column names are
    cleaned: three columns of strings. *)
Definition stays : DataFrame :=
  [ ("Name", Object [Some "Ann"; Some "Bob"]);
    ("Date of Admission", Object [Some "2024-01-05"; Some "2024-02-10"]);
    ("Discharge Date", Object [Some "2024-01-09"; Some "unknown"]) ]%string.

(** A table as an upload stores it (names in lower case): the admission
    dates as numbers, read as nanoseconds since the epoch, and a discharge
    column of [True]/[False], which [to_datetime] refuses. *)
Definition admissions : DataFrame :=
  [ ("date_of_admission",
     Numeric [Fin (inject_Z 1704412800000000000); Fin (inject_Z 1707523200000000000)]);
    ("discharge_date", Bool [true; false]) ]%string.

(** A column with a zero and an outlier. *)
Definition visits : DataFrame :=
  [ ("visits", Numeric [Fin 0; Fin 1; Fin 2; Fin 3; Fin 100]) ]%string.

(** A grouping column with two groups and its outcome column. *)
Definition conditions : list (option string) :=
  [Some "Asthma"; Some "Cancer"; Some "Asthma"; Some "Cancer"; Some "Cancer"]%string.

Definition test_results : list (option string) :=
  [Some "Normal"; Some "Abnormal"; Some "Abnormal"; Some "Abnormal"; Some "Normal"]%string.

(** ** Tables with columns of one length *)

(** Every column has [len df] rows, as in any DataFrame. *)
Definition well_formed (df : DataFrame) : bool :=
  forallb (fun cs => (series_len (snd cs) =? len df)%nat) df.

(** The working copy has columns of one length, [n] rows each. *)
Definition data_ok (n : nat) (d : DataFrame) : Prop :=
  well_formed d = true /\ len d = n.

(** The state a block leaves, whether the script goes on or not. *)
Definition flow_state (f : flow) : run_state :=
  match f with
  | next st => st
  | halt _ st => st
  end.

(** How a block ends the script, if it does. *)
Definition flow_exit (f : flow) : option outcome :=
  match f with
  | next _ => None
  | halt e _ => Some e
  end.

(** A table with two repeated rows (30 is written in two ways). *)
Definition patients : DataFrame :=
  [ ("name", Object [Some "Ann"; Some "Bob"; Some "Ann"; Some "Ann"]);
    ("age", Numeric [Fin 30; Fin 41; Fin 30; Fin (60 # 2)]) ]%string.

(** What a block leaves when it starts from a working copy with columns
    of one length: such a working copy again, stored as the processed
    table if the block asks for a rerun. *)
Definition block_ok (b : block) : Prop :=
  forall st : run_state,
    well_formed (data st) = true ->
    well_formed (data (flow_state (b st))) = true /\
    (flow_exit (b st) = Some rerun ->
     healthcare_data_processed (session (flow_state (b st)))
     = Some (data (flow_state (b st)))).

(** ** Loading a dataset (app.py, lines 122-150) *)

(** [s.replace(old, new)] for single characters. *)
Fixpoint replace_char (old new : ascii) (s : string) : string :=
  match s with
  | EmptyString => EmptyString
  | String c s' =>
      String (if Ascii.eqb c old then new else c) (replace_char old new s')
  end.

(** Line 129: [str.replace(' ', '_').str.replace('-', '_').str.lower()]. *)
Definition clean_name (c : string) : string :=
  lower (replace_char "-" "_" (replace_char " " "_" c)).

(** Lines 132-142. *)
Definition column_mapping : list (string * string) :=
  [ ("medical_condition", "medical_condition");
    ("test_results", "test_results");
    ("billing_amount", "billing_amount");
    ("insurance_provider", "insurance_provider");
    ("blood_type", "blood_type");
    ("date_of_admission", "date_of_admission");
    ("discharge_date", "discharge_date");
    ("admission_type", "admission_type");
    ("room_number", "room_number") ]%string.

(** [df.rename(columns={old: new})] *)
Definition rename (old new : string) (df : DataFrame) : DataFrame :=
  map (fun cs => (if String.eqb (fst cs) old then new else fst cs, snd cs)) df.

(** Lines 145-147. *)
Definition apply_column_mapping (df : DataFrame) : DataFrame :=
  fold_left
    (fun d m => if mem (fst m) (column_names d) then rename (fst m) (snd m) d else d)
    column_mapping df.

(** The table stored for a parsed file (lines 129-147). *)
Definition prepare_columns (raw : DataFrame) : DataFrame :=
  apply_column_mapping (map (fun cs => (clean_name (fst cs), snd cs)) raw).

(** What an upload does to the store: [parsed] is what [pd.read_csv]
    gives, [None] when it raises.  A parsed table is stored at line 150;
    the [except] branch (line 219) stores nothing. *)
Definition upload (parsed : option DataFrame) (ss : SessionState) : SessionState :=
  match parsed with
  | Some raw => mkSession (Some (prepare_columns raw)) (healthcare_data_processed ss)
  | None => ss
  end.

(** A name without space, hyphen and capital ASCII letter. *)
Definition clean_char (c : ascii) : bool :=
  let n := nat_of_ascii c in
  negb (Ascii.eqb c " ") && negb (Ascii.eqb c "-") &&
  negb ((65 <=? n) && (n <=? 90))%nat.

Fixpoint is_clean (s : string) : bool :=
  match s with
  | EmptyString => true
  | String c s' => clean_char c && is_clean s'
  end.

(** ** The table and the columns the visualisation page works on *)

(** Visualisation page, lines 24-31: the processed table if there is one, else the uploaded
    one; [None] stops the page. *)
Definition visualization_data (ss : SessionState) : option DataFrame :=
  match healthcare_data_processed ss with
  | Some d => Some d
  | None => healthcare_data ss
  end.

(** [for col in candidates: if col in data.columns: ...; break] *)
Fixpoint first_present (candidates cols : list string) : option string :=
  match candidates with
  | [] => None
  | c :: candidates' =>
      if mem c cols then Some c else first_present candidates' cols
  end.

(** Lines 50-54, 63-67 and 76-80. *)
Definition condition_col_of (df : DataFrame) : option string :=
  first_present ["medical_condition"; "Medical_Condition"; "Medical Condition"]%string
                (column_names df).

Definition billing_col_of (df : DataFrame) : option string :=
  first_present ["billing_amount"; "Billing_Amount"; "Billing Amount"]%string
                (column_names df).

Definition target_col_of (df : DataFrame) : option string :=
  first_present ["test_results"; "Test_Results"; "Test Results"]%string
                (column_names df).

(** ** Quality figures (app.py, lines 159-174) *)

Definition count_missing (s : Series) : nat :=
  match s with
  | Numeric v => List.length (filter (fun x => match x with NaN => true | _ => false end) v)
  | Object v => List.length (filter (fun x => match x with None => true | _ => false end) v)
  | Datetime v => List.length (filter (fun x => match x with None => true | _ => false end) v)
  | Bool _ => 0%nat
  end.

(** [data.isnull().sum().sum()] *)
Definition missing_count (df : DataFrame) : nat :=
  list_sum (map (fun cs => count_missing (snd cs)) df).

(** A count divided by a Python [int]: [NaN] when that is zero. *)
Definition ratio (a b : nat) : num :=
  match b with
  | O => NaN
  | S _ => Fin (Qnat a / Qnat b)
  end.

(** Line 170. *)
Definition completeness (df : DataFrame) : num :=
  num_mul (num_sub (Fin 1) (ratio (missing_count df) (len df * List.length df)))
          (Fin 100).

(** Lines 162 and 174. *)
Definition uniqueness (df : DataFrame) : num :=
  num_mul (num_sub (Fin 1) (ratio (mask_sum (duplicated df)) (len df)))
          (Fin 100).

(** ** Age groups of the visualisation page (lines 201-205, 463-467, 600-604) *)

(** [pd.cut(x, bins, labels)]: the label of the interval [(lo, hi]] that
    holds the value, none outside the bins. *)
Fixpoint cut_from (lo : Q) (bins : list Q) (labels : list string) (x : Q)
  : option string :=
  match bins, labels with
  | hi :: bins', l :: labels' =>
      if Qlt_bool lo x && Qle_bool x hi then Some l
      else cut_from hi bins' labels' x
  | _, _ => None
  end.

Definition cut (bins : list Q) (labels : list string) (x : num) : option string :=
  match x, bins with
  | Fin q, lo :: bins' => cut_from lo bins' labels q
  | _, _ => None
  end.

Definition age_group_cut (age : num) : option string :=
  cut [0; 18; 35; 55; 75; 100] ["<18"; "18-34"; "35-54"; "55-74"; "75+"]%string age.

(** The label of the preprocessing page that names the same group. *)
Definition label_of_cut (l : string) : string :=
  if String.eqb l "<18" then "Child"
  else if String.eqb l "18-34" then "Young Adult"
  else if String.eqb l "35-54" then "Middle Age"
  else if String.eqb l "55-74" then "Senior"
  else "Elderly".

(** ** Value counts and encodings (preprocessing page, lines 391-405;
    visualisation page, line 634) *)

(** The distinct values of a list, in the order of their first
    appearance. *)
Fixpoint distinct (l : list string) : list string :=
  match l with
  | [] => []
  | x :: l' => x :: filter (fun y => negb (String.eqb y x)) (distinct l')
  end.

(** The rows that hold the value [k]. *)
Definition count_value (k : string) (v : list (option string)) : nat :=
  List.length (filter (has_key k) v).

Definition count_geb (a b : string * nat) : bool := (snd b <=? snd a)%nat.

(** [s.value_counts()]: the values that occur with their numbers of
    rows, the most frequent first; missing values are not counted. *)
Definition value_counts (v : list (option string)) : list (string * nat) :=
  sort count_geb (map (fun k => (k, count_value k v)) (distinct (present v))).

(** [value_counts().index[0]]; [None] stands for the [IndexError] of an
    empty result. *)
Definition top_value (v : list (option string)) : option string :=
  match value_counts v with
  | [] => None
  | (k, _) :: _ => Some k
  end.

(** A [dict] read by key. *)
Fixpoint lookup (k : string) (m : list (string * nat)) : option nat :=
  match m with
  | [] => None
  | (k', n) :: m' => if String.eqb k' k then Some n else lookup k m'
  end.

(** Lines 403-404: [freq_map = value_counts().to_dict()] and
    [s.map(freq_map)]; a value without an entry becomes [NaN]. *)
Definition frequency_encode (v : list (option string)) : list num :=
  let freq_map := value_counts v in
  map (fun o => match o with
                | Some k => match lookup k freq_map with
                            | Some n => Fin (Qnat n)
                            | None => NaN
                            end
                | None => NaN
                end) v.

(** [s.astype(str)]: a missing value becomes the string "nan". *)
Definition astype_str (o : option string) : string :=
  match o with
  | Some s => s
  | None => "nan"%string
  end.

Fixpoint index_of (x : string) (l : list string) : nat :=
  match l with
  | [] => 0%nat
  | y :: l' => if String.eqb x y then 0%nat else S (index_of x l')
  end.

(** [LabelEncoder.classes_]: the distinct values, sorted. *)
Definition classes_of (v : list string) : list string :=
  sort String.leb (nodup string_dec v).

(** Line 394: [LabelEncoder().fit_transform(s.astype(str))]; a value is
    encoded by its position among the classes. *)
Definition label_encode (v : list (option string)) : list nat :=
  let strs := map astype_str v in
  map (fun s => index_of s (classes_of strs)) strs.

(** Line 398: [pd.get_dummies(s, prefix=col)]; one indicator column for
    each value that occurs, in sorted order. *)
Definition get_dummies (prefix : string) (v : list (option string))
  : list (string * list bool) :=
  map (fun k => ((prefix ++ "_" ++ k)%string, map (has_key k) v)) (group_keys v).

(** ** Min-max scaling (preprocessing page, lines 428-433) *)

(** The machine epsilon of a 64-bit float, [np.finfo(np.float64).eps]. *)
Definition eps : Q := 1 # 4503599627370496.

(** scikit-learn's [_handle_zeros_in_scale] on the array of ranges: a
    range below [10 * eps] counts as constant and is replaced by one. *)
Definition handle_zero (q : Q) : Q := if Qlt_bool q (10 * eps) then 1 else q.

(** [MinMaxScaler().fit_transform] on one column.  The scaler works in
    64-bit floats: [rnd] is the rounding of an exact result to a float.
    The values are converted to floats; [data_range] is the rounded
    difference of the largest and the smallest, [scale_] is
    [1 / data_range] and [min_] is [0 - data_min * scale_]; a value [x]
    becomes [x * scale_ + min_].  Missing values are skipped by the fit
    and stay missing; a column without rows is refused ([None]). *)
Definition min_max_scale (rnd : Q -> Q) (v : list num) : option (list num) :=
  match v with
  | [] => None
  | _ :: _ =>
      let X := map (fun x => match x with Fin q => Fin (rnd q) | NaN => NaN end) v in
      match series_min X, series_max X with
      | Fin data_min, Fin data_max =>
          let data_range := rnd (data_max - data_min) in
          let scale_ := rnd (1 / handle_zero data_range) in
          let min_ := rnd (0 - rnd (data_min * scale_)) in
          Some (map (fun x => match x with
                              | Fin q => Fin (rnd (rnd (q * scale_) + min_))
                              | NaN => NaN
                              end) X)
      | _, _ => Some (map (fun _ => NaN) v)
      end
  end.

(** A column the examples scale. *)
Definition billing : list num := [Fin 10; NaN; Fin 20; Fin 15].

(** ** Dropping the rows with a missing value (preprocessing page, line 243) *)

Definition notna (s : Series) : list bool :=
  match s with
  | Numeric v => map (fun x => match x with NaN => false | Fin _ => true end) v
  | Object v => map (fun x => match x with None => false | Some _ => true end) v
  | Datetime v => map (fun x => match x with None => false | Some _ => true end) v
  | Bool v => map (fun _ => true) v
  end.

(** [data.dropna(subset=[col])]; [None] stands for the [KeyError] of an
    unknown column. *)
Definition dropna_subset (col : string) (df : DataFrame) : option DataFrame :=
  match get_col df col with
  | Some s => Some (loc_rows (notna s) df)
  | None => None
  end.

(** ** The columns the length-of-stay search accepts (lines 453-457) *)

Definition is_admission_date (c : string) : bool :=
  contains "admission" (lower c) && contains "date" (lower c).

(** The [elif]: a discharge date that is not also an admission date. *)
Definition is_discharge_date (c : string) : bool :=
  negb (is_admission_date c) &&
  (contains "discharge" (lower c) && contains "date" (lower c)).

(** A table with a missing age. *)
Definition intake : DataFrame :=
  [ ("name", Object [Some "Ann"; None; Some "Cy"]);
    ("age", Numeric [Fin 30; Fin 41; NaN]) ]%string.

(** ** The summary at the end of the preprocessing page (lines 572-591) *)

Inductive summary_step : Type :=
| step_removed_records (n : Z)
| step_created_features (n : Z)
| step_handled_missing
| step_analyzed
| step_identified_outliers
| step_prepared.

(** [data] is the working copy at the end of the run, [original] the
    uploaded table. *)
Definition preprocessing_steps (data original : DataFrame) : list summary_step :=
  (if (len data =? len original)%nat then []
   else [step_removed_records (Z.of_nat (len original) - Z.of_nat (len data))]) ++
  (if (List.length data =? List.length original)%nat then []
   else [step_created_features
           (Z.of_nat (List.length data) - Z.of_nat (List.length original))]) ++
  (if (missing_count data =? missing_count original)%nat then []
   else [step_handled_missing]) ++
  [step_analyzed; step_identified_outliers; step_prepared].

(** Two tables with the same numbers of rows and columns. *)
Definition same_shape (d d' : DataFrame) : Prop :=
  len d = len d' /\ List.length d = List.length d'.

(** ** The share of high-cost cases (visualisation page, lines 641-642) *)

Definition high_billing_pct (v : list num) : num :=
  let high_billing_threshold := quantile v (9 # 10) in
  num_mul (mean_bool (map (fun x => num_gtb x high_billing_threshold) v)) (Fin 100).

(** ** Where the arithmetic of the page is exact *)

(** The page computes in 64-bit floats; the numbers of this development
    are exact.  On a column of whole numbers of magnitude at most [2^40]
    the two agree in every step of lines 307-313: the position
    [(n - 1) * q] of a quartile is a multiple of 1/4, the interpolation
    between two neighbours a multiple of 1/4 below [2^42], the IQR and
    the bounds multiples of 1/8 below [2^43], all of them floats, and an
    [int64] value of that size is converted to a float without loss
    before it is compared with a bound. *)
Definition small_int (x : Q) : bool :=
  Qeq_bool x (inject_Z (Qfloor x)) &&
  Qle_bool (inject_Z (- 2 ^ 40)) x && Qle_bool x (inject_Z (2 ^ 40)).

Definition exact_column (s : list num) : bool :=
  forallb (fun v => match v with Fin x => small_int x | NaN => true end) s.

(** The largest power of two that divides a positive number, and what
    is left of the number. *)
Fixpoint twos (p : positive) : Z * positive :=
  match p with
  | xO p' => let (k, m) := twos p' in ((k + 1)%Z, m)
  | _ => (0%Z, p)
  end.

(** The numbers a 64-bit float holds: [m * 2^e] with [m] odd and below
    [2^53], [e] at least [-1074], and a magnitude below [2^1024].  Every
    value of a [float64] column is such a number; an [int64] value is one
    up to [2^53], and beyond that only if its odd part fits. *)
Definition is_float64 (x : Q) : bool :=
  let r := Qred x in
  match Qnum r with
  | Z0 => true
  | Zpos n | Zneg n =>
      let (j, m) := twos n in
      let (k, d) := twos (Qden r) in
      Pos.eqb d 1 && (Z.pos m <? 2 ^ 53)%Z &&
      (-1074 <=? j - k)%Z && (j - k + Z.log2 (Z.pos m) <=? 1023)%Z
  end.

Definition float64_column (s : list num) : bool :=
  forallb (fun v => match v with Fin x => is_float64 x | NaN => true end) s.

(** ** Capping to given bounds (lines 329-330) *)

(** The two masked assignments, for the bounds lines 310-311 have
    computed. *)
Definition clip (lower_bound upper_bound : num) (s : list num) : list num :=
  let s1 := assign_where (fun v => num_ltb v lower_bound) lower_bound s in
  assign_where (fun v => num_gtb v upper_bound) upper_bound s1.

(** ** A grouping column with a row that has no key *)



(** * Properties *)

(** ** Comparisons *)

Lemma Qlt_bool_iff (x y : Q) : Qlt_bool x y = true <-> x < y.
Proof.
  unfold Qlt_bool. rewrite negb_true_iff.
  split; intro H.
  - apply Qnot_le_lt. intro Hle. apply Qle_bool_iff in Hle. congruence.
  - destruct (Qle_bool y x) eqn:E; [|reflexivity].
    apply Qle_bool_iff in E. exfalso. exact (Qlt_not_le _ _ H E).
Qed.

Lemma Qle_bool_false_iff (x y : Q) : Qle_bool x y = false <-> y < x.
Proof.
  rewrite <- Qlt_bool_iff. unfold Qlt_bool.
  destruct (Qle_bool x y); simpl; split; congruence.
Qed.

Lemma num_ltb_lt (a b : num) : num_ltb a b = true <-> num_lt a b.
Proof.
  destruct a as [|x], b as [|y]; simpl; try (split; [discriminate | tauto]).
  apply Qlt_bool_iff.
Qed.

Lemma num_ltb_false_le (x y : Q) : num_ltb (Fin x) (Fin y) = false <-> y <= x.
Proof.
  simpl. unfold Qlt_bool. rewrite negb_false_iff. apply Qle_bool_iff.
Qed.

(** ** The outlier mask *)

Lemma outliers_mask_length (s : list num) :
  List.length (outliers_mask s) = List.length s.
Proof. unfold outliers_mask. apply length_map. Qed.


(** ** Age groups *)

Lemma categorize_age_cases (x : Q) :
  (x < 18 /\ categorize_age (Fin x) = "Child"%string) \/
  (18 <= x /\ x < 35 /\ categorize_age (Fin x) = "Young Adult"%string) \/
  (35 <= x /\ x < 55 /\ categorize_age (Fin x) = "Middle Age"%string) \/
  (55 <= x /\ x < 75 /\ categorize_age (Fin x) = "Senior"%string) \/
  (75 <= x /\ categorize_age (Fin x) = "Elderly"%string).
Proof.
  unfold categorize_age.
  destruct (num_ltb (Fin x) (Fin 18)) eqn:E1.
  { apply num_ltb_lt in E1. left. split; [exact E1 | reflexivity]. }
  apply num_ltb_false_le in E1. right.
  destruct (num_ltb (Fin x) (Fin 35)) eqn:E2.
  { apply num_ltb_lt in E2. left. repeat split; assumption. }
  apply num_ltb_false_le in E2. right.
  destruct (num_ltb (Fin x) (Fin 55)) eqn:E3.
  { apply num_ltb_lt in E3. left. repeat split; assumption. }
  apply num_ltb_false_le in E3. right.
  destruct (num_ltb (Fin x) (Fin 75)) eqn:E4.
  { apply num_ltb_lt in E4. left. repeat split; assumption. }
  apply num_ltb_false_le in E4. right.
  split; [assumption | reflexivity].
Qed.

(** A missing age falls through every comparison. *)
Lemma categorize_age_NaN : categorize_age NaN = "Elderly"%string.
Proof. reflexivity. Qed.

Lemma categorize_age_label (a : num) :
  In (categorize_age a)
     ["Child"; "Young Adult"; "Middle Age"; "Senior"; "Elderly"]%string.
Proof.
  destruct a as [|x].
  - rewrite categorize_age_NaN. simpl. tauto.
  - destruct (categorize_age_cases x)
      as [[_ H]|[[_ [_ H]]|[[_ [_ H]]|[[_ [_ H]]|[_ H]]]]];
      rewrite H; simpl; tauto.
Qed.

(** C10: on every numeric age the categorization returns one of the five
    labels, and which one is decided by the boundaries 18, 35, 55 and 75:
    below 18 'Child', from 18 below 35 'Young Adult', from 35 below 55
    'Middle Age', from 55 below 75 'Senior', from 75 on 'Elderly'. *)
Theorem categorize_age_boundaries (x : Q) :
  In (categorize_age (Fin x))
     ["Child"; "Young Adult"; "Middle Age"; "Senior"; "Elderly"]%string /\
  (categorize_age (Fin x) = "Child"%string <-> x < 18) /\
  (categorize_age (Fin x) = "Young Adult"%string <-> 18 <= x /\ x < 35) /\
  (categorize_age (Fin x) = "Middle Age"%string <-> 35 <= x /\ x < 55) /\
  (categorize_age (Fin x) = "Senior"%string <-> 55 <= x /\ x < 75) /\
  (categorize_age (Fin x) = "Elderly"%string <-> 75 <= x).
Proof.
  split; [apply categorize_age_label|].
  destruct (categorize_age_cases x)
    as [[H1 H]|[[H1 [H2 H]]|[[H1 [H2 H]]|[[H1 [H2 H]]|[H1 H]]]]];
    rewrite H;
    repeat split; intros; try discriminate; try reflexivity;
    try assumption; exfalso; lra.
Qed.

(** ** Insertion sort *)

Section InsertionSortFacts.
Context {A : Type}.
Variable leb : A -> A -> bool.

Lemma insert_perm (x : A) (l : list A) : Permutation (x :: l) (insert leb x l).
Proof.
  induction l as [|y l IH]; simpl.
  - apply Permutation_refl.
  - destruct (leb x y).
    + apply Permutation_refl.
    + eapply perm_trans; [apply perm_swap|]. now apply perm_skip.
Qed.

Lemma sort_perm (l : list A) : Permutation l (sort leb l).
Proof.
  induction l as [|x l IH]; simpl.
  - apply perm_nil.
  - eapply perm_trans; [apply perm_skip, IH | apply insert_perm].
Qed.

Lemma sort_length (l : list A) : List.length (sort leb l) = List.length l.
Proof. symmetry. apply Permutation_length, sort_perm. Qed.

Hypothesis leb_total : forall x y, leb x y = true \/ leb y x = true.

Lemma insert_sorted (x : A) (l : list A) :
  Sorted (fun a b => leb a b = true) l ->
  Sorted (fun a b => leb a b = true) (insert leb x l).
Proof.
  induction 1 as [|y l Hs IH Hhd]; simpl.
  - repeat constructor.
  - destruct (leb x y) eqn:E.
    + constructor; [constructor; assumption|]. constructor. exact E.
    + constructor; [exact IH|].
      assert (Hyx : leb y x = true) by (destruct (leb_total x y); [congruence|assumption]).
      destruct Hhd as [|z l' Hyz]; simpl.
      * constructor. exact Hyx.
      * destruct (leb x z); constructor; assumption.
Qed.

Lemma sort_sorted (l : list A) :
  Sorted (fun a b => leb a b = true) (sort leb l).
Proof.
  induction l as [|x l IH]; simpl.
  - constructor.
  - now apply insert_sorted.
Qed.
End InsertionSortFacts.

Lemma Qle_bool_total (x y : Q) : Qle_bool x y = true \/ Qle_bool y x = true.
Proof.
  destruct (Qlt_le_dec x y) as [H|H].
  - left. apply Qle_bool_iff. now apply Qlt_le_weak.
  - right. now apply Qle_bool_iff.
Qed.

Lemma sort_Q_sorted (l : list Q) : StronglySorted Qle (sort Qle_bool l).
Proof.
  apply Sorted_StronglySorted.
  - intros x y z. apply Qle_trans.
  - pose proof (sort_sorted Qle_bool Qle_bool_total l) as H.
    induction H as [|x l' Hs IH Hhd]; constructor.
    + exact IH.
    + destruct Hhd as [|y l'' Hxy]; constructor. now apply Qle_bool_iff.
Qed.

Lemma sorted_nth_le (v : list Q) :
  StronglySorted Qle v ->
  forall i j : nat, (i <= j)%nat -> (j < List.length v)%nat ->
    nth i v 0 <= nth j v 0.
Proof.
  induction 1 as [|a l Hs IH Hall]; intros i j Hij Hj; simpl in Hj.
  - lia.
  - destruct i as [|i], j as [|j]; simpl; try lia.
    + apply Qle_refl.
    + rewrite Forall_forall in Hall. apply Hall, nth_In. lia.
    + apply IH; lia.
Qed.

(** ** Interpolated quantiles are monotone *)

Section Interpolation.
Variable v : list Q.
Hypothesis v_sorted : StronglySorted Qle v.
Hypothesis v_nonempty : (0 < List.length v)%nat.

Lemma floor_in_range (pos : Q) :
  0 <= pos -> pos <= inject_Z (Z.of_nat (List.length v) - 1) ->
  (0 <= Qfloor pos)%Z /\ (Z.to_nat (Qfloor pos) < List.length v)%nat.
Proof.
  intros H0 H1.
  assert (Hf : (0 <= Qfloor pos)%Z).
  { change 0%Z with (Qfloor 0). now apply Qfloor_resp_le. }
  split; [exact Hf|].
  assert (Hl : (Qfloor pos <= Z.of_nat (List.length v) - 1)%Z).
  { rewrite <- (Qfloor_Z (Z.of_nat (List.length v) - 1)).
    now apply Qfloor_resp_le. }
  lia.
Qed.

Lemma frac_range (pos : Q) :
  0 <= pos - inject_Z (Qfloor pos) /\ pos - inject_Z (Qfloor pos) < 1.
Proof.
  pose proof (Qfloor_le pos) as Hl.
  pose proof (Qlt_floor pos) as Hu.
  rewrite inject_Z_plus in Hu. change (inject_Z 1) with 1 in Hu.
  split; lra.
Qed.

Lemma interpolate_lo (pos : Q) :
  0 <= pos -> pos <= inject_Z (Z.of_nat (List.length v) - 1) ->
  nth (Z.to_nat (Qfloor pos)) v 0 <= interpolate v pos.
Proof.
  intros H0 H1. unfold interpolate.
  destruct (floor_in_range pos H0 H1) as [_ Hlo].
  destruct (frac_range pos) as [Hf0 _].
  set (lo := Z.to_nat (Qfloor pos)) in *.
  assert (Hab : nth lo v 0 <= nth (Nat.min (S lo) (List.length v - 1)) v 0)
    by (apply sorted_nth_le; [assumption | lia | lia]).
  set (a := nth lo v 0) in *.
  set (b := nth (Nat.min (S lo) (List.length v - 1)) v 0) in *.
  set (f := pos - inject_Z (Qfloor pos)) in *.
  assert (0 <= (b - a) * f) by (apply Qmult_le_0_compat; lra).
  lra.
Qed.

Lemma interpolate_hi (pos : Q) :
  0 <= pos -> pos <= inject_Z (Z.of_nat (List.length v) - 1) ->
  interpolate v pos
  <= nth (Nat.min (S (Z.to_nat (Qfloor pos))) (List.length v - 1)) v 0.
Proof.
  intros H0 H1. unfold interpolate.
  destruct (floor_in_range pos H0 H1) as [_ Hlo].
  destruct (frac_range pos) as [_ Hf1].
  set (lo := Z.to_nat (Qfloor pos)) in *.
  assert (Hab : nth lo v 0 <= nth (Nat.min (S lo) (List.length v - 1)) v 0)
    by (apply sorted_nth_le; [assumption | lia | lia]).
  set (a := nth lo v 0) in *.
  set (b := nth (Nat.min (S lo) (List.length v - 1)) v 0) in *.
  set (f := pos - inject_Z (Qfloor pos)) in *.
  assert (0 <= (b - a) * (1 - f)) by (apply Qmult_le_0_compat; lra).
  lra.
Qed.

Lemma interpolate_mono (p q : Q) :
  0 <= p -> p <= q -> q <= inject_Z (Z.of_nat (List.length v) - 1) ->
  interpolate v p <= interpolate v q.
Proof.
  intros H0 Hpq H1.
  assert (H0q : 0 <= q) by lra.
  assert (H1p : p <= inject_Z (Z.of_nat (List.length v) - 1)) by lra.
  destruct (floor_in_range p H0 H1p) as [Hp0 Hpn].
  destruct (floor_in_range q H0q H1) as [Hq0 Hqn].
  pose proof (Qfloor_resp_le p q Hpq) as Hfl.
  destruct (Z.eq_dec (Qfloor p) (Qfloor q)) as [E|NE].
  - unfold interpolate. rewrite <- E.
    set (lo := Z.to_nat (Qfloor p)) in *.
    assert (Hab : nth lo v 0 <= nth (Nat.min (S lo) (List.length v - 1)) v 0)
      by (apply sorted_nth_le; [assumption | lia | lia]).
    set (a := nth lo v 0) in *.
    set (b := nth (Nat.min (S lo) (List.length v - 1)) v 0) in *.
    assert (0 <= (b - a) * (q - p)) by (apply Qmult_le_0_compat; lra).
    lra.
  - eapply Qle_trans; [apply interpolate_hi; assumption|].
    eapply Qle_trans; [|apply interpolate_lo; assumption].
    apply sorted_nth_le; [assumption | lia | lia].
Qed.
End Interpolation.

(** ** Quantiles of a column *)

Lemma sorted_values_length (s : list num) :
  List.length (sorted_values s) = List.length (dropna s).
Proof. apply sort_length. Qed.

Lemma quantile_empty (s : list num) (q : Q) :
  dropna s = [] -> quantile s q = NaN.
Proof. intro H. unfold quantile. rewrite H. reflexivity. Qed.

Lemma quantile_value (s : list num) (q : Q) :
  dropna s <> [] ->
  quantile s q
  = Fin (interpolate (sorted_values s)
                     (inject_Z (Z.of_nat (List.length (sorted_values s)) - 1) * q)).
Proof.
  intro H. unfold quantile. fold (sorted_values s).
  destruct (sorted_values s) eqn:E; [|reflexivity].
  apply (f_equal (@List.length Q)) in E. rewrite sorted_values_length in E.
  destruct (dropna s); [congruence | discriminate].
Qed.

Lemma quantile_finite (s : list num) (q : Q) (x : Q) :
  quantile s q = Fin x -> dropna s <> [].
Proof.
  intros H E. rewrite (quantile_empty s q E) in H. discriminate.
Qed.

Lemma last_pos_nonneg (s : list num) :
  dropna s <> [] ->
  0 <= inject_Z (Z.of_nat (List.length (sorted_values s)) - 1).
Proof.
  intro H. rewrite sorted_values_length.
  destruct (dropna s) as [|x l]; [congruence|].
  change 0 with (inject_Z 0). rewrite <- Zle_Qle. simpl List.length. lia.
Qed.

Lemma quantile_mono (s : list num) (p q : Q) :
  dropna s <> [] -> 0 <= p -> p <= q -> q <= 1 ->
  exists x y : Q, quantile s p = Fin x /\ quantile s q = Fin y /\ x <= y.
Proof.
  intros Hne H0 Hpq H1.
  rewrite !quantile_value by assumption.
  do 2 eexists. split; [reflexivity|]. split; [reflexivity|].
  pose proof (last_pos_nonneg s Hne) as Hn.
  set (n1 := inject_Z (Z.of_nat (List.length (sorted_values s)) - 1)) in *.
  apply interpolate_mono.
  - apply sort_Q_sorted.
  - rewrite sorted_values_length. destruct (dropna s); [congruence | simpl; lia].
  - apply Qmult_le_0_compat; assumption.
  - assert (0 <= n1 * (q - p)) by (apply Qmult_le_0_compat; lra). lra.
  - fold n1. assert (0 <= n1 * (1 - q)) by (apply Qmult_le_0_compat; lra). lra.
Qed.

(** The median is the 0.5 quantile. *)
Lemma median_is_quantile (s : list num) :
  dropna s <> [] ->
  exists m x : Q, median s = Fin m /\ quantile s (1 # 2) = Fin x /\ m == x.
Proof.
  intro Hne.
  rewrite quantile_value by assumption.
  unfold median. fold (sorted_values s).
  assert (Hlen : (0 < List.length (sorted_values s))%nat).
  { rewrite sorted_values_length. destruct (dropna s); [congruence | simpl; lia]. }
  destruct (sorted_values s) as [|x0 l] eqn:E; [simpl in Hlen; lia|].
  rewrite <- E in *. clear E x0 l.
  set (v := sorted_values s) in *.
  set (n := List.length v) in *.
  unfold interpolate. fold n.
  destruct (Nat.even n) eqn:Ev.
  - apply Nat.even_spec in Ev. destruct Ev as [k Hk].
    assert (Hfl : Qfloor (inject_Z (Z.of_nat n - 1) * (1 # 2)) = (Z.of_nat k - 1)%Z).
    { unfold Qfloor, inject_Z, Qmult; simpl Qnum; simpl Qden.
      rewrite Hk. rewrite Nat2Z.inj_mul. simpl Z.of_nat.
      change (Z.pos (1 * 2)) with 2%Z.
      symmetry. apply Z.div_unique with (r := 1%Z); lia. }
    rewrite Hfl.
    assert (Hpos : inject_Z (Z.of_nat n - 1) * (1 # 2)
                   == inject_Z (Z.of_nat k - 1) + (1 # 2)).
    { rewrite Hk, Nat2Z.inj_mul. change (Z.of_nat 2) with 2%Z.
      unfold Qeq, inject_Z, Qmult, Qplus. cbn [Qnum Qden]. lia. }
    replace (Z.to_nat (Z.of_nat k - 1)) with (k - 1)%nat by lia.
    replace (Nat.min (S (k - 1)) (n - 1)) with k by lia.
    replace (n / 2)%nat with k
      by (rewrite Hk, Nat.mul_comm, Nat.div_mul; [reflexivity | discriminate]).
    do 2 eexists. split; [reflexivity|]. split; [reflexivity|].
    rewrite Hpos. field.
  - assert (Hodd : Nat.odd n = true) by (rewrite <- Nat.negb_even, Ev; reflexivity).
    apply Nat.odd_spec in Hodd. destruct Hodd as [k Hk].
    assert (Hpos : inject_Z (Z.of_nat n - 1) * (1 # 2) == inject_Z (Z.of_nat k)).
    { rewrite Hk, Nat2Z.inj_add, Nat2Z.inj_mul.
      change (Z.of_nat 2) with 2%Z. change (Z.of_nat 1) with 1%Z.
      unfold Qeq, inject_Z, Qmult. cbn [Qnum Qden]. lia. }
    assert (Hfl : Qfloor (inject_Z (Z.of_nat n - 1) * (1 # 2)) = Z.of_nat k).
    { rewrite (Qfloor_comp _ _ Hpos). apply Qfloor_Z. }
    rewrite Hfl, Nat2Z.id.
    replace (n / 2)%nat with k.
    2:{ rewrite Hk. apply Nat.div_unique with (r := 1%nat); lia. }
    do 2 eexists. split; [reflexivity|]. split; [reflexivity|].
    rewrite Hpos. ring.
Qed.

Lemma IQR_finite (s : list num) (x : Q) :
  IQR s = Fin x ->
  exists q1 q3 : Q, Q1 s = Fin q1 /\ Q3 s = Fin q3 /\ x = q3 - q1.
Proof.
  unfold IQR, num_sub, num_lift2.
  destruct (Q3 s) as [|q3]; [discriminate|].
  destruct (Q1 s) as [|q1]; [discriminate|].
  intro H. injection H as <-. now exists q1, q3.
Qed.

(** The quartiles and the median of a column with a value, in order. *)
Lemma quartiles_ordered (s : list num) :
  dropna s <> [] ->
  exists q1 m q3 : Q,
    Q1 s = Fin q1 /\ median s = Fin m /\ Q3 s = Fin q3 /\
    q1 <= m /\ m <= q3.
Proof.
  intro Hne.
  destruct (median_is_quantile s Hne) as (m & x & Hm & Hx & Hmx).
  destruct (quantile_mono s (1 # 4) (1 # 2) Hne) as (q1 & x1 & Hq1 & Hx1 & H1);
    try lra.
  destruct (quantile_mono s (1 # 2) (3 # 4) Hne) as (x2 & q3 & Hx2 & Hq3 & H2);
    try lra.
  rewrite Hx in Hx1, Hx2. injection Hx1 as <-. injection Hx2 as <-.
  exists q1, m, q3. unfold Q1, Q3.
  repeat split; try assumption; lra.
Qed.

(** C7: for a column whose interquartile range is strictly positive,
    lower_bound <= Q1 <= median <= Q3 <= upper_bound. *)
Theorem bounds_quartiles_median_ordered (s : list num) :
  num_lt (Fin 0) (IQR s) ->
  num_le (lower_bound s) (Q1 s) /\
  num_le (Q1 s) (median s) /\
  num_le (median s) (Q3 s) /\
  num_le (Q3 s) (upper_bound s).
Proof.
  intro Hpos.
  destruct (IQR s) as [|i] eqn:Ei; [contradiction|].
  simpl in Hpos.
  destruct (IQR_finite s i Ei) as (q1 & q3 & Hq1 & Hq3 & Hi).
  assert (Hne : dropna s <> []) by (apply (quantile_finite s (1 # 4) q1); exact Hq1).
  destruct (quartiles_ordered s Hne) as (q1' & m & q3' & Hq1' & Hm & Hq3' & H1 & H2).
  rewrite Hq1 in Hq1'. injection Hq1' as <-.
  rewrite Hq3 in Hq3'. injection Hq3' as <-.
  unfold lower_bound, upper_bound. rewrite Ei, Hq1, Hq3, Hm. simpl.
  subst i. repeat split; lra.
Qed.

Lemma bounds_quartiles_median_ordered_witness :
  num_lt (Fin 0) (IQR ages) /\
  num_le (lower_bound ages) (Q1 ages) /\
  num_le (Q1 ages) (median ages) /\
  num_le (median ages) (Q3 ages) /\
  num_le (Q3 ages) (upper_bound ages).
Proof.
  assert (H : num_lt (Fin 0) (IQR ages)) by (vm_compute; reflexivity).
  split; [exact H | exact (bounds_quartiles_median_ordered ages H)].
Defined.

(** ** The worked example *)

(** C6: on the ages 10, 200, 30, 32, 31 the quartiles are 30 and 32, the
    IQR is 2 and the bounds are 27 and 35; the mask flags 10 and 200 and
    nothing else; capping turns 10 into 27 and 200 into 35 and leaves 30,
    32 and 31 as they are. *)
Theorem ages_example :
  num_eq (Q1 ages) (Fin 30) /\
  num_eq (Q3 ages) (Fin 32) /\
  num_eq (IQR ages) (Fin 2) /\
  num_eq (lower_bound ages) (Fin 27) /\
  num_eq (upper_bound ages) (Fin 35) /\
  outliers_mask ages = [true; true; false; false; false] /\
  select (outliers_mask ages) ages = [Fin 10; Fin 200] /\
  Forall2 num_eq (cap_outliers ages) [Fin 27; Fin 35; Fin 30; Fin 32; Fin 31] /\
  select (map negb (outliers_mask ages)) (cap_outliers ages)
  = [Fin 30; Fin 32; Fin 31].
Proof.
  repeat split; try (vm_compute; reflexivity).
  vm_compute. repeat constructor.
Qed.

(** ** Capping *)

Lemma cap_outliers_map (s : list num) :
  cap_outliers s = map (cap_value (lower_bound s) (upper_bound s)) s.
Proof. unfold cap_outliers, assign_where. now rewrite map_map. Qed.

Lemma In_dropna (s : list num) (x : Q) : In x (dropna s) <-> In (Fin x) s.
Proof.
  induction s as [|[|y] s IH]; simpl.
  - tauto.
  - rewrite IH. split; [tauto | intros [H|H]; [discriminate | exact H]].
  - rewrite IH. split; intros [H|H]; auto; left; congruence.
Qed.

Lemma cap_value_Fin (l u y : Q) :
  cap_value (Fin l) (Fin u) (Fin y) = Fin (clamp l u y).
Proof.
  unfold cap_value, clamp, num_gtb. simpl.
  destruct (Qlt_bool y l); simpl;
    [destruct (Qlt_bool u l) | destruct (Qlt_bool u y)]; reflexivity.
Qed.

Lemma cap_value_NaN (lb ub : num) : cap_value lb ub NaN = NaN.
Proof. unfold cap_value, num_gtb. simpl. destruct ub; reflexivity. Qed.

Lemma dropna_map_clamp (l u : Q) (s : list num) :
  dropna (map (cap_value (Fin l) (Fin u)) s) = map (clamp l u) (dropna s).
Proof.
  induction s as [|[|y] s IH].
  - reflexivity.
  - exact IH.
  - cbn [map]. rewrite cap_value_Fin. simpl. now rewrite IH.
Qed.

Lemma clamp_cases (l u x : Q) :
  l <= u ->
  (x < l /\ clamp l u x = l) \/
  (u < x /\ clamp l u x = u) \/
  (l <= x /\ x <= u /\ clamp l u x = x).
Proof.
  intro Hlu. unfold clamp.
  destruct (Qlt_bool x l) eqn:E1.
  - apply Qlt_bool_iff in E1. left. split; [exact E1|].
    destruct (Qlt_bool u l) eqn:E2; [|reflexivity].
    apply Qlt_bool_iff in E2. exfalso. lra.
  - right.
    assert (Hlx : l <= x) by (apply (num_ltb_false_le x l); exact E1).
    destruct (Qlt_bool u x) eqn:E2.
    + apply Qlt_bool_iff in E2. left. now split.
    + right. repeat split; try assumption.
      apply (num_ltb_false_le u x). exact E2.
Qed.

Lemma Qmin_list_spec (l : list Q) (x : Q) :
  In (Qmin_list x l) (x :: l) /\ forall y, In y (x :: l) -> Qmin_list x l <= y.
Proof.
  revert x. induction l as [|z l IH]; intro x; unfold Qmin_list; simpl.
  - split; [tauto|]. intros y [<-|[]]. apply Qle_refl.
  - fold (Qmin_list (if Qle_bool z x then z else x) l).
    destruct (IH (if Qle_bool z x then z else x)) as [Hin Hle].
    destruct (Qle_bool z x) eqn:E.
    + apply Qle_bool_iff in E. split.
      * destruct Hin as [Hin|Hin]; [right; left; exact Hin | right; right; exact Hin].
      * intros y [<-|[<-|Hy]].
        -- eapply Qle_trans; [apply Hle; left; reflexivity | exact E].
        -- apply Hle. left. reflexivity.
        -- apply Hle. right. exact Hy.
    + apply Qle_bool_false_iff in E. split.
      * destruct Hin as [Hin|Hin]; [left; exact Hin | right; right; exact Hin].
      * intros y [<-|[<-|Hy]].
        -- apply Hle. left. reflexivity.
        -- eapply Qle_trans; [apply Hle; left; reflexivity | lra].
        -- apply Hle. right. exact Hy.
Qed.

Lemma Qmax_list_spec (l : list Q) (x : Q) :
  In (Qmax_list x l) (x :: l) /\ forall y, In y (x :: l) -> y <= Qmax_list x l.
Proof.
  revert x. induction l as [|z l IH]; intro x; unfold Qmax_list; simpl.
  - split; [tauto|]. intros y [<-|[]]. apply Qle_refl.
  - fold (Qmax_list (if Qle_bool x z then z else x) l).
    destruct (IH (if Qle_bool x z then z else x)) as [Hin Hle].
    destruct (Qle_bool x z) eqn:E.
    + apply Qle_bool_iff in E. split.
      * destruct Hin as [Hin|Hin]; [right; left; exact Hin | right; right; exact Hin].
      * intros y [<-|[<-|Hy]].
        -- eapply Qle_trans; [exact E | apply Hle; left; reflexivity].
        -- apply Hle. left. reflexivity.
        -- apply Hle. right. exact Hy.
    + apply Qle_bool_false_iff in E. split.
      * destruct Hin as [Hin|Hin]; [left; exact Hin | right; right; exact Hin].
      * intros y [<-|[<-|Hy]].
        -- apply Hle. left. reflexivity.
        -- eapply Qle_trans; [|apply Hle; left; reflexivity]. lra.
        -- apply Hle. right. exact Hy.
Qed.

Lemma series_min_spec (s : list num) :
  dropna s <> [] ->
  exists m : Q, series_min s = Fin m /\ In m (dropna s) /\
                forall y, In y (dropna s) -> m <= y.
Proof.
  intro Hne. unfold series_min.
  destruct (dropna s) as [|x l]; [congruence|].
  destruct (Qmin_list_spec l x) as [Hin Hle].
  exists (Qmin_list x l). auto.
Qed.

Lemma series_max_spec (s : list num) :
  dropna s <> [] ->
  exists m : Q, series_max s = Fin m /\ In m (dropna s) /\
                forall y, In y (dropna s) -> y <= m.
Proof.
  intro Hne. unfold series_max.
  destruct (dropna s) as [|x l]; [congruence|].
  destruct (Qmax_list_spec l x) as [Hin Hle].
  exists (Qmax_list x l). auto.
Qed.

(** With a value in the column the bounds are numbers, lower below upper. *)
Lemma bounds_finite (s : list num) :
  dropna s <> [] ->
  exists l u : Q, lower_bound s = Fin l /\ upper_bound s = Fin u /\ l <= u.
Proof.
  intro Hne.
  destruct (quartiles_ordered s Hne) as (q1 & m & q3 & Hq1 & _ & Hq3 & H1 & H2).
  unfold lower_bound, upper_bound, IQR. rewrite Hq1, Hq3. simpl.
  do 2 eexists. split; [reflexivity|]. split; [reflexivity|]. lra.
Qed.

Lemma cap_value_within (lb ub : num) (x : Q) :
  ~ num_lt (Fin x) lb -> ~ num_lt ub (Fin x) ->
  cap_value lb ub (Fin x) = Fin x.
Proof.
  intros H1 H2. unfold cap_value.
  destruct (num_ltb (Fin x) lb) eqn:E1; [apply num_ltb_lt in E1; contradiction|].
  unfold num_gtb.
  destruct (num_ltb ub (Fin x)) eqn:E2; [apply num_ltb_lt in E2; contradiction|].
  reflexivity.
Qed.

(** On 1, 2, 3, 4, 100 the bounds are -1 and 7: the column has an outlier
    (100), and after capping its minimum is still 1, not the lower
    bound. *)
Lemma cap_outliers_min_counterexample :
  (0 < outlier_count [Fin 1; Fin 2; Fin 3; Fin 4; Fin 100])%nat /\
  ~ num_eq (series_min (cap_outliers [Fin 1; Fin 2; Fin 3; Fin 4; Fin 100]))
           (lower_bound [Fin 1; Fin 2; Fin 3; Fin 4; Fin 100]).
Proof.
  split.
  - vm_compute. lia.
  - vm_compute. discriminate.
Qed.

(** ** Duplicate rows *)

Lemma select_negb_length {A : Type} (mask : list bool) (l : list A) :
  List.length mask = List.length l ->
  (List.length (select (map negb mask) l) + mask_sum mask = List.length l)%nat.
Proof.
  revert l. unfold mask_sum.
  induction mask as [|b mask IH]; intros [|x l] Hlen; simpl in *; try discriminate.
  - reflexivity.
  - injection Hlen as Hlen. specialize (IH l Hlen).
    destruct b; simpl; lia.
Qed.

Lemma duplicated_from_length (seen rs : list (list cell)) :
  List.length (duplicated_from seen rs) = List.length rs.
Proof.
  revert seen. induction rs as [|r rs IH]; intro seen; simpl.
  - reflexivity.
  - now rewrite IH.
Qed.

Lemma rows_length (df : DataFrame) : List.length (rows df) = len df.
Proof. unfold rows. now rewrite length_map, length_seq. Qed.

Lemma duplicated_length (df : DataFrame) : List.length (duplicated df) = len df.
Proof. unfold duplicated. now rewrite duplicated_from_length, rows_length. Qed.

Lemma series_select_negb_length (mask : list bool) (s : Series) :
  List.length mask = series_len s ->
  (series_len (series_select (map negb mask) s) + mask_sum mask = series_len s)%nat.
Proof.
  destruct s as [v|v|v|v]; simpl; apply select_negb_length.
Qed.

Lemma duplicated_from_nth (rs seen : list (list cell)) (i : nat) (r : list cell) :
  nth_error rs i = Some r ->
  nth_error (duplicated_from seen rs) i
  = Some (existsb (row_same r) (rev (firstn i rs) ++ seen)).
Proof.
  revert seen i. induction rs as [|r0 rs IH]; intros seen i Hi.
  - destruct i; discriminate.
  - destruct i as [|i]; simpl in *.
    + injection Hi as <-. reflexivity.
    + rewrite (IH (r0 :: seen) i Hi). now rewrite <- app_assoc.
Qed.

Lemma rows_nth (df : DataFrame) (i : nat) :
  (i < len df)%nat -> nth_error (rows df) i = Some (row df i).
Proof.
  intro Hi. unfold rows.
  rewrite nth_error_map, nth_error_seq.
  destruct (Nat.ltb_spec i (len df)); [reflexivity | lia].
Qed.

(** A row is marked exactly when an earlier row holds the same values. *)
Lemma duplicated_marks_repeats (df : DataFrame) (i : nat) :
  (i < len df)%nat ->
  exists b : bool,
    nth_error (duplicated df) i = Some b /\
    (b = true <->
     exists j : nat, (j < i)%nat /\ row_same (row df i) (row df j) = true).
Proof.
  intro Hi. unfold duplicated.
  rewrite (duplicated_from_nth _ [] i _ (rows_nth df i Hi)), app_nil_r.
  eexists. split; [reflexivity|].
  rewrite existsb_exists. split.
  - intros (r & Hin & Hsame).
    apply in_rev, In_nth_error in Hin. destruct Hin as (j & Hj).
    assert (Hji : (j < i)%nat).
    { assert (Hs : nth_error (firstn i (rows df)) j <> None) by congruence.
      apply nth_error_Some in Hs. rewrite length_firstn in Hs. lia. }
    exists j. split; [exact Hji|].
    rewrite nth_error_firstn in Hj.
    destruct (Nat.ltb_spec j i); [|lia].
    rewrite rows_nth in Hj by lia. injection Hj as <-. exact Hsame.
  - intros (j & Hji & Hsame). exists (row df j). split; [|exact Hsame].
    apply -> in_rev. apply (nth_error_In _ j).
    rewrite nth_error_firstn.
    destruct (Nat.ltb_spec j i); [|lia].
    apply rows_nth. lia.
Qed.

(** ** Columns of a table *)

Lemma get_set_col_same (df : DataFrame) (c : string) (s : Series) :
  get_col (set_col df c s) c = Some s.
Proof.
  induction df as [|[c' s'] df IH]; simpl.
  - now rewrite String.eqb_refl.
  - destruct (String.eqb c' c) eqn:E; simpl; rewrite E; [reflexivity | exact IH].
Qed.

Lemma get_set_col_other (df : DataFrame) (c c' : string) (s : Series) :
  c <> c' -> get_col (set_col df c s) c' = get_col df c'.
Proof.
  intro Hne. induction df as [|[c0 s0] df IH]; simpl.
  - destruct (String.eqb c c') eqn:E; [apply String.eqb_eq in E; contradiction|].
    reflexivity.
  - destruct (String.eqb c0 c) eqn:E; simpl.
    + apply String.eqb_eq in E. subst c0.
      destruct (String.eqb c c') eqn:E'; [apply String.eqb_eq in E'; contradiction|].
      reflexivity.
    + destruct (String.eqb c0 c'); [reflexivity | exact IH].
Qed.

Lemma string_length_append (s1 s2 : string) :
  String.length (s1 ++ s2) = (String.length s1 + String.length s2)%nat.
Proof.
  induction s1 as [|c s1 IH]; simpl; [reflexivity | now rewrite IH].
Qed.

Lemma append_suffix_neq (c suffix : string) :
  suffix <> EmptyString -> (c ++ suffix)%string <> c.
Proof.
  intros Hne E. apply (f_equal String.length) in E.
  rewrite string_length_append in E.
  destruct suffix; [congruence | simpl in E; lia].
Qed.

Lemma mem_numerical_cols (df : DataFrame) (c : string) (v : list num) :
  get_col df c = Some (Numeric v) -> mem c (numerical_cols_of df) = true.
Proof.
  unfold mem, numerical_cols_of.
  induction df as [|[c' s'] df IH]; simpl; [discriminate|].
  destruct (String.eqb c' c) eqn:E.
  - intro H. injection H as ->. simpl.
    rewrite String.eqb_sym, E. reflexivity.
  - intro H. specialize (IH H).
    destruct (is_numeric s'); simpl; [|exact IH].
    rewrite IH. apply orb_true_r.
Qed.

(** ** Runs of the preprocessing page *)

Section PageRuns.
Variable lib : externals.

Lemma assessment_block_passes (st : run_state) :
assessment_raises (data st) = false -> assessment_block st = next st.
Proof. intro H. unfold assessment_block. now rewrite H. Qed.

Lemma assessment_block_crashes (st : run_state) :
assessment_raises (data st) = true -> assessment_block st = halt crashed st.
Proof. intro H. unfold assessment_block. now rewrite H. Qed.

Lemma duplicates_block_passes (click : option button) (st : run_state) :
click <> Some btn_remove_duplicates ->
duplicates_block click st = next st.
Proof.
intro H. unfold duplicates_block.
destruct (0 <? mask_sum (duplicated (data st)))%nat; [|reflexivity].
destruct click as [[]|]; try reflexivity. congruence.
Qed.

Lemma los_block_passes (click : option button) (st : run_state) :
click <> Some btn_calculate_los ->
los_block lib click st = next st.
Proof.
intro H. unfold los_block.
destruct (find_los_cols (column_names (data st))) as [[a|] [d|]]; try reflexivity.
destruct click as [[]|]; try reflexivity. congruence.
Qed.

Lemma age_groups_block_passes (click : option button) (st : run_state) :
click <> Some btn_create_age_groups ->
age_groups_block click st = next st.
Proof.
intro H. unfold age_groups_block.
destruct (get_col (data st) "age"); [|reflexivity].
destruct click as [[]|]; try reflexivity. congruence.
Qed.

(** A run without a pressed button, on a table the assessment accepts,
  reaches the last line and leaves the working copy of the uploaded
  table in the processed slot. *)
Lemma render_result (ss : SessionState) (df : DataFrame) :
healthcare_data ss = Some df ->
assessment_raises df = false ->
preprocessing_page lib None ss
= mkResult (mkSession (Some df) (Some df)) [] completed.
Proof.
intros H Hok. unfold preprocessing_page. rewrite H. unfold then_block.
rewrite assessment_block_passes by exact Hok.
rewrite duplicates_block_passes by discriminate.
cbn [convert_date_block outlier_block date_features_block].
rewrite los_block_passes by discriminate.
rewrite age_groups_block_passes by discriminate.
unfold store_processed. simpl. now rewrite H.
Qed.

(** *** The log transform *)

Lemma all_positive_spec (v : list num) :
all_positive v = true <-> forall y, In y v -> num_lt (Fin 0) y.
Proof.
unfold all_positive. rewrite forallb_forall.
split; intros H y Hy; specialize (H y Hy); unfold num_gtb in *;
  now apply num_ltb_lt.
Qed.

(** On a table the assessment refuses, the run ends there, whatever the
  button: nothing is shown and nothing is stored. *)
Lemma crash_result (click : option button) (ss : SessionState) (df : DataFrame) :
healthcare_data ss = Some df ->
assessment_raises df = true ->
preprocessing_page lib click ss = mkResult ss [] crashed.
Proof.
intros H Hbad. unfold preprocessing_page. rewrite H. unfold then_block.
rewrite assessment_block_crashes by exact Hbad. reflexivity.
Qed.

(** On a table the assessment accepts, the run is that of the handlers. *)
Lemma page_on_accepted (click : option button) (ss : SessionState) (df : DataFrame) :
healthcare_data ss = Some df ->
assessment_raises df = false ->
preprocessing_page lib click ss
= match (duplicates_block click >>> convert_date_block lib click >>>
         outlier_block lib (numerical_cols_of df) click >>>
         date_features_block lib click >>> los_block lib click >>>
         age_groups_block click) (mkRun df ss []) with
  | next st =>
      mkResult (session (store_processed st)) (shown (store_processed st)) completed
  | halt e st => mkResult (session st) (shown st) e
  end.
Proof.
intros H Hok. unfold preprocessing_page. rewrite H. cbv zeta.
unfold then_block. rewrite assessment_block_passes by exact Hok.
reflexivity.
Qed.

Lemma log_transform_run (df : DataFrame) (col : string) (v : list num) :
assessment_raises df = false ->
get_col df col = Some (Numeric v) ->
(0 < outlier_count v)%nat ->
preprocessing_page lib (Some (btn_apply_outlier_treatment col transform_with_log))
                   (mkSession (Some df) (Some df))
= if all_positive v
  then mkResult (mkSession (Some df)
                           (Some (set_col df col (Numeric (log1p_series lib v)))))
                [success_log col] rerun
  else mkResult (mkSession (Some df) (Some df)) [error_log_non_positive] rerun.
Proof.
intros Hok Hcol Hcount. unfold preprocessing_page. cbn [healthcare_data].
unfold then_block.
rewrite assessment_block_passes by exact Hok.
rewrite duplicates_block_passes by discriminate.
cbn [convert_date_block outlier_block data].
rewrite Hcol, (mem_numerical_cols df col v Hcol).
apply Nat.ltb_lt in Hcount. rewrite Hcount. cbn [andb].
unfold apply_treatment.
destruct (all_positive v); reflexivity.
Qed.

(** C3: with the log transform on offer for a numeric column (the page
  gets as far as the outlier tab, and the column has outliers),
  pressing it on a column that holds a value <= 0 shows the error and
  leaves the store, and the column in it, as the last completed run left
  them; the transform is applied, or the store changed, only if every
  value of the column is strictly positive. *)
Theorem log_transform_rejected_on_non_positive
      (ss : SessionState) (df : DataFrame) (col : string) (v : list num) :
healthcare_data ss = Some df ->
assessment_raises df = false ->
get_col df col = Some (Numeric v) ->
(0 < outlier_count v)%nat ->
let before := final (preprocessing_page lib None ss) in
let r := preprocessing_page
           lib (Some (btn_apply_outlier_treatment col transform_with_log)) before in
((exists x : Q, In (Fin x) v /\ x <= 0) ->
 messages r = [error_log_non_positive] /\
 final r = before /\
 exists t : DataFrame,
   healthcare_data_processed (final r) = Some t /\
   get_col t col = Some (Numeric v)) /\
(In (success_log col) (messages r) \/ final r <> before ->
 forall y : num, In y v -> num_lt (Fin 0) y).
Proof.
intros Hdata Hok Hcol Hcount before r. subst before r.
rewrite (render_result ss df Hdata Hok). cbn [final].
rewrite (log_transform_run df col v Hok Hcol Hcount).
destruct (all_positive v) eqn:Epos.
- split.
  + intros (x & Hin & Hx). exfalso.
    apply all_positive_spec with (y := Fin x) in Epos; [|exact Hin].
    simpl in Epos. lra.
  + intros _. now apply all_positive_spec.
- split.
  + intros _. cbn. repeat split. exists df. now split.
  + cbn [messages final]. intros [[H|[]]|H]; [discriminate | now contradiction H].
Qed.


(** *** Handlers with an [except] branch *)

Lemma extract_field_succeeds (d : DataFrame) (col suffix : string)
    (f : Z -> Z) (v : list (option Z)) :
get_col d col = Some (Datetime v) ->
suffix <> EmptyString ->
exists d' : DataFrame,
  extract_field col suffix f d = (d', Some tt) /\
  get_col d' col = Some (Datetime v).
Proof.
intros Hcol Hsuf. unfold extract_field, bind, column, lift, assign.
rewrite Hcol. cbn. eexists. split; [reflexivity|].
rewrite get_set_col_other; [exact Hcol | now apply append_suffix_neq].
Qed.

Lemma extract_fields_succeeds (d : DataFrame) (col : string) (v : list (option Z)) :
get_col d col = Some (Datetime v) ->
exists d' : DataFrame, extract_fields lib col d = (d', Some tt).
Proof.
intro H0. unfold extract_fields.
destruct (extract_field_succeeds d col "_year" (dt_year lib) v H0)
  as (d1 & E1 & H1); [discriminate|].
destruct (extract_field_succeeds d1 col "_month" (dt_month lib) v H1)
  as (d2 & E2 & H2); [discriminate|].
destruct (extract_field_succeeds d2 col "_day" (dt_day lib) v H2)
  as (d3 & E3 & H3); [discriminate|].
destruct (extract_field_succeeds d3 col "_weekday" (dt_dayofweek lib) v H3)
  as (d4 & E4 & H4); [discriminate|].
destruct (extract_field_succeeds d4 col "_quarter" (dt_quarter lib) v H4)
  as (d5 & E5 & H5); [discriminate|].
exists d5. unfold bind. now rewrite E1, E2, E3, E4, E5.
Qed.

(** The body of the date-feature handler raises before it assigns
  anything. *)
Lemma date_features_body_raises (d : DataFrame) (col : string) :
snd (date_features_body lib col d) = None ->
fst (date_features_body lib col d) = d.
Proof.
unfold date_features_body, bind at 1 2 3 4, column.
destruct (get_col d col) as [s|] eqn:Hcol; [|reflexivity].
destruct s as [v|v|v|v]; cbn [is_datetime].
- unfold bind, lift. destruct (to_datetime lib (Numeric v)) as [w|]; [|reflexivity].
  cbn [assign].
  destruct (extract_fields_succeeds (set_col d col (Datetime w)) col w
                                    (get_set_col_same d col _)) as (d' & ->).
  discriminate.
- unfold bind, lift. destruct (to_datetime lib (Object v)) as [w|]; [|reflexivity].
  cbn [assign].
  destruct (extract_fields_succeeds (set_col d col (Datetime w)) col w
                                    (get_set_col_same d col _)) as (d' & ->).
  discriminate.
- unfold ret.
  destruct (extract_fields_succeeds d col v Hcol) as (d' & ->).
  discriminate.
- reflexivity.
Qed.

Lemma convert_date_body_raises (d : DataFrame) (col : string) :
snd (convert_date_body lib col d) = None ->
fst (convert_date_body lib col d) = d.
Proof.
unfold convert_date_body, bind, column, lift.
destruct (get_col d col) as [s|]; [|reflexivity].
destruct (to_datetime lib s); [discriminate | reflexivity].
Qed.

(** A failed date conversion shows its error and leaves the store as the
  last completed run left it. *)
Lemma convert_date_failure_keeps_store
    (ss : SessionState) (df : DataFrame) (col : string) :
healthcare_data ss = Some df ->
assessment_raises df = false ->
let before := final (preprocessing_page lib None ss) in
let r := preprocessing_page lib (Some (btn_convert_date col)) before in
In (error_converting col) (messages r) ->
messages r = [error_converting col] /\ how r = completed /\ final r = before.
Proof.
intros Hdata Hok before r. subst before r.
rewrite (render_result ss df Hdata Hok). cbn [final].
unfold preprocessing_page. cbn [healthcare_data]. unfold then_block.
rewrite assessment_block_passes by exact Hok.
rewrite duplicates_block_passes by discriminate.
unfold convert_date_block. cbn [data].
assert (Hrest : forall st0, data st0 = df ->
          match
            match los_block lib (Some (btn_convert_date col)) st0 with
            | next st' => age_groups_block (Some (btn_convert_date col)) st'
            | halt e st' => halt e st'
            end
          with
          | next st =>
              mkResult (session (store_processed st)) (shown (store_processed st))
                       completed
          | halt e st => mkResult (session st) (shown st) e
          end
          = mkResult (mkSession (healthcare_data (session st0)) (Some df))
                     (shown st0) completed).
{ intros st0 Hst0. rewrite los_block_passes by discriminate.
  rewrite age_groups_block_passes by discriminate.
  unfold store_processed. cbn. now rewrite Hst0. }
destruct (get_col df col) as [s|] eqn:Hcol.
2:{ cbn [outlier_block date_features_block]. rewrite Hrest by reflexivity.
    cbn. intros []. }
destruct (mem col (date_columns_of df) && negb (is_datetime s)).
2:{ cbn [outlier_block date_features_block]. rewrite Hrest by reflexivity.
    cbn. intros []. }
unfold try_except. cbn [data].
pose proof (convert_date_body_raises df col) as Hraise.
destruct (convert_date_body lib col df) as [d [u|]].
- cbn. intros [H|[]]. discriminate.
- cbn [fst snd] in Hraise. rewrite (Hraise eq_refl).
  cbn [outlier_block date_features_block]. rewrite Hrest by reflexivity.
  cbn. intros _. repeat split.
Qed.

(** So does a failed extraction of date features. *)
Lemma date_features_failure_keeps_store
    (ss : SessionState) (df : DataFrame) (col : string) :
healthcare_data ss = Some df ->
assessment_raises df = false ->
let before := final (preprocessing_page lib None ss) in
let r := preprocessing_page lib (Some (btn_extract_date_features col)) before in
In error_date_features (messages r) ->
messages r = [error_date_features] /\ how r = completed /\ final r = before.
Proof.
intros Hdata Hok before r. subst before r.
rewrite (render_result ss df Hdata Hok). cbn [final].
unfold preprocessing_page. cbn [healthcare_data]. unfold then_block.
rewrite assessment_block_passes by exact Hok.
rewrite duplicates_block_passes by discriminate.
cbn [convert_date_block outlier_block].
unfold date_features_block. cbn [data].
destruct (mem col (date_cols_of df) && negb (String.eqb col "")).
2:{ rewrite los_block_passes by discriminate.
    rewrite age_groups_block_passes by discriminate. cbn. intros []. }
unfold try_except. cbn [data].
pose proof (date_features_body_raises df col) as Hraise.
destruct (date_features_body lib col df) as [d [u|]].
- cbn. intros [H|[]]. discriminate.
- cbn [fst snd] in Hraise. rewrite (Hraise eq_refl).
  rewrite los_block_passes by discriminate.
  rewrite age_groups_block_passes by discriminate.
  cbn. intros _. repeat split.
Qed.

(** The length-of-stay handler converts the admission column before the
  discharge column: when the second conversion raises, the working copy
  keeps the first, and the last line of the page stores it. *)
Lemma length_of_stay_failure_result
    (df : DataFrame) (admission_col discharge_col : string)
    (a d : Series) (va : list (option Z)) :
assessment_raises df = false ->
find_los_cols (column_names df) = (Some admission_col, Some discharge_col) ->
get_col df admission_col = Some a ->
to_datetime lib a = Some va ->
get_col (set_col df admission_col (Datetime va)) discharge_col = Some d ->
to_datetime lib d = None ->
preprocessing_page lib (Some btn_calculate_los) (mkSession (Some df) (Some df))
= mkResult (mkSession (Some df) (Some (set_col df admission_col (Datetime va))))
           [error_length_of_stay] completed.
Proof.
intros Hok Hfind Ha Hva Hd Hvd.
unfold preprocessing_page. cbn [healthcare_data]. unfold then_block.
rewrite assessment_block_passes by exact Hok.
rewrite duplicates_block_passes by discriminate.
cbn [convert_date_block outlier_block date_features_block].
unfold los_block. cbn [data]. rewrite Hfind.
unfold try_except, length_of_stay_body, bind, column, lift, assign. cbn [data].
rewrite Ha, Hva, Hd, Hvd.
rewrite age_groups_block_passes by discriminate.
reflexivity.
Qed.
End PageRuns.

Lemma log_transform_rejected_on_non_positive_witness :
  healthcare_data (mkSession (Some visits) None) = Some visits /\
  assessment_raises visits = false /\
  get_col visits "visits" = Some (Numeric [Fin 0; Fin 1; Fin 2; Fin 3; Fin 100]) /\
  (0 < outlier_count [Fin 0; Fin 1; Fin 2; Fin 3; Fin 100])%nat /\
  let before := final (preprocessing_page sample_lib None (mkSession (Some visits) None)) in
  let r := preprocessing_page
             sample_lib
             (Some (btn_apply_outlier_treatment "visits" transform_with_log)) before in
  ((exists x : Q, In (Fin x) [Fin 0; Fin 1; Fin 2; Fin 3; Fin 100] /\ x <= 0) ->
   messages r = [error_log_non_positive] /\
   final r = before /\
   exists t : DataFrame,
     healthcare_data_processed (final r) = Some t /\
     get_col t "visits" = Some (Numeric [Fin 0; Fin 1; Fin 2; Fin 3; Fin 100])) /\
  (In (success_log "visits") (messages r) \/ final r <> before ->
   forall y : num, In y [Fin 0; Fin 1; Fin 2; Fin 3; Fin 100] -> num_lt (Fin 0) y).
Proof.
  assert (H : (0 < outlier_count [Fin 0; Fin 1; Fin 2; Fin 3; Fin 100])%nat)
    by (vm_compute; lia).
  split; [reflexivity|]. split; [reflexivity|]. split; [reflexivity|].
  split; [exact H|].
  exact (log_transform_rejected_on_non_positive
           sample_lib (mkSession (Some visits) None) visits "visits"
           [Fin 0; Fin 1; Fin 2; Fin 3; Fin 100] eq_refl eq_refl eq_refl H).
Defined.

(** C9, at a table as an upload stores it, with the admission dates as
    numbers and a discharge column of [True]/[False]: the page gets as
    far as the button, the failed length-of-stay action shows its error,
    and the processed table in the store is no longer the one the last
    completed run left there: its admission column has been converted. *)
Theorem length_of_stay_failure_changes_store :
  let before :=
    final (preprocessing_page sample_lib None (mkSession (Some admissions) None)) in
  let r := preprocessing_page sample_lib (Some btn_calculate_los) before in
  assessment_raises admissions = false /\
  messages r = [error_length_of_stay] /\
  how r = completed /\
  healthcare_data_processed before = Some admissions /\
  healthcare_data_processed (final r)
  = Some (set_col admissions "date_of_admission"
                  (Datetime [Some 1704412800000000000%Z; Some 1707523200000000000%Z])) /\
  final r <> before.
Proof.
  cbv zeta.
  split; [vm_compute; reflexivity|].
  split; [vm_compute; reflexivity|].
  split; [vm_compute; reflexivity|].
  split; [vm_compute; reflexivity|].
  split; [vm_compute; reflexivity|].
  intro H. vm_compute in H. discriminate H.
Qed.

(** ** Risk rates *)

Lemma present_In (keys : list (option string)) (g : string) :
  In g (present keys) <-> In (Some g) keys.
Proof.
  induction keys as [|[k|] keys IH]; simpl.
  - tauto.
  - rewrite IH. split; intros [H|H]; auto; left; congruence.
  - rewrite IH. split; [tauto | intros [H|H]; [discriminate | exact H]].
Qed.

Lemma group_keys_In (keys : list (option string)) (g : string) :
  In g (group_keys keys) <-> In (Some g) keys.
Proof.
  unfold group_keys. rewrite <- present_In.
  split; intro H.
  - apply (nodup_In string_dec).
    eapply Permutation_in; [apply Permutation_sym, sort_perm | exact H].
  - eapply Permutation_in; [apply sort_perm|].
    now apply nodup_In.
Qed.

Lemma group_keys_NoDup (keys : list (option string)) : NoDup (group_keys keys).
Proof.
  unfold group_keys.
  eapply Permutation_NoDup; [apply sort_perm | apply NoDup_nodup].
Qed.

Lemma has_key_true (g : string) (k : option string) :
  has_key g k = true <-> k = Some g.
Proof.
  destruct k as [k|]; simpl.
  - rewrite String.eqb_eq. split; congruence.
  - split; discriminate.
Qed.

Lemma mask_sum_filter {A : Type} (p : A -> bool) (l : list A) :
  mask_sum (map p l) = List.length (filter p l).
Proof.
  unfold mask_sum. induction l as [|x l IH]; simpl; [reflexivity|].
  destruct (p x); simpl; now rewrite IH.
Qed.

Lemma group_of_abnormal (g : string) (keys outcomes : list (option string)) :
  mask_sum (map is_abnormal (group_of g keys outcomes))
  = group_abnormal g keys outcomes.
Proof.
  unfold group_of, group_abnormal. rewrite map_map, mask_sum_filter.
  induction (combine keys outcomes) as [|[k o] l IH]; simpl; [reflexivity|].
  destruct (has_key g k); simpl; [|exact IH].
  destruct (is_abnormal o); simpl; now rewrite IH.
Qed.

Lemma group_of_length (g : string) (keys outcomes : list (option string)) :
  List.length (group_of g keys outcomes) = group_size g keys outcomes.
Proof. unfold group_of, group_size. apply length_map. Qed.

Lemma group_size_pos (g : string) (keys outcomes : list (option string)) :
  List.length keys = List.length outcomes ->
  In (Some g) keys -> (0 < group_size g keys outcomes)%nat.
Proof.
  intros Hlen Hin. unfold group_size.
  apply In_nth_error in Hin. destruct Hin as (i & Hi).
  assert (Ho : exists o, nth_error outcomes i = Some o).
  { destruct (nth_error outcomes i) as [o|] eqn:E; [now exists o|].
    apply nth_error_None in E.
    assert (nth_error keys i <> None) by congruence.
    apply nth_error_Some in H. lia. }
  destruct Ho as (o & Ho).
  assert (Hin : In (Some g, o) (filter (fun ko => has_key g (fst ko))
                                       (combine keys outcomes))).
  { apply filter_In. split.
    - clear Hlen. revert i outcomes Hi Ho.
      induction keys as [|k keys IH]; intros [|i] [|o' outcomes] Hi Ho;
        simpl in *; try discriminate.
      + left. congruence.
      + right. now apply (IH i).
    - simpl. now rewrite String.eqb_refl. }
  destruct (filter _ _); [contradiction | simpl; lia].
Qed.

Lemma mean_bool_value (l : list bool) :
  (0 < List.length l)%nat ->
  mean_bool l = Fin (Qnat (mask_sum l) / Qnat (List.length l)).
Proof. destruct l; simpl; [lia | reflexivity]. Qed.

(** The rate [apply] computes for a group, from its counts. *)
Lemma abnormal_rate_of_group (g : string) (keys outcomes : list (option string)) :
  (0 < group_size g keys outcomes)%nat ->
  abnormal_rate (group_of g keys outcomes) = group_rate g keys outcomes.
Proof.
  intro Hpos. unfold abnormal_rate, group_rate.
  rewrite mean_bool_value.
  - rewrite group_of_abnormal, length_map, group_of_length. reflexivity.
  - rewrite length_map, group_of_length. exact Hpos.
Qed.

Lemma risk_analysis_perm (keys outcomes : list (option string)) :
  Permutation (groupby_apply abnormal_rate keys outcomes)
              (risk_analysis keys outcomes).
Proof. apply sort_perm. Qed.

Lemma groupby_apply_keys (f : list (option string) -> num)
      (keys outcomes : list (option string)) :
  map fst (groupby_apply f keys outcomes) = group_keys keys.
Proof. unfold groupby_apply. rewrite map_map. apply map_id. Qed.

Lemma risk_analysis_In (keys outcomes : list (option string)) (g : string) (r : num) :
  List.length keys = List.length outcomes ->
  In (g, r) (risk_analysis keys outcomes) <->
  In (Some g) keys /\ r = group_rate g keys outcomes.
Proof.
  intro Hlen.
  assert (Hperm := risk_analysis_perm keys outcomes).
  split.
  - intro Hin. apply (Permutation_in _ (Permutation_sym Hperm)) in Hin.
    unfold groupby_apply in Hin. apply in_map_iff in Hin.
    destruct Hin as (g' & Heq & Hg). injection Heq as -> <-.
    apply group_keys_In in Hg. split; [exact Hg|].
    apply abnormal_rate_of_group, group_size_pos; assumption.
  - intros [Hg ->]. apply (Permutation_in _ Hperm).
    unfold groupby_apply. apply in_map_iff. exists g. split.
    + f_equal. apply abnormal_rate_of_group, group_size_pos; assumption.
    + now apply group_keys_In.
Qed.

Lemma desc_leb_total (a b : string * num) :
  desc_leb a b = true \/ desc_leb b a = true.
Proof.
  unfold desc_leb. destruct (snd a) as [|x], (snd b) as [|y]; auto.
  destruct (Qle_bool_total x y); auto.
Qed.

(** C2: the aggregation has one entry for each group of the grouping
    column; the entry of a group is 100 times the share of the rows of the
    group whose outcome is "Abnormal"; the entries come in descending
    order of rate. *)
Theorem risk_analysis_spec (keys outcomes : list (option string)) :
  List.length keys = List.length outcomes ->
  (forall (g : string) (r : num),
      In (g, r) (risk_analysis keys outcomes) <->
      In (Some g) keys /\
      r = Fin (Qnat (group_abnormal g keys outcomes)
               / Qnat (group_size g keys outcomes) * 100)) /\
  NoDup (map fst (risk_analysis keys outcomes)) /\
  StronglySorted (fun a b => num_le (snd b) (snd a)) (risk_analysis keys outcomes).
Proof.
  intro Hlen.
  split; [intros g r; now apply risk_analysis_In|].
  split.
  - eapply Permutation_NoDup.
    + apply Permutation_map, risk_analysis_perm.
    + rewrite groupby_apply_keys. apply group_keys_NoDup.
  - assert (Hfin : Forall (fun a => exists x, snd a = Fin x)
                          (risk_analysis keys outcomes)).
    { apply Forall_forall. intros [g r] Hin.
      apply risk_analysis_In in Hin; [|exact Hlen].
      destruct Hin as [_ ->]. eexists. reflexivity. }
    apply Sorted_StronglySorted.
    { intros [g1 r1] [g2 r2] [g3 r3]. simpl.
      destruct r1, r2, r3; simpl; try tauto. intros; lra. }
    pose proof (sort_sorted desc_leb desc_leb_total
                            (groupby_apply abnormal_rate keys outcomes)) as Hs.
    fold (sort_values_desc (groupby_apply abnormal_rate keys outcomes)) in Hs.
    fold (risk_analysis keys outcomes) in Hs.
    induction Hs as [|a l Hs IH Hhd]; constructor.
    + apply IH. now inversion Hfin.
    + destruct Hhd as [|b l' Hab]; constructor.
      inversion Hfin as [|? ? [x Hx] Hfin']; subst.
      inversion Hfin' as [|? ? [y Hy] _]; subst.
      unfold desc_leb in Hab. rewrite Hx, Hy in *. simpl.
      now apply Qle_bool_iff.
Qed.

Lemma risk_analysis_spec_witness :
  List.length conditions = List.length test_results /\
  ((forall (g : string) (r : num),
       In (g, r) (risk_analysis conditions test_results) <->
       In (Some g) conditions /\
       r = Fin (Qnat (group_abnormal g conditions test_results)
                / Qnat (group_size g conditions test_results) * 100)) /\
   NoDup (map fst (risk_analysis conditions test_results)) /\
   StronglySorted (fun a b => num_le (snd b) (snd a))
                  (risk_analysis conditions test_results)).
Proof.
  split; [reflexivity|].
  exact (risk_analysis_spec conditions test_results eq_refl).
Defined.

(** ** The weighted sum of the group rates *)

Lemma Qnat_plus (a b : nat) : Qnat (a + b) == Qnat a + Qnat b.
Proof. unfold Qnat. now rewrite Nat2Z.inj_add, inject_Z_plus. Qed.

Lemma Qnat_pos (n : nat) : (0 < n)%nat -> 0 < Qnat n.
Proof.
  intro H. unfold Qnat. change 0 with (inject_Z 0). rewrite <- Zlt_Qlt. lia.
Qed.

Lemma list_sum_map_zero {A : Type} (l : list A) :
  list_sum (map (fun _ => 0%nat) l) = 0%nat.
Proof. induction l; simpl; auto. Qed.

Lemma list_sum_map_add {A : Type} (f h : A -> nat) (l : list A) :
  list_sum (map (fun x => (f x + h x)%nat) l)
  = (list_sum (map f l) + list_sum (map h l))%nat.
Proof. induction l as [|x l IH]; simpl; [reflexivity | rewrite IH; lia]. Qed.

Lemma count_own_key (ks : list string) (g0 : string) :
  NoDup ks -> In g0 ks ->
  list_sum (map (fun g => if has_key g (Some g0) then 1%nat else 0%nat) ks) = 1%nat.
Proof.
  induction 1 as [|g ks Hnotin Hnd IH]; intros Hin; simpl in *; [contradiction|].
  destruct (String.eqb g0 g) eqn:E.
  - apply String.eqb_eq in E. subst g0.
    rewrite (map_ext_in _ (fun _ => 0%nat)), list_sum_map_zero; [reflexivity|].
    intros g' Hg'. destruct (String.eqb g g') eqn:E'; [|reflexivity].
    apply String.eqb_eq in E'. subst g'. contradiction.
  - destruct Hin as [->|Hin]; [rewrite String.eqb_refl in E; discriminate|].
    now rewrite IH.
Qed.








(** * Further properties of the pages *)

(** ** What a run of the preprocessing page does to the store *)

Section PageInvariants.
Variable lib : externals.

Lemma try_except_keeps_uploaded (body : attempt unit) (ok err : message)
      (st : run_state) :
  healthcare_data (session (flow_state (try_except body ok err st)))
  = healthcare_data (session st).
Proof.
  unfold try_except. destruct (body (data st)) as [d [u|]]; reflexivity.
Qed.

Lemma try_except_exit (body : attempt unit) (ok err : message) (st : run_state) :
  flow_exit (try_except body ok err st) = None \/
  flow_exit (try_except body ok err st) = Some rerun.
Proof.
  unfold try_except. destruct (body (data st)) as [d [u|]]; simpl; auto.
Qed.

Lemma duplicates_block_keeps_uploaded (click : option button) (st : run_state) :
  healthcare_data (session (flow_state (duplicates_block click st)))
  = healthcare_data (session st).
Proof.
  unfold duplicates_block.
  destruct (0 <? mask_sum (duplicated (data st)))%nat; [|reflexivity].
  destruct click as [[]|]; reflexivity.
Qed.

Lemma convert_date_block_keeps_uploaded (click : option button) (st : run_state) :
  healthcare_data (session (flow_state (convert_date_block lib click st)))
  = healthcare_data (session st).
Proof.
  unfold convert_date_block.
  destruct click as [[| col | | | |]|]; try reflexivity.
  destruct (get_col (data st) col) as [s|]; [|reflexivity].
  destruct (mem col (date_columns_of (data st)) && negb (is_datetime s));
    [apply try_except_keeps_uploaded | reflexivity].
Qed.

Lemma outlier_block_keeps_uploaded (cols : list string) (click : option button)
      (st : run_state) :
  healthcare_data (session (flow_state (outlier_block lib cols click st)))
  = healthcare_data (session st).
Proof.
  unfold outlier_block.
  destruct click as [[| | col method | | |]|]; try reflexivity.
  destruct (get_col (data st) col) as [[v|v|v|v]|]; try reflexivity.
  destruct (mem col cols && (0 <? outlier_count v)%nat); [|reflexivity].
  unfold apply_treatment.
  destruct method; try reflexivity.
  destruct (all_positive v); reflexivity.
Qed.

Lemma date_features_block_keeps_uploaded (click : option button) (st : run_state) :
  healthcare_data (session (flow_state (date_features_block lib click st)))
  = healthcare_data (session st).
Proof.
  unfold date_features_block.
  destruct click as [[| | | col | |]|]; try reflexivity.
  destruct (mem col (date_cols_of (data st)) && negb (String.eqb col ""));
    [apply try_except_keeps_uploaded | reflexivity].
Qed.

Lemma los_block_keeps_uploaded (click : option button) (st : run_state) :
  healthcare_data (session (flow_state (los_block lib click st)))
  = healthcare_data (session st).
Proof.
  unfold los_block.
  destruct (find_los_cols (column_names (data st))) as [[a|] [d|]];
    try reflexivity.
  destruct click as [[]|]; try reflexivity.
  apply try_except_keeps_uploaded.
Qed.

Lemma age_groups_block_keeps_uploaded (click : option button) (st : run_state) :
  healthcare_data (session (flow_state (age_groups_block click st)))
  = healthcare_data (session st).
Proof.
  unfold age_groups_block.
  destruct (get_col (data st) "age") as [s|]; [|reflexivity].
  destruct click as [[]|]; try reflexivity.
  destruct s as [v|v|v|v]; try reflexivity;
    cbn [series_len]; destruct (List.length v =? 0)%nat; reflexivity.
Qed.

Lemma then_block_keeps_uploaded (b1 b2 : block) :
  (forall st, healthcare_data (session (flow_state (b1 st)))
              = healthcare_data (session st)) ->
  (forall st, healthcare_data (session (flow_state (b2 st)))
              = healthcare_data (session st)) ->
  forall st, healthcare_data (session (flow_state ((b1 >>> b2) st)))
             = healthcare_data (session st).
Proof.
  intros H1 H2 st. unfold then_block.
  specialize (H1 st). destruct (b1 st) as [st'|e st']; simpl in *.
  - now rewrite H2.
  - exact H1.
Qed.

(** The blocks of the page, one after the other. *)
Lemma script_keeps_uploaded (cols : list string) (click : option button)
      (st : run_state) :
  healthcare_data
    (session (flow_state
                ((duplicates_block click >>> convert_date_block lib click >>>
                  outlier_block lib cols click >>>
                  date_features_block lib click >>> los_block lib click >>>
                  age_groups_block click) st)))
  = healthcare_data (session st).
Proof.
  revert st.
  repeat apply then_block_keeps_uploaded; intro st.
  - apply duplicates_block_keeps_uploaded.
  - apply convert_date_block_keeps_uploaded.
  - apply outlier_block_keeps_uploaded.
  - apply date_features_block_keeps_uploaded.
  - apply los_block_keeps_uploaded.
  - apply age_groups_block_keeps_uploaded.
Qed.

Lemma page_keeps_uploaded (click : option button) (ss : SessionState) :
  healthcare_data (final (preprocessing_page lib click ss)) = healthcare_data ss.
Proof.
  destruct (healthcare_data ss) as [df|] eqn:Hdata;
    [|unfold preprocessing_page; rewrite Hdata; exact Hdata].
  destruct (assessment_raises df) eqn:Hok;
    [now rewrite (crash_result lib click ss df Hdata Hok)|].
  rewrite (page_on_accepted lib click ss df Hdata Hok).
  pose proof (script_keeps_uploaded (numerical_cols_of df) click (mkRun df ss []))
    as H.
  destruct ((duplicates_block click >>> convert_date_block lib click >>>
             outlier_block lib (numerical_cols_of df) click >>>
             date_features_block lib click >>> los_block lib click >>>
             age_groups_block click) (mkRun df ss [])) as [st|e st];
    simpl in *; rewrite H; exact Hdata.
Qed.

(** X1: whichever of the six modelled buttons is pressed, and whether
    its handler succeeds, fails or is not on screen, a run of the
    preprocessing page leaves the uploaded table in the store exactly as
    it was: the handlers work on the copy of line 30. *)
Theorem uploaded_table_untouched (click : option button) (ss : SessionState) :
  healthcare_data (final (preprocessing_page lib click ss)) = healthcare_data ss.
Proof. apply page_keeps_uploaded. Qed.

(** X2: on an uploaded table the assessment accepts, the run that
    follows an action (the rerun the handlers ask for, or any later run
    of the page) starts again from the uploaded table and stores that as
    the processed table: what the action had stored is overwritten. *)
Theorem next_run_overwrites_processed
        (click : option button) (ss : SessionState) (df : DataFrame) :
  healthcare_data ss = Some df ->
  assessment_raises df = false ->
  preprocessing_page lib None (final (preprocessing_page lib click ss))
  = mkResult (mkSession (Some df) (Some df)) [] completed.
Proof.
  intros H Hok. apply render_result; [|exact Hok]. now rewrite page_keeps_uploaded.
Qed.
End PageInvariants.

Lemma next_run_overwrites_processed_witness :
  healthcare_data (mkSession (Some visits) None) = Some visits /\
  assessment_raises visits = false /\
  healthcare_data_processed
    (final (preprocessing_page
              sample_lib
              (Some (btn_apply_outlier_treatment "visits" cap_winsorization))
              (mkSession (Some visits) None)))
  <> Some visits /\
  preprocessing_page
    sample_lib None
    (final (preprocessing_page
              sample_lib
              (Some (btn_apply_outlier_treatment "visits" cap_winsorization))
              (mkSession (Some visits) None)))
  = mkResult (mkSession (Some visits) (Some visits)) [] completed.
Proof.
  split; [reflexivity|]. split; [reflexivity|]. split.
  - intro H. vm_compute in H. discriminate H.
  - exact (next_run_overwrites_processed
             sample_lib
             (Some (btn_apply_outlier_treatment "visits" cap_winsorization))
             (mkSession (Some visits) None) visits eq_refl eq_refl).
Defined.

(** ** How a run ends *)

Section PageOutcomes.
Variable lib : externals.

Lemma duplicates_block_exit (click : option button) (st : run_state) :
  flow_exit (duplicates_block click st) = None \/
  flow_exit (duplicates_block click st) = Some rerun.
Proof.
  unfold duplicates_block.
  destruct (0 <? mask_sum (duplicated (data st)))%nat; [|now left].
  destruct click as [[]|]; simpl; auto.
Qed.

Lemma convert_date_block_exit (click : option button) (st : run_state) :
  flow_exit (convert_date_block lib click st) = None \/
  flow_exit (convert_date_block lib click st) = Some rerun.
Proof.
  unfold convert_date_block.
  destruct click as [[| col | | | |]|]; simpl; auto.
  destruct (get_col (data st) col) as [s|]; simpl; auto.
  destruct (mem col (date_columns_of (data st)) && negb (is_datetime s));
    simpl; auto.
  apply try_except_exit.
Qed.

Lemma outlier_block_exit (cols : list string) (click : option button)
      (st : run_state) :
  flow_exit (outlier_block lib cols click st) = None \/
  flow_exit (outlier_block lib cols click st) = Some rerun.
Proof.
  unfold outlier_block.
  destruct click as [[| | col method | | |]|]; simpl; auto.
  destruct (get_col (data st) col) as [[v|v|v|v]|]; simpl; auto.
  destruct (mem col cols && (0 <? outlier_count v)%nat); simpl; auto.
Qed.

Lemma date_features_block_exit (click : option button) (st : run_state) :
  flow_exit (date_features_block lib click st) = None \/
  flow_exit (date_features_block lib click st) = Some rerun.
Proof.
  unfold date_features_block.
  destruct click as [[| | | col | |]|]; simpl; auto.
  destruct (mem col (date_cols_of (data st)) && negb (String.eqb col ""));
    simpl; auto.
  apply try_except_exit.
Qed.

Lemma los_block_exit (click : option button) (st : run_state) :
  flow_exit (los_block lib click st) = None \/
  flow_exit (los_block lib click st) = Some rerun.
Proof.
  unfold los_block.
  destruct (find_los_cols (column_names (data st))) as [[a|] [d|]];
    simpl; auto.
  destruct click as [[]|]; simpl; auto.
  apply try_except_exit.
Qed.

Lemma age_groups_block_exit (click : option button) (st : run_state) :
  flow_exit (age_groups_block click st) = None \/
  flow_exit (age_groups_block click st) = Some rerun \/
  (flow_exit (age_groups_block click st) = Some crashed /\
   click = Some btn_create_age_groups /\
   exists s, get_col (data st) "age" = Some s /\ is_numeric s = false).
Proof.
  unfold age_groups_block.
  destruct (get_col (data st) "age") as [s|] eqn:Hage; simpl; auto.
  destruct click as [[]|]; simpl; auto.
  destruct s as [v|v|v|v]; simpl; auto;
    destruct (List.length v =? 0)%nat; simpl; auto;
    right; right; repeat split; eexists; split; reflexivity.
Qed.

Lemma then_block_exits (P : outcome -> Prop) (b1 b2 : block) :
  (forall st e, flow_exit (b1 st) = Some e -> P e) ->
  (forall st e, flow_exit (b2 st) = Some e -> P e) ->
  forall st e, flow_exit ((b1 >>> b2) st) = Some e -> P e.
Proof.
  intros H1 H2 st e. unfold then_block.
  specialize (H1 st). destruct (b1 st) as [st'|e' st']; simpl in *.
  - apply H2.
  - apply H1.
Qed.

Lemma rerun_only (P : outcome -> Prop) (f : flow) :
  P rerun ->
  flow_exit f = None \/ flow_exit f = Some rerun ->
  forall e, flow_exit f = Some e -> P e.
Proof.
  intros HP [H|H] e He; rewrite H in He; [discriminate | now injection He as <-].
Qed.

Lemma script_exits (cols : list string) (click : option button)
      (st : run_state) (e : outcome) :
  flow_exit ((duplicates_block click >>> convert_date_block lib click >>>
              outlier_block lib cols click >>>
              date_features_block lib click >>> los_block lib click >>>
              age_groups_block click) st) = Some e ->
  e = rerun \/ (e = crashed /\ click = Some btn_create_age_groups).
Proof.
  revert st e.
  set (P := fun e => e = rerun \/ (e = crashed /\ click = Some btn_create_age_groups)).
  change (forall st e,
             flow_exit ((duplicates_block click >>> convert_date_block lib click >>>
                         outlier_block lib cols click >>>
                         date_features_block lib click >>> los_block lib click >>>
                         age_groups_block click) st) = Some e -> P e).
  assert (HP : P rerun) by now left.
  repeat apply (then_block_exits P); intros st e.
  - apply (rerun_only P); [exact HP | apply duplicates_block_exit].
  - apply (rerun_only P); [exact HP | apply convert_date_block_exit].
  - apply (rerun_only P); [exact HP | apply outlier_block_exit].
  - apply (rerun_only P); [exact HP | apply date_features_block_exit].
  - apply (rerun_only P); [exact HP | apply los_block_exit].
  - unfold P. destruct (age_groups_block_exit click st) as [H|[H|(H & Hc & _)]];
      rewrite H; intro He; try discriminate; injection He as <-; auto.
Qed.

(** X3: a run stops (by [st.stop()]) exactly when no table has been
    uploaded; on an uploaded table the assessment refuses (an object
    column to chart, two columns of one name, or no rows under a
    numerical column) it ends by the uncaught exception whatever the
    button, showing and storing nothing; the only other uncaught
    exception is that of 'Create Age Groups' (the other handlers catch
    what they raise); on a table the assessment accepts, a run with no
    button pressed reaches the last line. *)
Theorem run_outcomes (click : option button) (ss : SessionState) :
  (how (preprocessing_page lib click ss) = stopped <-> healthcare_data ss = None) /\
  (forall df : DataFrame,
      healthcare_data ss = Some df -> assessment_raises df = true ->
      preprocessing_page lib click ss = mkResult ss [] crashed) /\
  (how (preprocessing_page lib click ss) = crashed ->
   (exists df : DataFrame,
       healthcare_data ss = Some df /\ assessment_raises df = true) \/
   click = Some btn_create_age_groups) /\
  (click = None ->
   forall df : DataFrame,
     healthcare_data ss = Some df -> assessment_raises df = false ->
     how (preprocessing_page lib click ss) = completed).
Proof.
  assert (Hrun : forall df, healthcare_data ss = Some df ->
            assessment_raises df = false ->
            how (preprocessing_page lib click ss) = completed \/
            how (preprocessing_page lib click ss) = rerun \/
            (how (preprocessing_page lib click ss) = crashed /\
             click = Some btn_create_age_groups)).
  { intros df Hdata Hok. rewrite (page_on_accepted lib click ss df Hdata Hok).
    pose proof (script_exits (numerical_cols_of df) click (mkRun df ss [])) as Hexit.
    destruct ((duplicates_block click >>> convert_date_block lib click >>>
               outlier_block lib (numerical_cols_of df) click >>>
               date_features_block lib click >>> los_block lib click >>>
               age_groups_block click) (mkRun df ss [])) as [st|e st]; cbn.
    - now left.
    - destruct (Hexit e eq_refl) as [->|[-> Hc]]; auto. }
  split; [|split; [|split]].
  - destruct (healthcare_data ss) as [df|] eqn:Hdata.
    + destruct (assessment_raises df) eqn:Hok.
      * rewrite (crash_result lib click ss df Hdata Hok). split; discriminate.
      * destruct (Hrun df eq_refl Hok) as [H|[H|[H _]]]; rewrite H;
          split; discriminate.
    + unfold preprocessing_page. rewrite Hdata. cbn. tauto.
  - intros df Hdata Hbad. exact (crash_result lib click ss df Hdata Hbad).
  - destruct (healthcare_data ss) as [df|] eqn:Hdata.
    + destruct (assessment_raises df) eqn:Hok.
      * intros _. left. now exists df.
      * destruct (Hrun df eq_refl Hok) as [H|[H|[H Hc]]]; rewrite H;
          try discriminate. intros _. now right.
    + unfold preprocessing_page. rewrite Hdata. cbn. discriminate.
  - intros -> df Hdata Hok.
    now rewrite (render_result lib ss df Hdata Hok).
Qed.
End PageOutcomes.

(** ** Selecting rows of a table *)

Lemma select_map {A B : Type} (f : A -> B) (mask : list bool) (l : list A) :
  select mask (map f l) = map f (select mask l).
Proof.
  revert l. induction mask as [|b mask IH]; intros [|x l]; simpl; try reflexivity.
  destruct b; simpl; now rewrite IH.
Qed.

Lemma select_In {A : Type} (mask : list bool) (l : list A) (x : A) :
  In x (select mask l) -> In x l.
Proof.
  revert l. induction mask as [|b mask IH]; intros [|y l]; simpl; try tauto.
  destruct b; simpl; intros H; [destruct H as [H|H]|]; auto.
Qed.

Lemma select_length_mask {A B : Type} (mask : list bool) (l : list A) (l' : list B) :
  List.length mask = List.length l -> List.length mask = List.length l' ->
  List.length (select mask l) = List.length (select mask l').
Proof.
  revert l l'.
  induction mask as [|b mask IH]; intros [|x l] [|y l'] H1 H2;
    simpl in *; try discriminate; try reflexivity.
  injection H1 as H1. injection H2 as H2.
  destruct b; simpl; now rewrite (IH l l').
Qed.

(** The rows a mask keeps, by their positions. *)
Lemma select_by_position {A : Type} (d : A) (mask : list bool) (l : list A) :
  List.length mask = List.length l ->
  select mask l
  = map (fun j => nth j l d) (select mask (seq 0 (List.length l))).
Proof.
  revert l. induction mask as [|b mask IH]; intros [|x l] Hlen;
    simpl in *; try discriminate; [reflexivity|].
  injection Hlen as Hlen.
  destruct b; simpl; rewrite <- seq_shift, select_map, map_map; cbn [nth];
    now rewrite <- (IH l Hlen).
Qed.

Lemma map_nth_positions {A : Type} (d : A) (l : list A) :
  map (fun i => nth i l d) (seq 0 (List.length l)) = l.
Proof.
  induction l as [|x l IH]; simpl; [reflexivity|].
  rewrite <- seq_shift, map_map. cbn [nth]. now rewrite IH.
Qed.

Lemma well_formed_column (df : DataFrame) (c : string) (s : Series) :
  well_formed df = true -> In (c, s) df -> series_len s = len df.
Proof.
  unfold well_formed. rewrite forallb_forall. intros H Hin.
  apply Nat.eqb_eq. exact (H (c, s) Hin).
Qed.

Lemma nth_select {A : Type} (d : A) (mask : list bool) (l : list A) (i : nat) :
  List.length mask = List.length l ->
  (i < List.length (select mask (seq 0 (List.length mask))))%nat ->
  nth i (select mask l) d
  = nth (nth i (select mask (seq 0 (List.length mask))) 0%nat) l d.
Proof.
  intros Hlen Hi.
  rewrite (select_by_position d mask l Hlen), <- Hlen.
  set (idx := select mask (seq 0 (List.length mask))) in *.
  rewrite (nth_indep (map (fun j => nth j l d) idx) d (nth 0 l d))
    by (now rewrite length_map).
  apply (map_nth (fun j => nth j l d) idx 0%nat i).
Qed.

Lemma cell_at_select (mask : list bool) (s : Series) (i : nat) :
  List.length mask = series_len s ->
  (i < List.length (select mask (seq 0 (List.length mask))))%nat ->
  cell_at (series_select mask s) i
  = cell_at s (nth i (select mask (seq 0 (List.length mask))) 0%nat).
Proof.
  intros Hlen Hi.
  destruct s as [v|v|v|v]; simpl in *; f_equal; now apply nth_select.
Qed.

Lemma loc_rows_len (mask : list bool) (df : DataFrame) :
  df <> [] -> List.length mask = len df ->
  len (loc_rows mask df)
  = List.length (select mask (seq 0 (List.length mask))).
Proof.
  intros Hne Hlen. destruct df as [|[c s] df]; [congruence|].
  simpl in *.
  destruct s as [v|v|v|v]; simpl in *;
    apply select_length_mask; try assumption; now rewrite length_seq.
Qed.

(** On a table whose columns have one length, selecting the rows of the
    table is selecting in the list of its rows. *)
Lemma rows_loc_rows (mask : list bool) (df : DataFrame) :
  well_formed df = true -> List.length mask = len df ->
  rows (loc_rows mask df) = select mask (rows df).
Proof.
  intros Hwf Hlen.
  destruct df as [|cs0 df0] eqn:Edf.
  { unfold rows. simpl. now destruct mask. }
  rewrite <- Edf in *.
  assert (Hne : df <> []) by (rewrite Edf; discriminate).
  clear Edf cs0 df0.
  unfold rows at 2. rewrite select_map, <- Hlen.
  unfold rows. rewrite (loc_rows_len mask df Hne Hlen).
  set (idx := select mask (seq 0 (List.length mask))).
  rewrite <- (map_nth_positions 0%nat idx) at 2. rewrite map_map.
  apply map_ext_in. intros i Hi. apply in_seq in Hi.
  unfold row, loc_rows. rewrite map_map.
  apply map_ext_in. intros [c s] Hin. cbn [snd].
  apply cell_at_select; [|subst idx; lia].
  rewrite Hlen. symmetry. now apply (well_formed_column df c s).
Qed.

Lemma existsb_incl {A : Type} (p : A -> bool) (l l' : list A) :
  (forall x, In x l -> In x l') -> existsb p l = true -> existsb p l' = true.
Proof.
  intros Hincl H. apply existsb_exists in H. destruct H as (x & Hin & Hp).
  apply existsb_exists. exists x. auto.
Qed.

Lemma duplicated_from_kept (rs seen seen' : list (list cell)) :
  (forall r, In r seen' -> In r seen) ->
  mask_sum (duplicated_from
              seen' (select (map negb (duplicated_from seen rs)) rs)) = 0%nat.
Proof.
  revert seen seen'. induction rs as [|r rs IH]; intros seen seen' Hincl.
  - reflexivity.
  - cbn [duplicated_from map select].
    destruct (existsb (row_same r) seen) eqn:E; cbn [negb].
    + apply IH. intros r' Hr'. right. now apply Hincl.
    + cbn [duplicated_from].
      destruct (existsb (row_same r) seen') eqn:E'.
      * rewrite (existsb_incl _ seen' seen Hincl E') in E. discriminate.
      * unfold mask_sum in *. cbn [filter]. apply IH.
        intros r' [<-|Hr']; [now left | right; now apply Hincl].
Qed.

(** X4: on a table whose columns have one length, the table left by
    removing the duplicates holds no duplicate row: the duplicate count of
    the result is zero. *)
Theorem drop_duplicates_leaves_none (df : DataFrame) :
  well_formed df = true ->
  mask_sum (duplicated (drop_duplicates df)) = 0%nat.
Proof.
  intro Hwf. unfold duplicated at 1, drop_duplicates.
  rewrite rows_loc_rows;
    [|exact Hwf | now rewrite length_map, duplicated_length].
  unfold duplicated. apply duplicated_from_kept. auto.
Qed.

Lemma drop_duplicates_leaves_none_witness :
  well_formed patients = true /\
  mask_sum (duplicated patients) = 2%nat /\
  mask_sum (duplicated (drop_duplicates patients)) = 0%nat.
Proof.
  split; [reflexivity|]. split; [reflexivity|].
  exact (drop_duplicates_leaves_none patients eq_refl).
Defined.

(** ** The rows duplicate removal counts and takes away *)

Lemma existsb_rev {A : Type} (p : A -> bool) (l : list A) :
  existsb p (rev l) = existsb p l.
Proof.
  induction l as [|x l IH]; simpl; [reflexivity|].
  rewrite existsb_app, IH. simpl. rewrite orb_false_r. apply orb_comm.
Qed.

Lemma existsb_map {A B : Type} (p : B -> bool) (f : A -> B) (l : list A) :
  existsb p (map f l) = existsb (fun x => p (f x)) l.
Proof. induction l as [|x l IH]; simpl; [reflexivity | now rewrite IH]. Qed.

Lemma firstn_seq_le (i n start : nat) :
  (i <= n)%nat -> firstn i (seq start n) = seq start i.
Proof.
  revert n start. induction i as [|i IH]; intros n start Hi; [reflexivity|].
  destruct n as [|n]; [lia|]. simpl. f_equal. apply IH. lia.
Qed.

Lemma firstn_rows (df : DataFrame) (i : nat) :
  (i <= len df)%nat -> firstn i (rows df) = map (row df) (seq 0 i).
Proof.
  intro Hi. unfold rows. rewrite firstn_map. f_equal.
  now apply firstn_seq_le.
Qed.

Lemma mask_sum_map {A : Type} (p : A -> bool) (l : list A) :
  mask_sum (map p l) = List.length (filter p l).
Proof.
  unfold mask_sum. induction l as [|x l IH]; simpl; [reflexivity|].
  destruct (p x); simpl; now rewrite IH.
Qed.

(** The mask of [duplicated], row by row: an earlier row holds the same
    values. *)
Lemma duplicated_by_position (df : DataFrame) :
  duplicated df
  = map (fun i => existsb (fun j => row_same (row df i) (row df j)) (seq 0 i))
        (seq 0 (len df)).
Proof.
  apply nth_error_ext. intro i.
  rewrite nth_error_map, nth_error_seq.
  destruct (Nat.ltb_spec i (len df)) as [Hi|Hi].
  - unfold duplicated.
    rewrite (duplicated_from_nth _ [] i _ (rows_nth df i Hi)), app_nil_r.
    cbn. f_equal.
    rewrite existsb_rev, firstn_rows by lia. apply existsb_map.
  - apply nth_error_None. rewrite duplicated_length. exact Hi.
Qed.

(** C5: removing the duplicates takes away exactly as many rows as were
    counted before, len(result) = len(input) - duplicate_count, where the
    rows counted (and marked by [duplicated]) are the rows that hold the
    same values as an earlier row, and the rows left are the rows not
    marked, in their order. *)
Theorem drop_duplicates_row_count (df : DataFrame) :
  len (drop_duplicates df) = (len df - mask_sum (duplicated df))%nat /\
  (mask_sum (duplicated df) <= len df)%nat /\
  mask_sum (duplicated df)
  = List.length
      (filter (fun i => existsb (fun j => row_same (row df i) (row df j)) (seq 0 i))
              (seq 0 (len df))) /\
  (forall i : nat,
      (i < len df)%nat ->
      exists b : bool,
        nth_error (duplicated df) i = Some b /\
        (b = true <->
         exists j : nat, (j < i)%nat /\ row_same (row df i) (row df j) = true)) /\
  (well_formed df = true ->
   rows (drop_duplicates df) = select (map negb (duplicated df)) (rows df)).
Proof.
  pose proof (duplicated_length df) as Hlen.
  split; [|split; [|split; [|split]]].
  - unfold drop_duplicates.
    destruct df as [|[c s] df]; simpl in *.
    + unfold duplicated, rows. reflexivity.
    + pose proof (series_select_negb_length _ s Hlen). lia.
  - rewrite <- Hlen. unfold mask_sum. apply filter_length_le.
  - rewrite duplicated_by_position at 1. apply mask_sum_map.
  - intros i Hi. now apply duplicated_marks_repeats.
  - intro Hwf. unfold drop_duplicates.
    apply rows_loc_rows; [exact Hwf | now rewrite length_map].
Qed.

(** ** Removing outliers *)

Lemma get_col_loc_rows (mask : list bool) (df : DataFrame) (c : string) :
  get_col (loc_rows mask df) c = option_map (series_select mask) (get_col df c).
Proof.
  induction df as [|[c' s'] df IH]; simpl; [reflexivity|].
  destruct (String.eqb c' c); [reflexivity | exact IH].
Qed.

Lemma get_col_In (df : DataFrame) (c : string) (s : Series) :
  get_col df c = Some s -> exists c', In (c', s) df.
Proof.
  induction df as [|[c' s'] df IH]; simpl; [discriminate|].
  destruct (String.eqb c' c).
  - intro H. injection H as ->. exists c'. now left.
  - intro H. destruct (IH H) as (c0 & Hin). exists c0. now right.
Qed.

Lemma select_rejects {A : Type} (p : A -> bool) (l : list A) (x : A) :
  In x (select (map negb (map p l)) l) -> p x = false.
Proof.
  induction l as [|y l IH]; simpl; [tauto|].
  destruct (p y) eqn:E; simpl; [exact IH|].
  intros [<-|H]; [exact E | now apply IH].
Qed.

Section RemoveOutliers.
Variable lib : externals.

Lemma outlier_treatment_run (ss : SessionState) (df : DataFrame) (col : string)
      (v : list num) (method : treatment_method) :
  healthcare_data ss = Some df ->
  assessment_raises df = false ->
  get_col df col = Some (Numeric v) ->
  (0 < outlier_count v)%nat ->
  preprocessing_page lib (Some (btn_apply_outlier_treatment col method)) ss
  = let st := store_processed (apply_treatment lib method col v (mkRun df ss [])) in
    mkResult (session st) (shown st) rerun.
Proof.
  intros Hdata Hok Hcol Hcount. unfold preprocessing_page. rewrite Hdata.
  unfold then_block.
  rewrite assessment_block_passes by exact Hok.
  rewrite duplicates_block_passes by discriminate.
  cbn [convert_date_block outlier_block data].
  rewrite Hcol, (mem_numerical_cols df col v Hcol).
  apply Nat.ltb_lt in Hcount. rewrite Hcount. reflexivity.
Qed.

(** X5: 'Remove outliers' on a numeric column with outliers, in a table
    the assessment accepts and whose columns have one length, the
    treated column holding whole numbers of magnitude up to 2^40 (where
    the bounds of the page are exact): the run stores a table that has
    lost exactly [outlier_count] rows and whose treated column holds no
    value outside the bounds computed before the removal. *)
Theorem remove_outliers_run
        (ss : SessionState) (df : DataFrame) (col : string) (v : list num) :
  healthcare_data ss = Some df ->
  assessment_raises df = false ->
  well_formed df = true ->
  get_col df col = Some (Numeric v) ->
  exact_column v = true ->
  (0 < outlier_count v)%nat ->
  let r := preprocessing_page
             lib (Some (btn_apply_outlier_treatment col remove_outliers)) ss in
  how r = rerun /\
  messages r = [success_removed_outliers (outlier_count v)] /\
  exists (t : DataFrame) (kept : list num),
    healthcare_data_processed (final r) = Some t /\
    get_col t col = Some (Numeric kept) /\
    (len t + outlier_count v = len df)%nat /\
    (forall y : num, In y kept -> In y v) /\
    forall x : Q,
      In (Fin x) kept ->
      ~ num_lt (Fin x) (lower_bound v) /\ ~ num_lt (upper_bound v) (Fin x).
Proof.
  intros Hdata Hok Hwf Hcol _ Hcount r. subst r.
  rewrite (outlier_treatment_run ss df col v remove_outliers Hdata Hok Hcol Hcount).
  cbn. split; [reflexivity|]. split; [reflexivity|].
  exists (loc_rows (map negb (outliers_mask v)) df),
         (select (map negb (outliers_mask v)) v).
  split; [reflexivity|].
  split; [now rewrite get_col_loc_rows, Hcol|].
  assert (Hlen : List.length (outliers_mask v) = len df).
  { rewrite outliers_mask_length.
    destruct (get_col_In df col _ Hcol) as (c' & Hin).
    exact (well_formed_column df c' _ Hwf Hin). }
  split; [|split].
  - rewrite loc_rows_len.
    + rewrite length_map. unfold outlier_count.
      pose proof (select_negb_length
                    (outliers_mask v) (seq 0 (List.length (outliers_mask v)))) as H.
      rewrite length_seq in H. specialize (H eq_refl). lia.
    + intro E. rewrite E in Hcol. discriminate.
    + now rewrite length_map.
  - intro y. apply select_In.
  - intros x Hin. unfold outliers_mask in Hin.
    apply select_rejects in Hin. apply orb_false_iff in Hin.
    destruct Hin as [H1 H2]. unfold num_gtb in H2.
    split; intro H;
      [apply (proj2 (num_ltb_lt (Fin x) (lower_bound v))) in H
      |apply (proj2 (num_ltb_lt (upper_bound v) (Fin x))) in H]; congruence.
Qed.
End RemoveOutliers.

Lemma remove_outliers_run_witness :
  healthcare_data (mkSession (Some visits) None) = Some visits /\
  assessment_raises visits = false /\
  well_formed visits = true /\
  get_col visits "visits" = Some (Numeric [Fin 0; Fin 1; Fin 2; Fin 3; Fin 100]) /\
  exact_column [Fin 0; Fin 1; Fin 2; Fin 3; Fin 100] = true /\
  (0 < outlier_count [Fin 0; Fin 1; Fin 2; Fin 3; Fin 100])%nat /\
  let r := preprocessing_page
             sample_lib (Some (btn_apply_outlier_treatment "visits" remove_outliers))
             (mkSession (Some visits) None) in
  how r = rerun /\
  messages r
  = [success_removed_outliers (outlier_count [Fin 0; Fin 1; Fin 2; Fin 3; Fin 100])] /\
  exists (t : DataFrame) (kept : list num),
    healthcare_data_processed (final r) = Some t /\
    get_col t "visits" = Some (Numeric kept) /\
    (len t + outlier_count [Fin 0; Fin 1; Fin 2; Fin 3; Fin 100] = len visits)%nat /\
    (forall y : num, In y kept -> In y [Fin 0; Fin 1; Fin 2; Fin 3; Fin 100]) /\
    forall x : Q,
      In (Fin x) kept ->
      ~ num_lt (Fin x) (lower_bound [Fin 0; Fin 1; Fin 2; Fin 3; Fin 100]) /\
      ~ num_lt (upper_bound [Fin 0; Fin 1; Fin 2; Fin 3; Fin 100]) (Fin x).
Proof.
  assert (H : (0 < outlier_count [Fin 0; Fin 1; Fin 2; Fin 3; Fin 100])%nat)
    by (vm_compute; lia).
  split; [reflexivity|]. split; [reflexivity|]. split; [reflexivity|].
  split; [reflexivity|]. split; [reflexivity|]. split; [exact H|].
  exact (remove_outliers_run
           sample_lib (mkSession (Some visits) None) visits "visits"
           [Fin 0; Fin 1; Fin 2; Fin 3; Fin 100]
           eq_refl eq_refl eq_refl eq_refl eq_refl H).
Defined.

(** ** The handlers keep the columns of the table at one length *)

Lemma select_length_same {A B : Type} (mask : list bool) (l : list A) (l' : list B) :
  List.length l = List.length l' ->
  List.length (select mask l) = List.length (select mask l').
Proof.
  revert l l'.
  induction mask as [|b mask IH]; intros [|x l] [|y l'] H;
    simpl in *; try discriminate; try reflexivity.
  injection H as H. destruct b; simpl; now rewrite (IH l l').
Qed.

Lemma series_select_len_same (mask : list bool) (s s' : Series) :
  series_len s = series_len s' ->
  series_len (series_select mask s) = series_len (series_select mask s').
Proof.
  destruct s as [v|v|v|v], s' as [w|w|w|w]; simpl; apply select_length_same.
Qed.

Lemma well_formed_forall (df : DataFrame) :
  well_formed df = true <-> forall c s, In (c, s) df -> series_len s = len df.
Proof.
  unfold well_formed. rewrite forallb_forall. split.
  - intros H c s Hin. apply Nat.eqb_eq. exact (H (c, s) Hin).
  - intros H [c s] Hin. apply Nat.eqb_eq. exact (H c s Hin).
Qed.

Lemma loc_rows_well_formed (mask : list bool) (df : DataFrame) :
  well_formed df = true -> well_formed (loc_rows mask df) = true.
Proof.
  intro Hwf. rewrite well_formed_forall in *. intros c s Hin.
  unfold loc_rows in Hin. apply in_map_iff in Hin.
  destruct Hin as ([c0 s0] & Heq & Hin0). injection Heq as <- <-. cbn [snd].
  destruct df as [|[c1 s1] df]; [contradiction|].
  cbn [loc_rows map len fst snd].
  apply series_select_len_same.
  rewrite (Hwf c0 s0 Hin0). reflexivity.
Qed.

Lemma set_col_first_len (df : DataFrame) (c : string) (s : Series) :
  series_len s = len df -> len (set_col df c s) = len df.
Proof.
  destruct df as [|[c' s'] df]; simpl; [auto|].
  destruct (String.eqb c' c); simpl; auto.
Qed.

Lemma set_col_In (df : DataFrame) (c : string) (s : Series) (c0 : string) (s0 : Series) :
  In (c0, s0) (set_col df c s) -> s0 = s \/ In (c0, s0) df.
Proof.
  induction df as [|[c' s'] df IH]; simpl.
  - intros [H|[]]. injection H as <- <-. now left.
  - destruct (String.eqb c' c); simpl.
    + intros [H|H]; [injection H as <- <-; now left | right; now right].
    + intros [H|H]; [right; now left|].
      destruct (IH H); [now left | right; now right].
Qed.

Lemma set_col_well_formed (df : DataFrame) (c : string) (s : Series) :
  well_formed df = true -> series_len s = len df ->
  well_formed (set_col df c s) = true /\ len (set_col df c s) = len df.
Proof.
  intros Hwf Hs.
  pose proof (set_col_first_len df c s Hs) as Hlen.
  split; [|exact Hlen].
  rewrite well_formed_forall in *. intros c0 s0 Hin. rewrite Hlen.
  destruct (set_col_In df c s c0 s0 Hin) as [->|Hin0]; [exact Hs|].
  exact (Hwf c0 s0 Hin0).
Qed.

Lemma get_col_len (df : DataFrame) (c : string) (s : Series) :
  well_formed df = true -> get_col df c = Some s -> series_len s = len df.
Proof.
  intros Hwf Hcol. destruct (get_col_In df c s Hcol) as (c' & Hin).
  exact (well_formed_column df c' s Hwf Hin).
Qed.

Lemma traverse_length {A B : Type} (f : A -> option B) (l : list A) (r : list B) :
  traverse f l = Some r -> List.length r = List.length l.
Proof.
  revert r. induction l as [|x l IH]; intros r; simpl.
  - intro H. now injection H as <-.
  - destruct (f x); [|discriminate].
    destruct (traverse f l) as [r'|]; [|discriminate].
    intro H. injection H as <-. simpl. now rewrite (IH r' eq_refl).
Qed.

Section WellFormedRuns.
Variable lib : externals.

Lemma to_datetime_length (s : Series) (v : list (option Z)) :
  to_datetime lib s = Some v -> List.length v = series_len s.
Proof.
  destruct s as [w|w|w|w]; simpl.
  - apply traverse_length.
  - apply traverse_length.
  - intro H. now injection H as <-.
  - discriminate.
Qed.

Lemma assign_ok (n : nat) (d : DataFrame) (c : string) (s : Series) :
  data_ok n d -> series_len s = n -> data_ok n (set_col d c s).
Proof.
  intros [Hwf Hlen] Hs. subst n.
  destruct (set_col_well_formed d c s Hwf Hs). now split.
Qed.

Lemma convert_date_body_ok (n : nat) (d : DataFrame) (col : string) :
  data_ok n d -> data_ok n (fst (convert_date_body lib col d)).
Proof.
  intros Hok. unfold convert_date_body, bind, column, lift, assign.
  destruct (get_col d col) as [s|] eqn:Hcol; [|exact Hok].
  destruct (to_datetime lib s) as [v|] eqn:Hv; [|exact Hok].
  cbn. apply assign_ok; [exact Hok|]. cbn.
  rewrite (to_datetime_length s v Hv).
  destruct Hok as [Hwf <-]. now apply (get_col_len d col).
Qed.

Lemma extract_field_ok (n : nat) (d : DataFrame) (col suffix : string)
      (f : Z -> Z) (v : list (option Z)) :
  data_ok n d ->
  get_col d col = Some (Datetime v) ->
  suffix <> EmptyString ->
  exists d' : DataFrame,
    extract_field col suffix f d = (d', Some tt) /\
    data_ok n d' /\ get_col d' col = Some (Datetime v).
Proof.
  intros Hok Hcol Hsuf. unfold extract_field, bind, column, lift, assign.
  rewrite Hcol. cbn. eexists. split; [reflexivity|]. split.
  - apply assign_ok; [exact Hok|]. cbn. rewrite length_map.
    destruct Hok as [Hwf <-]. exact (get_col_len d col _ Hwf Hcol).
  - rewrite get_set_col_other; [exact Hcol | now apply append_suffix_neq].
Qed.

Lemma extract_fields_ok (n : nat) (d : DataFrame) (col : string)
      (v : list (option Z)) :
  data_ok n d ->
  get_col d col = Some (Datetime v) ->
  data_ok n (fst (extract_fields lib col d)).
Proof.
  intros H0 C0. unfold extract_fields.
  destruct (extract_field_ok n d col "_year" (dt_year lib) v H0 C0)
    as (d1 & E1 & H1 & C1); [discriminate|].
  destruct (extract_field_ok n d1 col "_month" (dt_month lib) v H1 C1)
    as (d2 & E2 & H2 & C2); [discriminate|].
  destruct (extract_field_ok n d2 col "_day" (dt_day lib) v H2 C2)
    as (d3 & E3 & H3 & C3); [discriminate|].
  destruct (extract_field_ok n d3 col "_weekday" (dt_dayofweek lib) v H3 C3)
    as (d4 & E4 & H4 & C4); [discriminate|].
  destruct (extract_field_ok n d4 col "_quarter" (dt_quarter lib) v H4 C4)
    as (d5 & E5 & H5 & C5); [discriminate|].
  unfold bind. now rewrite E1, E2, E3, E4, E5.
Qed.

Lemma date_features_body_ok (n : nat) (d : DataFrame) (col : string) :
  data_ok n d -> data_ok n (fst (date_features_body lib col d)).
Proof.
  intro Hok.
  unfold date_features_body, bind, column.
  destruct (get_col d col) as [s|] eqn:Hcol; [|exact Hok].
  assert (Hconv : forall v, to_datetime lib s = Some v ->
                            data_ok n (set_col d col (Datetime v))).
  { intros v Hv. apply assign_ok; [exact Hok|]. cbn.
    rewrite (to_datetime_length s v Hv).
    destruct Hok as [Hwf <-]. now apply (get_col_len d col). }
  destruct s as [v|v|v|v]; cbn [is_datetime].
  - unfold lift. destruct (to_datetime lib (Numeric v)) as [w|] eqn:Hw;
      [|exact Hok].
    cbn [assign]. apply (extract_fields_ok n _ col w (Hconv w eq_refl)).
    apply get_set_col_same.
  - unfold lift. destruct (to_datetime lib (Object v)) as [w|] eqn:Hw;
      [|exact Hok].
    cbn [assign]. apply (extract_fields_ok n _ col w (Hconv w eq_refl)).
    apply get_set_col_same.
  - unfold ret. now apply (extract_fields_ok n d col v).
  - exact Hok.
Qed.

Lemma combine_length_same {A B : Type} (l : list A) (l' : list B) :
  List.length l = List.length l' -> List.length (combine l l') = List.length l.
Proof. intro H. rewrite length_combine, H. apply Nat.min_id. Qed.

Lemma length_of_stay_body_ok (n : nat) (d : DataFrame) (a_col d_col : string) :
  data_ok n d -> data_ok n (fst (length_of_stay_body lib a_col d_col d)).
Proof.
  intro Hok. unfold length_of_stay_body, bind, column, lift, assign.
  destruct (get_col d a_col) as [a|] eqn:Ha; [|exact Hok].
  destruct (to_datetime lib a) as [va|] eqn:Hva; [|exact Hok].
  assert (Hok1 : data_ok n (set_col d a_col (Datetime va))).
  { apply assign_ok; [exact Hok|]. cbn. rewrite (to_datetime_length a va Hva).
    destruct Hok as [Hwf <-]. now apply (get_col_len d a_col). }
  set (d1 := set_col d a_col (Datetime va)) in *.
  destruct (get_col d1 d_col) as [s|] eqn:Hs; [|exact Hok1].
  destruct (to_datetime lib s) as [vd|] eqn:Hvd; [|exact Hok1].
  assert (Hok2 : data_ok n (set_col d1 d_col (Datetime vd))).
  { apply assign_ok; [exact Hok1|]. cbn. rewrite (to_datetime_length s vd Hvd).
    destruct Hok1 as [Hwf <-]. now apply (get_col_len d1 d_col). }
  set (d2 := set_col d1 d_col (Datetime vd)) in *.
  destruct (get_col d2 d_col) as [s'|] eqn:Hs'; [|exact Hok2].
  destruct (get_col d2 a_col) as [a'|] eqn:Ha'; [|exact Hok2].
  destruct (dt_values s') as [x|] eqn:Hx; [|exact Hok2].
  destruct (dt_values a') as [y|] eqn:Hy; [|exact Hok2].
  cbn. apply assign_ok; [exact Hok2|].
  unfold days_between. cbn. rewrite length_map.
  destruct s' as [?|?|x'|?]; try discriminate. injection Hx as ->.
  destruct a' as [?|?|y'|?]; try discriminate. injection Hy as ->.
  destruct Hok2 as [Hwf2 Hn].
  pose proof (get_col_len d2 d_col _ Hwf2 Hs') as L1.
  pose proof (get_col_len d2 a_col _ Hwf2 Ha') as L2.
  cbn in L1, L2. rewrite combine_length_same; lia.
Qed.
End WellFormedRuns.

Section WellFormedBlocks.
Variable lib : externals.

Lemma data_ok_intro (d : DataFrame) :
  well_formed d = true -> data_ok (len d) d.
Proof. intro H. now split. Qed.

Lemma try_except_ok (body : attempt unit) (ok err : message) :
  (forall d, well_formed d = true -> well_formed (fst (body d)) = true) ->
  block_ok (try_except body ok err).
Proof.
  intros Hbody st Hwf. unfold try_except.
  specialize (Hbody (data st) Hwf).
  destruct (body (data st)) as [d [u|]]; cbn in *.
  - split; [exact Hbody | reflexivity].
  - split; [exact Hbody | discriminate].
Qed.

Lemma next_ok (st : run_state) :
  well_formed (data st) = true ->
  well_formed (data (flow_state (next st))) = true /\
  (flow_exit (next st) = Some rerun ->
   healthcare_data_processed (session (flow_state (next st)))
   = Some (data (flow_state (next st)))).
Proof. intro H. split; [exact H | discriminate]. Qed.

Lemma duplicates_block_ok (click : option button) :
  block_ok (duplicates_block click).
Proof.
  intros st Hwf. unfold duplicates_block.
  destruct (0 <? mask_sum (duplicated (data st)))%nat; [|now apply next_ok].
  destruct click as [[]|]; try (now apply next_ok).
  cbn. split; [|reflexivity].
  unfold drop_duplicates. now apply loc_rows_well_formed.
Qed.

Lemma convert_date_block_ok (click : option button) :
  block_ok (convert_date_block lib click).
Proof.
  intros st Hwf. unfold convert_date_block.
  destruct click as [[| col | | | |]|]; try (now apply next_ok).
  destruct (get_col (data st) col) as [s|]; [|now apply next_ok].
  destruct (mem col (date_columns_of (data st)) && negb (is_datetime s));
    [|now apply next_ok].
  apply try_except_ok; [|exact Hwf].
  intros d Hd.
  exact (proj1 (convert_date_body_ok lib (len d) d col (data_ok_intro d Hd))).
Qed.

Lemma cap_outliers_length (v : list num) :
  List.length (cap_outliers v) = List.length v.
Proof. unfold cap_outliers, assign_where. now rewrite !length_map. Qed.

Lemma outlier_block_ok (cols : list string) (click : option button) :
  block_ok (outlier_block lib cols click).
Proof.
  intros st Hwf. unfold outlier_block.
  destruct click as [[| | col method | | |]|]; try (now apply next_ok).
  destruct (get_col (data st) col) as [[v|v|v|v]|] eqn:Hcol; try (now apply next_ok).
  destruct (mem col cols && (0 <? outlier_count v)%nat); [|now apply next_ok].
  pose proof (get_col_len (data st) col _ Hwf Hcol) as Hlen. cbn in Hlen.
  unfold apply_treatment.
  destruct method; cbn.
  - split; [exact Hwf | reflexivity].
  - split; [now apply loc_rows_well_formed | reflexivity].
  - split; [|reflexivity].
    apply set_col_well_formed; [exact Hwf|]. cbn.
    now rewrite cap_outliers_length.
  - destruct (all_positive v); cbn.
    + split; [|reflexivity].
      apply set_col_well_formed; [exact Hwf|]. cbn.
      unfold log1p_series. now rewrite length_map.
    + split; [exact Hwf | reflexivity].
Qed.

Lemma date_features_block_ok (click : option button) :
  block_ok (date_features_block lib click).
Proof.
  intros st Hwf. unfold date_features_block.
  destruct click as [[| | | col | |]|]; try (now apply next_ok).
  destruct (mem col (date_cols_of (data st)) && negb (String.eqb col ""));
    [|now apply next_ok].
  apply try_except_ok; [|exact Hwf].
  intros d Hd.
  exact (proj1 (date_features_body_ok lib (len d) d col (data_ok_intro d Hd))).
Qed.

Lemma los_block_ok (click : option button) : block_ok (los_block lib click).
Proof.
  intros st Hwf. unfold los_block.
  destruct (find_los_cols (column_names (data st))) as [[a|] [d|]];
    try (now apply next_ok).
  destruct click as [[]|]; try (now apply next_ok).
  apply try_except_ok; [|exact Hwf].
  intros d0 Hd.
  exact (proj1 (length_of_stay_body_ok lib (len d0) d0 a d (data_ok_intro d0 Hd))).
Qed.

Lemma age_groups_block_ok (click : option button) :
  block_ok (age_groups_block click).
Proof.
  intros st Hwf. unfold age_groups_block.
  destruct (get_col (data st) "age") as [s|] eqn:Hcol; [|now apply next_ok].
  destruct click as [[]|]; try (now apply next_ok).
  pose proof (get_col_len (data st) "age" _ Hwf Hcol) as Hlen.
  destruct s as [v|v|v|v]; cbn [series_len] in *.
  - cbn. split; [|reflexivity].
    apply set_col_well_formed; [exact Hwf|]. cbn. now rewrite length_map.
  - destruct (List.length v =? 0)%nat eqn:E; cbn.
    + split; [|reflexivity]. apply Nat.eqb_eq in E.
      apply set_col_well_formed; [exact Hwf|]. cbn. lia.
    + split; [exact Hwf | discriminate].
  - destruct (List.length v =? 0)%nat eqn:E; cbn.
    + split; [|reflexivity]. apply Nat.eqb_eq in E.
      apply set_col_well_formed; [exact Hwf|]. cbn. lia.
    + split; [exact Hwf | discriminate].
  - cbn. split; [|reflexivity].
    apply set_col_well_formed; [exact Hwf|]. cbn. now rewrite length_map.
Qed.

Lemma then_block_ok (b1 b2 : block) :
  block_ok b1 -> block_ok b2 -> block_ok (b1 >>> b2).
Proof.
  intros H1 H2 st Hwf. unfold then_block.
  specialize (H1 st Hwf). destruct (b1 st) as [st'|e st']; cbn in *.
  - apply H2. exact (proj1 H1).
  - exact H1.
Qed.

(** X6: starting from an uploaded table whose columns have one length, a
    run of the page that does not end by an uncaught exception (so the
    assessment has accepted the table) leaves a processed table in the
    store whose columns have one length again, whatever the button and
    whether its handler succeeded, failed half-way or was not on
    screen. *)
Theorem processed_table_well_formed
        (click : option button) (ss : SessionState) (df : DataFrame) :
  healthcare_data ss = Some df ->
  well_formed df = true ->
  how (preprocessing_page lib click ss) <> crashed ->
  exists t : DataFrame,
    healthcare_data_processed (final (preprocessing_page lib click ss)) = Some t /\
    well_formed t = true.
Proof.
  intros Hdata Hwf.
  destruct (assessment_raises df) eqn:Hacc.
  { rewrite (crash_result lib click ss df Hdata Hacc). intro H. now contradiction H. }
  rewrite (page_on_accepted lib click ss df Hdata Hacc).
  assert (Hok : block_ok
                  (duplicates_block click >>> convert_date_block lib click >>>
                   outlier_block lib (numerical_cols_of df) click >>>
                   date_features_block lib click >>> los_block lib click >>>
                   age_groups_block click)).
  { repeat apply then_block_ok.
    - apply duplicates_block_ok.
    - apply convert_date_block_ok.
    - apply outlier_block_ok.
    - apply date_features_block_ok.
    - apply los_block_ok.
    - apply age_groups_block_ok. }
  specialize (Hok (mkRun df ss []) Hwf).
  pose proof (script_exits lib (numerical_cols_of df) click (mkRun df ss [])) as Hexit.
  destruct ((duplicates_block click >>> convert_date_block lib click >>>
             outlier_block lib (numerical_cols_of df) click >>>
             date_features_block lib click >>> los_block lib click >>>
             age_groups_block click) (mkRun df ss [])) as [st|e st]; cbn in *.
  - intros _. exists (data st). split; [reflexivity | exact (proj1 Hok)].
  - intro Hne. destruct (Hexit e eq_refl) as [->|[-> _]]; [|now contradiction Hne].
    exists (data st). split; [exact (proj2 Hok eq_refl) | exact (proj1 Hok)].
Qed.
End WellFormedBlocks.

Lemma processed_table_well_formed_witness :
  healthcare_data (mkSession (Some admissions) None) = Some admissions /\
  well_formed admissions = true /\
  how (preprocessing_page sample_lib (Some btn_calculate_los)
                          (mkSession (Some admissions) None)) <> crashed /\
  exists t : DataFrame,
    healthcare_data_processed
      (final (preprocessing_page sample_lib (Some btn_calculate_los)
                                 (mkSession (Some admissions) None))) = Some t /\
    well_formed t = true.
Proof.
  assert (H : how (preprocessing_page sample_lib (Some btn_calculate_los)
                                      (mkSession (Some admissions) None)) <> crashed)
    by (vm_compute; discriminate).
  split; [reflexivity|]. split; [reflexivity|]. split; [exact H|].
  exact (processed_table_well_formed
           sample_lib (Some btn_calculate_los) (mkSession (Some admissions) None)
           admissions eq_refl eq_refl H).
Defined.

(** ** Loading a dataset *)

(** What line 129 does to one character. *)
Lemma clean_name_chars (s : string) :
  clean_name s
  = match s with
    | EmptyString => EmptyString
    | String c s' =>
        String (lower_ascii
                  (if Ascii.eqb (if Ascii.eqb c " " then "_"%char else c) "-"
                   then "_"%char
                   else if Ascii.eqb c " " then "_"%char else c))
               (clean_name s')
    end.
Proof. destruct s; reflexivity. Qed.

Lemma clean_char_of_cleaned (c : ascii) :
  clean_char
    (lower_ascii
       (if Ascii.eqb (if Ascii.eqb c " " then "_"%char else c) "-"
        then "_"%char
        else if Ascii.eqb c " " then "_"%char else c)) = true.
Proof.
  destruct c as [[] [] [] [] [] [] [] []]; vm_compute; reflexivity.
Qed.

Lemma clean_char_fixed (c : ascii) :
  clean_char c = true ->
  lower_ascii
    (if Ascii.eqb (if Ascii.eqb c " " then "_"%char else c) "-"
     then "_"%char
     else if Ascii.eqb c " " then "_"%char else c) = c.
Proof.
  destruct c as [[] [] [] [] [] [] [] []]; vm_compute;
    intro H; try reflexivity; discriminate H.
Qed.

Lemma clean_name_is_clean (s : string) : is_clean (clean_name s) = true.
Proof.
  induction s as [|c s IH]; [reflexivity|].
  rewrite clean_name_chars. cbn [is_clean].
  now rewrite clean_char_of_cleaned, IH.
Qed.

Lemma clean_name_fixed (s : string) : is_clean s = true -> clean_name s = s.
Proof.
  induction s as [|c s IH]; [reflexivity|].
  cbn [is_clean]. rewrite andb_true_iff. intros [Hc Hs].
  rewrite clean_name_chars. now rewrite (clean_char_fixed c Hc), (IH Hs).
Qed.

Lemma rename_same (c : string) (df : DataFrame) : rename c c df = df.
Proof.
  unfold rename. induction df as [|[c' s] df IH]; simpl; [reflexivity|].
  rewrite IH. destruct (String.eqb c' c) eqn:E; [|reflexivity].
  apply String.eqb_eq in E. now subst.
Qed.

Lemma apply_column_mapping_id (df : DataFrame) : apply_column_mapping df = df.
Proof.
  unfold apply_column_mapping, column_mapping. cbn [fold_left fst snd].
  repeat (rewrite rename_same;
          match goal with
          | |- context [if ?b then ?d else ?d] =>
              replace (if b then d else d) with d by (destruct b; reflexivity)
          end).
  reflexivity.
Qed.

Lemma prepare_columns_map (raw : DataFrame) :
  prepare_columns raw = map (fun cs => (clean_name (fst cs), snd cs)) raw.
Proof. unfold prepare_columns. apply apply_column_mapping_id. Qed.

Lemma prepared_names_clean (raw : DataFrame) :
  Forall (fun c => is_clean c = true) (column_names (prepare_columns raw)).
Proof.
  rewrite prepare_columns_map. unfold column_names. rewrite map_map. cbn [fst].
  apply Forall_forall. intros c Hin. apply in_map_iff in Hin.
  destruct Hin as (cs & <- & _). apply clean_name_is_clean.
Qed.

(** X7: loading a parsed file only cleans the column names: the columns
    keep their order and their data, the renaming pass of lines 145-147
    changes nothing, no name of the stored table holds a space, a hyphen
    or a capital ASCII letter, and preparing a prepared table gives the
    same table. *)
Theorem prepare_columns_cleans_names (raw : DataFrame) :
  prepare_columns raw = map (fun cs => (clean_name (fst cs), snd cs)) raw /\
  map snd (prepare_columns raw) = map snd raw /\
  Forall (fun c => is_clean c = true) (column_names (prepare_columns raw)) /\
  prepare_columns (prepare_columns raw) = prepare_columns raw.
Proof.
  split; [apply prepare_columns_map|].
  split; [rewrite prepare_columns_map, map_map; reflexivity|].
  split; [apply prepared_names_clean|].
  rewrite !prepare_columns_map, map_map. cbn [fst snd].
  apply map_ext. intros [c s]. cbn [fst snd].
  now rewrite (clean_name_fixed _ (clean_name_is_clean c)).
Qed.

(** ** The columns the visualisation page looks for *)

Lemma mem_not_clean (c : string) (cols : list string) :
  Forall (fun c' => is_clean c' = true) cols ->
  is_clean c = false -> mem c cols = false.
Proof.
  intros Hall Hc. unfold mem.
  destruct (existsb (String.eqb c) cols) eqn:E; [|reflexivity].
  apply existsb_exists in E. destruct E as (c' & Hin & Heq).
  apply String.eqb_eq in Heq. subst c'.
  rewrite Forall_forall in Hall. rewrite (Hall c Hin) in Hc. discriminate.
Qed.

(** X8: on the table an upload stores, each of the three column searches
    of the visualisation page finds its column exactly when the
    lower-case name is a column, and answers that name; the capitalised
    and the spaced spelling of the candidate lists are never chosen. *)
Theorem lookups_on_prepared_table (raw : DataFrame) :
  let cols := column_names (prepare_columns raw) in
  condition_col_of (prepare_columns raw)
  = (if mem "medical_condition" cols then Some "medical_condition"%string else None) /\
  billing_col_of (prepare_columns raw)
  = (if mem "billing_amount" cols then Some "billing_amount"%string else None) /\
  target_col_of (prepare_columns raw)
  = (if mem "test_results" cols then Some "test_results"%string else None).
Proof.
  intro cols. pose proof (prepared_names_clean raw) as Hclean. fold cols in Hclean.
  unfold condition_col_of, billing_col_of, target_col_of. fold cols.
  cbn [first_present].
  rewrite (mem_not_clean "Medical_Condition" cols Hclean eq_refl),
          (mem_not_clean "Medical Condition" cols Hclean eq_refl),
          (mem_not_clean "Billing_Amount" cols Hclean eq_refl),
          (mem_not_clean "Billing Amount" cols Hclean eq_refl),
          (mem_not_clean "Test_Results" cols Hclean eq_refl),
          (mem_not_clean "Test Results" cols Hclean eq_refl).
  repeat split.
Qed.

(** X9: an upload replaces the uploaded table and leaves the processed
    table of the session in place, so the visualisation page goes on
    working on the old processed table; after a run of the preprocessing
    page it works on the new upload if the assessment accepts that, and
    still on the old processed table if the run ends in the assessment
    (as it does for an upload with a column of strings). *)
Theorem upload_keeps_processed_table
        (lib : externals) (raw old : DataFrame) (ss : SessionState) :
  healthcare_data_processed ss = Some old ->
  healthcare_data (upload (Some raw) ss) = Some (prepare_columns raw) /\
  visualization_data (upload (Some raw) ss) = Some old /\
  visualization_data
    (final (preprocessing_page lib None (upload (Some raw) ss)))
  = Some (if assessment_raises (prepare_columns raw)
          then old else prepare_columns raw).
Proof.
  intro Hold. split; [reflexivity|]. split.
  - unfold visualization_data, upload. cbn. now rewrite Hold.
  - destruct (assessment_raises (prepare_columns raw)) eqn:Hacc.
    + rewrite (crash_result lib None (upload (Some raw) ss) (prepare_columns raw)
                            eq_refl Hacc).
      unfold visualization_data, upload. cbn. now rewrite Hold.
    + rewrite (render_result lib (upload (Some raw) ss) (prepare_columns raw)
                             eq_refl Hacc).
      reflexivity.
Qed.

Lemma upload_keeps_processed_table_witness :
  healthcare_data_processed (mkSession (Some visits) (Some visits)) = Some visits /\
  visualization_data (upload (Some admissions) (mkSession (Some visits) (Some visits)))
  = Some visits /\
  visualization_data
    (final (preprocessing_page
              sample_lib None
              (upload (Some admissions) (mkSession (Some visits) (Some visits)))))
  = Some admissions /\
  visualization_data
    (final (preprocessing_page
              sample_lib None
              (upload (Some stays) (mkSession (Some visits) (Some visits)))))
  = Some visits.
Proof.
  split; [reflexivity|].
  split; [exact (proj1 (proj2 (upload_keeps_processed_table
                                 sample_lib admissions visits
                                 (mkSession (Some visits) (Some visits)) eq_refl)))|].
  split.
  - exact (proj2 (proj2 (upload_keeps_processed_table
                           sample_lib admissions visits
                           (mkSession (Some visits) (Some visits)) eq_refl))).
  - exact (proj2 (proj2 (upload_keeps_processed_table
                           sample_lib stays visits
                           (mkSession (Some visits) (Some visits)) eq_refl))).
Defined.

(** ** Quality figures *)

Lemma Qnat_le (a b : nat) : (a <= b)%nat -> Qnat a <= Qnat b.
Proof. intro H. unfold Qnat. rewrite <- Zle_Qle. lia. Qed.

Lemma Qnat_zero (a : nat) : Qnat a == 0 <-> a = 0%nat.
Proof.
  unfold Qnat. change 0 with (inject_Z 0). rewrite inject_Z_injective. lia.
Qed.

Lemma ratio_range (a b : nat) :
  (0 < b)%nat -> (a <= b)%nat ->
  exists q : Q, ratio a b = Fin q /\ 0 <= q /\ q <= 1 /\
                (q == 0 <-> a = 0%nat) /\ (q < 1 <-> (a < b)%nat).
Proof.
  intros Hb Hab. destruct b as [|b']; [lia|]. cbn [ratio].
  set (b := S b') in *.
  pose proof (Qnat_pos b Hb) as Hbq.
  pose proof (Qnat_le a b Hab) as Habq.
  pose proof (Qnat_le 0 a (Nat.le_0_l a)) as Ha0. change (Qnat 0) with 0 in Ha0.
  assert (Hmul : Qnat a / Qnat b * Qnat b == Qnat a)
    by (field; lra).
  exists (Qnat a / Qnat b). split; [reflexivity|].
  assert (H0 : 0 <= Qnat a / Qnat b)
    by (apply Qle_shift_div_l; [exact Hbq | lra]).
  assert (H1 : Qnat a / Qnat b <= 1)
    by (apply Qle_shift_div_r; [exact Hbq | lra]).
  split; [exact H0|]. split; [exact H1|]. split.
  - rewrite <- Qnat_zero. split; intro H.
    + rewrite <- Hmul, H. ring.
    + rewrite H. field. lra.
  - split; intro H.
    + destruct (Nat.eq_dec a b) as [->|Hne]; [|lia].
      exfalso. assert (Qnat b / Qnat b == 1) by (field; lra). lra.
    + apply Qlt_shift_div_r; [exact Hbq|].
      assert (Qnat (S a) <= Qnat b) by (apply Qnat_le; lia).
      assert (Qnat (S a) == Qnat a + 1).
      { unfold Qnat. rewrite Nat2Z.inj_succ, <- Z.add_1_r, inject_Z_plus.
        reflexivity. }
      lra.
Qed.

Lemma mask_sum_le (mask : list bool) : (mask_sum mask <= List.length mask)%nat.
Proof. unfold mask_sum. apply filter_length_le. Qed.

(** The first row is never a duplicate. *)
Lemma duplicate_count_lt (df : DataFrame) :
  (0 < len df)%nat -> (mask_sum (duplicated df) < len df)%nat.
Proof.
  intro Hlen. rewrite <- rows_length in *. unfold duplicated.
  destruct (rows df) as [|r rs]; [simpl in Hlen; lia|].
  cbn [duplicated_from existsb List.length]. unfold mask_sum. cbn [filter].
  fold (mask_sum (duplicated_from [r] rs)).
  pose proof (mask_sum_le (duplicated_from [r] rs)) as H.
  rewrite duplicated_from_length in H. lia.
Qed.

(** X10: for a table with at least one row the 'Data Uniqueness' figure
    is a number above 0 and at most 100, and it is 100 exactly when no row
    is a duplicate; for a table without rows it is not a number. *)
Theorem uniqueness_range (df : DataFrame) :
  (len df = 0%nat -> uniqueness df = NaN) /\
  ((0 < len df)%nat ->
   exists u : Q, uniqueness df = Fin u /\ 0 < u /\ u <= 100 /\
                 (u == 100 <-> mask_sum (duplicated df) = 0%nat)).
Proof.
  split.
  - intro H. unfold uniqueness. now rewrite H.
  - intro Hlen. pose proof (duplicate_count_lt df Hlen) as Hlt.
    destruct (ratio_range (mask_sum (duplicated df)) (len df) Hlen)
      as (q & Hq & H0 & H1 & Hz & Hl); [lia|].
    unfold uniqueness. rewrite Hq. cbn.
    eexists. split; [reflexivity|].
    apply Hl in Hlt.
    split; [lra|]. split; [lra|].
    rewrite <- Hz. split; intro H; lra.
Qed.

Lemma count_missing_le (s : Series) : (count_missing s <= series_len s)%nat.
Proof. destruct s; simpl; try apply filter_length_le. lia. Qed.

Lemma missing_count_le (df : DataFrame) :
  well_formed df = true ->
  (missing_count df <= len df * List.length df)%nat.
Proof.
  intro Hwf. rewrite well_formed_forall in Hwf.
  unfold missing_count. generalize (len df) Hwf. clear Hwf.
  intros n Hwf. induction df as [|[c s] df IH]; simpl; [lia|].
  assert (Hs : series_len s = n) by (apply (Hwf c); now left).
  pose proof (count_missing_le s).
  assert (IH' : (list_sum (map (fun cs => count_missing (snd cs)) df)
                 <= n * List.length df)%nat)
    by (apply IH; intros c' s' Hin; apply (Hwf c'); now right).
  lia.
Qed.

(** X11: for a table with a row and a column, columns of one length, the
    'Data Completeness' figure is a number between 0 and 100, and it is
    100 exactly when no value is missing. *)
Theorem completeness_range (df : DataFrame) :
  well_formed df = true -> (0 < len df)%nat -> df <> [] ->
  exists c : Q, completeness df = Fin c /\ 0 <= c /\ c <= 100 /\
                (c == 100 <-> missing_count df = 0%nat).
Proof.
  intros Hwf Hlen Hne.
  assert (Hcells : (0 < len df * List.length df)%nat).
  { destruct df; [congruence | simpl List.length; nia]. }
  destruct (ratio_range (missing_count df) (len df * List.length df) Hcells
                        (missing_count_le df Hwf))
    as (q & Hq & H0 & H1 & Hz & _).
  unfold completeness. rewrite Hq. cbn.
  eexists. split; [reflexivity|].
  split; [lra|]. split; [lra|].
  rewrite <- Hz. split; intro H; lra.
Qed.

Lemma uniqueness_range_witness :
  (0 < len patients)%nat /\
  exists u : Q, uniqueness patients = Fin u /\ 0 < u /\ u <= 100 /\
                (u == 100 <-> mask_sum (duplicated patients) = 0%nat).
Proof.
  assert (H : (0 < len patients)%nat) by (vm_compute; lia).
  split; [exact H | exact (proj2 (uniqueness_range patients) H)].
Defined.

Lemma completeness_range_witness :
  well_formed patients = true /\ (0 < len patients)%nat /\ patients <> [] /\
  exists c : Q, completeness patients = Fin c /\ 0 <= c /\ c <= 100 /\
                (c == 100 <-> missing_count patients = 0%nat).
Proof.
  assert (H : (0 < len patients)%nat) by (vm_compute; lia).
  assert (Hne : patients <> []) by discriminate.
  split; [reflexivity|]. split; [exact H|]. split; [exact Hne|].
  exact (completeness_range patients eq_refl H Hne).
Defined.

(** ** The two age groupings *)

Lemma Qle_bool_spec (x y : Q) :
  (Qle_bool x y = true /\ x <= y) \/ (Qle_bool x y = false /\ y < x).
Proof.
  destruct (Qle_bool x y) eqn:E.
  - left. split; [reflexivity | now apply Qle_bool_iff].
  - right. split; [reflexivity | now apply Qle_bool_false_iff].
Qed.

Lemma Qlt_bool_spec (x y : Q) :
  (Qlt_bool x y = true /\ x < y) \/ (Qlt_bool x y = false /\ y <= x).
Proof.
  destruct (Qlt_bool x y) eqn:E.
  - left. split; [reflexivity | now apply Qlt_bool_iff].
  - right. split; [reflexivity|]. now apply (num_ltb_false_le x y).
Qed.

Ltac decide_tests :=
  repeat match goal with
         | |- context [Qlt_bool ?a ?b] =>
             let H := fresh "T" in
             destruct (Qlt_bool_spec a b) as [[H ?]|[H ?]];
             rewrite H; cbn [andb]; try (exfalso; lra)
         | |- context [Qle_bool ?a ?b] =>
             let H := fresh "T" in
             destruct (Qle_bool_spec a b) as [[H ?]|[H ?]];
             rewrite H; cbn [andb]; try (exfalso; lra)
         end.

Lemma age_group_cut_cases (x : Q) :
  (x <= 0 /\ age_group_cut (Fin x) = None) \/
  (0 < x /\ x <= 18 /\ age_group_cut (Fin x) = Some "<18"%string) \/
  (18 < x /\ x <= 35 /\ age_group_cut (Fin x) = Some "18-34"%string) \/
  (35 < x /\ x <= 55 /\ age_group_cut (Fin x) = Some "35-54"%string) \/
  (55 < x /\ x <= 75 /\ age_group_cut (Fin x) = Some "55-74"%string) \/
  (75 < x /\ x <= 100 /\ age_group_cut (Fin x) = Some "75+"%string) \/
  (100 < x /\ age_group_cut (Fin x) = None).
Proof.
  unfold age_group_cut, cut. cbn [cut_from].
  decide_tests;
    first [ left; split; [lra | reflexivity]
          | right; left; split; [lra | split; [lra | reflexivity]]
          | right; right; left; split; [lra | split; [lra | reflexivity]]
          | right; right; right; left; split; [lra | split; [lra | reflexivity]]
          | right; right; right; right; left;
            split; [lra | split; [lra | reflexivity]]
          | right; right; right; right; right; left;
            split; [lra | split; [lra | reflexivity]]
          | right; right; right; right; right; right; split; [lra | reflexivity] ].
Qed.

(** X12: the age groups of the visualisation page are the intervals
    (0,18], (18,35], (35,55], (55,75] and (75,100]: the group '<18' holds
    age 18, and an age of 0 or less, above 100, or missing has no group. *)
Theorem age_group_cut_intervals (x : Q) :
  (age_group_cut (Fin x) = Some "<18"%string <-> 0 < x /\ x <= 18) /\
  (age_group_cut (Fin x) = Some "18-34"%string <-> 18 < x /\ x <= 35) /\
  (age_group_cut (Fin x) = Some "35-54"%string <-> 35 < x /\ x <= 55) /\
  (age_group_cut (Fin x) = Some "55-74"%string <-> 55 < x /\ x <= 75) /\
  (age_group_cut (Fin x) = Some "75+"%string <-> 75 < x /\ x <= 100) /\
  (age_group_cut (Fin x) = None <-> x <= 0 \/ 100 < x) /\
  age_group_cut NaN = None.
Proof.
  destruct (age_group_cut_cases x)
    as [[H1 H]|[(H1 & H2 & H)|[(H1 & H2 & H)|[(H1 & H2 & H)|
        [(H1 & H2 & H)|[(H1 & H2 & H)|[H1 H]]]]]]];
    rewrite H;
    repeat split; intros; try discriminate; try reflexivity; try lra;
    try (exfalso; lra);
    try match goal with
        | Hor : _ \/ _ |- _ => destruct Hor; exfalso; lra
        end.
Qed.

(** X13: where the visualisation page puts an age into a group, the
    label the preprocessing page gives the same age names that group
    exactly when the age is none of 18, 35, 55 and 75: at these four ages
    the two pages disagree. *)
Theorem age_groupings_agree_off_boundaries (x : Q) (l : string) :
  age_group_cut (Fin x) = Some l ->
  (categorize_age (Fin x) = label_of_cut l <->
   ~ (x == 18 \/ x == 35 \/ x == 55 \/ x == 75)).
Proof.
  intro Hcut.
  destruct (age_group_cut_cases x)
    as [[H1 H]|[(H1 & H2 & H)|[(H1 & H2 & H)|[(H1 & H2 & H)|
        [(H1 & H2 & H)|[(H1 & H2 & H)|[H1 H]]]]]]];
    rewrite H in Hcut; try discriminate; injection Hcut as <-;
    destruct (categorize_age_cases x)
      as [[C1 C]|[(C1 & C2 & C)|[(C1 & C2 & C)|[(C1 & C2 & C)|[C1 C]]]]];
    rewrite C; cbn;
    try (exfalso; lra);
    (split;
     [ intros E [B|[B|[B|B]]]; first [discriminate E | lra]
     | intro B; first [reflexivity | exfalso; apply B; lra
                       | exfalso; apply B; left; lra
                       | exfalso; apply B; right; left; lra
                       | exfalso; apply B; right; right; left; lra
                       | exfalso; apply B; right; right; right; lra ] ]).
Qed.

Lemma age_groupings_agree_off_boundaries_witness :
  age_group_cut (Fin 18) = Some "<18"%string /\
  (categorize_age (Fin 18) = label_of_cut "<18" <->
   ~ (18 == 18 \/ 18 == 35 \/ 18 == 55 \/ 18 == 75)).
Proof.
  split; [reflexivity|].
  exact (age_groupings_agree_off_boundaries 18 "<18" eq_refl).
Defined.

(** ** Value counts *)

Lemma distinct_In (l : list string) (x : string) : In x (distinct l) <-> In x l.
Proof.
  induction l as [|y l IH]; simpl; [tauto|].
  rewrite filter_In, IH, negb_true_iff, String.eqb_neq.
  destruct (string_dec y x) as [->|Hne]; [tauto|].
  split; [tauto|]. intros [H|H]; [tauto|]. right. split; [exact H | congruence].
Qed.

Lemma distinct_NoDup (l : list string) : NoDup (distinct l).
Proof.
  induction l as [|y l IH]; simpl; constructor.
  - rewrite filter_In, negb_true_iff, String.eqb_neq. tauto.
  - now apply NoDup_filter.
Qed.

Lemma value_counts_perm (v : list (option string)) :
  Permutation (map (fun k => (k, count_value k v)) (distinct (present v)))
              (value_counts v).
Proof. apply sort_perm. Qed.

Lemma value_counts_In (v : list (option string)) (k : string) (n : nat) :
  In (k, n) (value_counts v) <-> In (Some k) v /\ n = count_value k v.
Proof.
  rewrite <- present_In, <- distinct_In.
  split.
  - intro H. apply (Permutation_in _ (Permutation_sym (value_counts_perm v))) in H.
    apply in_map_iff in H. destruct H as (k' & Heq & Hin).
    injection Heq as -> <-. now split.
  - intros [Hin ->]. apply (Permutation_in _ (value_counts_perm v)).
    apply in_map_iff. now exists k.
Qed.

Lemma value_counts_keys (v : list (option string)) :
  Permutation (distinct (present v)) (map fst (value_counts v)).
Proof.
  eapply perm_trans; [|apply Permutation_map, value_counts_perm].
  rewrite map_map. cbn [fst]. rewrite map_id. apply Permutation_refl.
Qed.

Lemma count_geb_total (a b : string * nat) :
  count_geb a b = true \/ count_geb b a = true.
Proof.
  unfold count_geb.
  destruct (Nat.leb_spec (snd b) (snd a)); [now left|].
  right. apply Nat.leb_le. lia.
Qed.

Lemma value_counts_sorted (v : list (option string)) :
  StronglySorted (fun a b => (snd b <= snd a)%nat) (value_counts v).
Proof.
  apply Sorted_StronglySorted.
  - intros a b c H1 H2. lia.
  - pose proof (sort_sorted count_geb count_geb_total
                            (map (fun k => (k, count_value k v))
                                 (distinct (present v)))) as Hs.
    fold (value_counts v) in Hs.
    induction Hs as [|a l Hs IH Hhd]; constructor; [exact IH|].
    destruct Hhd as [|b l' Hab]; constructor.
    unfold count_geb in Hab. now apply Nat.leb_le.
Qed.

(** Every present value is counted under one key. *)
Lemma counts_partition (ks : list string) (v : list (option string)) :
  NoDup ks -> (forall k, In (Some k) v -> In k ks) ->
  list_sum (map (fun k => count_value k v) ks) = List.length (present v).
Proof.
  intros Hnd. unfold count_value.
  induction v as [|[k0|] v IH]; intro Hcover.
  - simpl. apply list_sum_map_zero.
  - assert (Hrest : forall k, In (Some k) v -> In k ks)
      by (intros; apply Hcover; now right).
    rewrite (map_ext _ (fun k => ((if has_key k (Some k0) then 1 else 0)
                                  + List.length (filter (has_key k) v))%nat)).
    2:{ intro k. cbn [filter]. destruct (has_key k (Some k0)); reflexivity. }
    rewrite list_sum_map_add, (IH Hrest), count_own_key.
    + reflexivity.
    + exact Hnd.
    + apply Hcover. now left.
  - cbn [filter has_key present]. apply IH. intros; apply Hcover; now right.
Qed.

(** X14: [value_counts] lists each value that occurs once, with the
    number of rows that hold it, the larger counts first, and the counts
    add up to the number of rows with a value. *)
Theorem value_counts_spec (v : list (option string)) :
  (forall (k : string) (n : nat),
      In (k, n) (value_counts v) <-> In (Some k) v /\ n = count_value k v) /\
  NoDup (map fst (value_counts v)) /\
  StronglySorted (fun a b => (snd b <= snd a)%nat) (value_counts v) /\
  list_sum (map snd (value_counts v)) = List.length (present v).
Proof.
  split; [intros; apply value_counts_In|].
  split; [eapply Permutation_NoDup;
          [apply value_counts_keys | apply distinct_NoDup]|].
  split; [apply value_counts_sorted|].
  rewrite <- (Permutation_list_sum
                (Permutation_map snd (value_counts_perm v))).
  rewrite map_map. cbn [snd].
  apply counts_partition; [apply distinct_NoDup|].
  intros k Hk. now apply distinct_In, present_In.
Qed.

(** X15: the most common value ([value_counts().index[0]]) is missing
    exactly when the column holds no value at all (the page then fails
    with an IndexError); otherwise it is a value of the column and no
    value occurs in more rows. *)
Theorem top_value_spec (v : list (option string)) :
  (top_value v = None <-> forall k, ~ In (Some k) v) /\
  (forall k, top_value v = Some k ->
             In (Some k) v /\
             forall k', (count_value k' v <= count_value k v)%nat).
Proof.
  unfold top_value.
  pose proof (value_counts_In v) as Hin.
  pose proof (value_counts_sorted v) as Hs.
  destruct (value_counts v) as [|[k n] l].
  - split.
    + split; [|reflexivity]. intros _ k Hk.
      apply (proj2 (Hin k (count_value k v))). now split.
    + discriminate.
  - split.
    + split; [discriminate|]. intro H. exfalso.
      apply (H k). apply (proj1 (Hin k n)). now left.
    + intros k0 Hk. injection Hk as <-.
      destruct (proj1 (Hin k n) (or_introl eq_refl)) as [Hk ->].
      split; [exact Hk|]. intro k'.
      destruct (Nat.eq_dec (count_value k' v) 0) as [E|E]; [lia|].
      assert (Hk' : In (Some k') v).
      { unfold count_value in E.
        destruct (filter (has_key k') v) as [|o f] eqn:Ef; [contradiction|].
        assert (Ho : In o (filter (has_key k') v)) by (rewrite Ef; now left).
        apply filter_In in Ho. destruct Ho as [Ho Hkey].
        apply has_key_true in Hkey. now subst o. }
      assert (Hin' : In (k', count_value k' v) ((k, count_value k v) :: l))
        by (apply Hin; now split).
      destruct Hin' as [Heq|Hin']; [injection Heq as <- _; lia|].
      inversion Hs as [|? ? _ Hall]; subst.
      rewrite Forall_forall in Hall. exact (Hall _ Hin').
Qed.

Lemma lookup_In (k : string) (n : nat) (m : list (string * nat)) :
  NoDup (map fst m) -> In (k, n) m -> lookup k m = Some n.
Proof.
  induction m as [|[k' n'] m IH]; simpl; [tauto|].
  intros Hnd [Heq|Hin].
  - injection Heq as -> ->. now rewrite String.eqb_refl.
  - inversion Hnd as [|? ? Hnotin Hnd']; subst.
    destruct (String.eqb k' k) eqn:E; [|now apply IH].
    apply String.eqb_eq in E. subst k'. exfalso. apply Hnotin.
    apply in_map_iff. now exists (k, n).
Qed.

(** X16: frequency encoding keeps the number of rows and replaces every
    value by the number of rows of the column that hold the same value
    (at least 1, at most the number of rows); a missing value stays
    missing. *)
Theorem frequency_encode_spec (v : list (option string)) :
  List.length (frequency_encode v) = List.length v /\
  (forall (i : nat) (k : string),
      nth_error v i = Some (Some k) ->
      nth_error (frequency_encode v) i = Some (Fin (Qnat (count_value k v))) /\
      (1 <= count_value k v <= List.length v)%nat) /\
  (forall i : nat,
      nth_error v i = Some None -> nth_error (frequency_encode v) i = Some NaN).
Proof.
  unfold frequency_encode.
  split; [apply length_map|].
  split.
  - intros i k Hi. rewrite nth_error_map, Hi. cbn.
    assert (Hin : In (Some k) v) by (apply (nth_error_In _ i); exact Hi).
    rewrite (lookup_In k (count_value k v)).
    + split; [reflexivity|]. unfold count_value. split.
      * assert (Hf : In (Some k) (filter (has_key k) v)).
        { apply filter_In. split; [exact Hin|]. now apply has_key_true. }
        destruct (filter (has_key k) v); [contradiction | simpl; lia].
      * apply filter_length_le.
    + eapply Permutation_NoDup;
        [apply value_counts_keys | apply distinct_NoDup].
    + apply value_counts_In. now split.
  - intros i Hi. now rewrite nth_error_map, Hi.
Qed.

(** ** Label encoding *)

Lemma index_of_nth (x : string) (l : list string) :
  In x l -> nth_error l (index_of x l) = Some x.
Proof.
  induction l as [|y l IH]; simpl; [tauto|].
  destruct (String.eqb x y) eqn:E.
  - apply String.eqb_eq in E. now subst.
  - intros [->|H]; [rewrite String.eqb_refl in E; discriminate | now apply IH].
Qed.

Lemma classes_of_In (v : list string) (x : string) :
  In x (classes_of v) <-> In x v.
Proof.
  unfold classes_of. rewrite <- (nodup_In string_dec v x).
  split; apply Permutation_in; [apply Permutation_sym|]; apply sort_perm.
Qed.

Lemma classes_of_NoDup (v : list string) : NoDup (classes_of v).
Proof.
  unfold classes_of.
  eapply Permutation_NoDup; [apply sort_perm | apply NoDup_nodup].
Qed.

(** X17: label encoding keeps the number of rows; the code of a row is
    the position of its value (a missing value read as "nan") in the list
    of classes, so the classes decode every code back to the value, and
    two rows get the same code exactly when they hold the same value. *)
Theorem label_encode_round_trip (v : list (option string)) :
  List.length (label_encode v) = List.length v /\
  NoDup (classes_of (map astype_str v)) /\
  (forall (i : nat) (o : option string),
      nth_error v i = Some o ->
      exists code : nat,
        nth_error (label_encode v) i = Some code /\
        nth_error (classes_of (map astype_str v)) code = Some (astype_str o)) /\
  (forall (i j : nat) (o o' : option string) (c c' : nat),
      nth_error v i = Some o -> nth_error v j = Some o' ->
      nth_error (label_encode v) i = Some c ->
      nth_error (label_encode v) j = Some c' ->
      (c = c' <-> astype_str o = astype_str o')).
Proof.
  assert (Hdecode : forall i o,
             nth_error v i = Some o ->
             nth_error (label_encode v) i
             = Some (index_of (astype_str o) (classes_of (map astype_str v))) /\
             nth_error (classes_of (map astype_str v))
                       (index_of (astype_str o) (classes_of (map astype_str v)))
             = Some (astype_str o)).
  { intros i o Hi. unfold label_encode.
    rewrite nth_error_map, nth_error_map, Hi. cbn. split; [reflexivity|].
    apply index_of_nth, classes_of_In, in_map, (nth_error_In _ i). exact Hi. }
  split; [unfold label_encode; now rewrite !length_map|].
  split; [apply classes_of_NoDup|].
  split.
  - intros i o Hi. destruct (Hdecode i o Hi) as [H1 H2]. eexists. split; eassumption.
  - intros i j o o' c c' Hi Hj Hc Hc'.
    destruct (Hdecode i o Hi) as [H1 H2]. destruct (Hdecode j o' Hj) as [H3 H4].
    rewrite H1 in Hc. rewrite H3 in Hc'.
    injection Hc as <-. injection Hc' as <-.
    split; intro H.
    + rewrite H in H2. rewrite H2 in H4. now injection H4.
    + now rewrite H.
Qed.

(** ** One-hot encoding *)

Lemma nth_map_has_key (k : string) (v : list (option string)) (i : nat)
      (o : option string) :
  nth_error v i = Some o -> nth i (map (has_key k) v) false = has_key k o.
Proof.
  intro Hi. apply nth_error_nth. now rewrite nth_error_map, Hi.
Qed.

(** X18: [get_dummies] makes one indicator column for each value that
    occurs, each as long as the encoded column; in a row with a value
    exactly one indicator is set, in a row without a value none is. *)
Theorem get_dummies_one_hot (prefix : string) (v : list (option string)) :
  List.length (get_dummies prefix v) = List.length (group_keys v) /\
  (forall col, In col (get_dummies prefix v) ->
               List.length (snd col) = List.length v) /\
  (forall (i : nat) (o : option string),
      nth_error v i = Some o ->
      list_sum (map (fun col => if nth i (snd col) false then 1 else 0)%nat
                    (get_dummies prefix v))
      = match o with Some _ => 1 | None => 0 end%nat).
Proof.
  unfold get_dummies.
  split; [apply length_map|].
  split.
  - intros col Hin. apply in_map_iff in Hin. destruct Hin as (k & <- & _).
    cbn. apply length_map.
  - intros i o Hi. rewrite map_map. cbn [snd].
    rewrite (map_ext _ (fun k => if has_key k o then 1 else 0)%nat)
      by (intro k; now rewrite (nth_map_has_key k v i o Hi)).
    destruct o as [k0|].
    + apply count_own_key; [apply group_keys_NoDup|].
      apply group_keys_In, (nth_error_In _ i). exact Hi.
    + cbn [has_key]. apply list_sum_map_zero.
Qed.

(** ** Min-max scaling *)

Lemma nth_error_dropna (v : list num) (i : nat) (x : Q) :
  nth_error v i = Some (Fin x) -> In x (dropna v).
Proof. intro H. apply In_dropna, (nth_error_In _ i). exact H. Qed.

Lemma handle_zero_pos (q : Q) : 0 < handle_zero q.
Proof.
  unfold handle_zero.
  destruct (Qlt_bool q (10 * eps)) eqn:E; [reflexivity|].
  assert (H : 10 * eps <= q).
  { apply Qnot_lt_le. intro H. apply Qlt_bool_iff in H. congruence. }
  assert (He : 0 < 10 * eps) by reflexivity.
  lra.
Qed.

Lemma dropna_map_rnd (rnd : Q -> Q) (v : list num) :
  dropna (map (fun x => match x with Fin q => Fin (rnd q) | NaN => NaN end) v)
  = map rnd (dropna v).
Proof.
  induction v as [|[|x] v IH]; simpl; [reflexivity | exact IH | now rewrite IH].
Qed.

Section Rounding.
Variable rnd : Q -> Q.
Hypothesis rnd_compat : forall x y : Q, x == y -> rnd x == rnd y.
Hypothesis rnd_mono : forall x y : Q, x <= y -> rnd x <= rnd y.
Hypothesis rnd_zero : rnd 0 == 0.
Hypothesis rnd_opp : forall x : Q, rnd (- x) == - rnd x.
Hypothesis rnd_idem : forall x : Q, rnd (rnd x) == rnd x.

(** What the scaler makes of a float [q], for a fitted minimum and
    scale. *)
Lemma scaled_value (lo s q : Q) :
  0 <= s -> lo <= q ->
  0 <= rnd (rnd (q * s) + rnd (0 - rnd (lo * s))) /\
  (q == lo -> rnd (rnd (q * s) + rnd (0 - rnd (lo * s))) == 0).
Proof.
  intros Hs Hq.
  assert (Hm : rnd (0 - rnd (lo * s)) == - rnd (lo * s)).
  { apply Qeq_trans with (rnd (- rnd (lo * s))); [apply rnd_compat; ring|].
    apply Qeq_trans with (- rnd (rnd (lo * s))); [apply rnd_opp|].
    pose proof (rnd_idem (lo * s)) as Hi. lra. }
  split.
  - apply Qle_trans with (rnd 0); [pose proof rnd_zero; lra|].
    apply rnd_mono.
    assert (rnd (lo * s) <= rnd (q * s)) by (apply rnd_mono; nra).
    lra.
  - intro E. apply Qeq_trans with (rnd 0); [|exact rnd_zero].
    apply rnd_compat.
    assert (Hq' : rnd (q * s) == rnd (lo * s))
      by (apply rnd_compat; rewrite E; reflexivity).
    lra.
Qed.

Lemma scaled_mono (s m q q' : Q) :
  0 <= s -> q <= q' ->
  rnd (rnd (q * s) + m) <= rnd (rnd (q' * s) + m).
Proof.
  intros Hs Hq. apply rnd_mono.
  assert (rnd (q * s) <= rnd (q' * s)) by (apply rnd_mono; nra).
  lra.
Qed.

(** X19: min-max scaling, in float arithmetic with any rounding that is
    monotone, symmetric and leaves floats alone: a column without rows is
    refused; otherwise the number of rows is kept, missing values stay
    missing, every value is scaled to a number that is not negative, the
    order of the values is kept, and the smallest value is scaled to
    exactly 0 (so that a constant column becomes a column of zeros). *)
Theorem min_max_scale_spec (v : list num) :
  (min_max_scale rnd v = None <-> v = []) /\
  forall out : list num,
    min_max_scale rnd v = Some out ->
    List.length out = List.length v /\
    (forall i, nth_error v i = Some NaN -> nth_error out i = Some NaN) /\
    (forall i x, nth_error v i = Some (Fin x) ->
                 exists y, nth_error out i = Some (Fin y) /\ 0 <= y) /\
    (forall i j x x' y y',
        nth_error v i = Some (Fin x) -> nth_error v j = Some (Fin x') ->
        nth_error out i = Some (Fin y) -> nth_error out j = Some (Fin y') ->
        x <= x' -> y <= y') /\
    (forall i x y lo,
        nth_error v i = Some (Fin x) -> nth_error out i = Some (Fin y) ->
        series_min v = Fin lo -> x == lo -> y == 0).
Proof.
  split.
  { unfold min_max_scale. destruct v as [|a v]; [tauto|].
    split; [|discriminate]. cbv zeta.
    match goal with
    | |- context [series_min ?l] =>
        destruct (series_min l); [discriminate|]; destruct (series_max l); discriminate
    end. }
  intros out Hout.
  set (X := map (fun x => match x with Fin q => Fin (rnd q) | NaN => NaN end) v).
  assert (Hdef : min_max_scale rnd v
                 = match series_min X, series_max X with
                   | Fin lo, Fin hi =>
                       Some (map (fun x =>
                                    match x with
                                    | Fin q =>
                                        Fin (rnd (rnd (q * rnd (1 / handle_zero (rnd (hi - lo))))
                                                  + rnd (0 - rnd (lo * rnd (1 / handle_zero (rnd (hi - lo)))))))
                                    | NaN => NaN
                                    end) X)
                   | _, _ => Some (map (fun _ => NaN) v)
                   end).
  { destruct v as [|a v0]; [discriminate | reflexivity]. }
  rewrite Hdef in Hout. clear Hdef.
  assert (HX : dropna X = map rnd (dropna v)) by apply dropna_map_rnd.
  destruct (dropna v) as [|d0 ds] eqn:Edrop.
  - (* no value at all *)
    assert (Hnone : forall i x, nth_error v i <> Some (Fin x)).
    { intros i x H. apply nth_error_dropna in H. now rewrite Edrop in H. }
    unfold series_min, series_max in Hout. rewrite HX in Hout.
    injection Hout as <-.
    split; [apply length_map|].
    split; [intros i Hi; now rewrite nth_error_map, Hi|].
    split; [intros i x Hi; now contradiction (Hnone i x)|].
    split; [intros i j x x' y y' Hi; now contradiction (Hnone i x)|].
    intros i x y lo Hi. now contradiction (Hnone i x).
  - assert (Hne : dropna v <> []) by (rewrite Edrop; discriminate).
    assert (HneX : dropna X <> []) by (rewrite HX; discriminate).
    rewrite <- Edrop in HX. clear Edrop d0 ds.
    destruct (series_min_spec X HneX) as (lo & Hlo & Hlo_in & Hlo_le).
    destruct (series_max_spec X HneX) as (hi & Hhi & _ & _).
    rewrite Hlo, Hhi in Hout. injection Hout as <-.
    set (s := rnd (1 / handle_zero (rnd (hi - lo)))).
    assert (Hs : 0 <= s).
    { subst s. apply Qle_trans with (rnd 0); [pose proof rnd_zero; lra|].
      apply rnd_mono.
      apply Qle_shift_div_l; [apply handle_zero_pos | lra]. }
    assert (Hscaled : forall i x,
               nth_error v i = Some (Fin x) ->
               lo <= rnd x /\
               nth_error
                 (map (fun x0 => match x0 with
                                 | Fin q => Fin (rnd (rnd (q * s) + rnd (0 - rnd (lo * s))))
                                 | NaN => NaN
                                 end) X) i
               = Some (Fin (rnd (rnd (rnd x * s) + rnd (0 - rnd (lo * s)))))).
    { intros i x Hi. split.
      - apply Hlo_le. rewrite HX. apply in_map. now apply (nth_error_dropna v i).
      - subst X. now rewrite !nth_error_map, Hi. }
    split; [subst X; now rewrite !length_map|].
    split; [intros i Hi; subst X; now rewrite !nth_error_map, Hi|].
    split; [|split].
    + intros i x Hi. destruct (Hscaled i x Hi) as (H1 & ->).
      eexists. split; [reflexivity|].
      now apply scaled_value.
    + intros i j x x' y y' Hi Hj Hy Hy' Hxx.
      destruct (Hscaled i x Hi) as (_ & E). rewrite E in Hy.
      destruct (Hscaled j x' Hj) as (_ & E'). rewrite E' in Hy'.
      injection Hy as <-. injection Hy' as <-.
      apply scaled_mono; [exact Hs | now apply rnd_mono].
    + intros i x y lo' Hi Hy Hlo' Hx.
      destruct (Hscaled i x Hi) as (H1 & E). rewrite E in Hy.
      injection Hy as <-.
      apply scaled_value; [exact Hs | exact H1 |].
      (* the smallest float is the float of the smallest value *)
      destruct (series_min_spec v Hne) as (m & Hm & Hm_in & Hm_le).
      rewrite Hm in Hlo'. injection Hlo' as <-.
      rewrite HX in Hlo_in. apply in_map_iff in Hlo_in.
      destruct Hlo_in as (x0 & Hx0 & Hx0_in).
      apply Qle_antisym; [|exact H1].
      rewrite <- Hx0.
      apply Qle_trans with (rnd m); [pose proof (rnd_compat x m Hx); lra|].
      apply rnd_mono. now apply Hm_le.
Qed.
End Rounding.

(** The exact arithmetic is one such rounding; with it the column
    10, missing, 20, 15 is scaled to 0, missing, 1, 1/2. *)
Lemma min_max_scale_spec_witness :
  (forall x y : Q, x == y -> x == y) /\
  (forall x y : Q, x <= y -> x <= y) /\
  0 == 0 /\
  (forall x : Q, - x == - x) /\
  (forall x : Q, x == x) /\
  Forall2 num_eq
          (match min_max_scale (fun q => q) billing with Some out => out | None => [] end)
          [Fin 0; NaN; Fin 1; Fin (1 # 2)] /\
  forall out : list num,
    min_max_scale (fun q => q) billing = Some out ->
    forall (i : nat) (x y lo : Q),
      nth_error billing i = Some (Fin x) -> nth_error out i = Some (Fin y) ->
      series_min billing = Fin lo -> x == lo -> y == 0.
Proof.
  assert (H1 : forall x y : Q, x == y -> x == y) by auto.
  assert (H2 : forall x y : Q, x <= y -> x <= y) by auto.
  assert (H3 : 0 == 0) by reflexivity.
  assert (H4 : forall x : Q, - x == - x) by (intro; reflexivity).
  assert (H5 : forall x : Q, x == x) by (intro; reflexivity).
  repeat (split; [assumption|]).
  split; [vm_compute; repeat constructor|].
  intros out Hout.
  exact (proj2 (proj2 (proj2 (proj2
           (proj2 (min_max_scale_spec (fun q => q) H1 H2 H3 H4 H5 billing) out Hout))))).
Defined.

(** ** Dropping rows with a missing value *)

Lemma select_map_length {A B : Type} (p : A -> bool) (v : list A) (l : list B) :
  List.length l = List.length v ->
  List.length (select (map p v) l) = List.length (filter p v).
Proof.
  revert l. induction v as [|x v IH]; intros [|y l] Hlen;
    simpl in *; try discriminate; [reflexivity|].
  injection Hlen as Hlen. destruct (p x); simpl; now rewrite IH.
Qed.

Lemma select_map_filter {A : Type} (p q : A -> bool) (v : list A) :
  (forall x, p x = true -> q x = false) ->
  filter q (select (map p v) v) = [].
Proof.
  intro H. induction v as [|x v IH]; simpl; [reflexivity|].
  destruct (p x) eqn:E; simpl; [|exact IH].
  now rewrite (H x E).
Qed.

Lemma filter_split_length {A : Type} (p : A -> bool) (v : list A) :
  (List.length (filter p v) + List.length (filter (fun x => negb (p x)) v)
   = List.length v)%nat.
Proof.
  induction v as [|x v IH]; simpl; [reflexivity|].
  destruct (p x); simpl; lia.
Qed.

Lemma notna_length (s : Series) : List.length (notna s) = series_len s.
Proof. destruct s; simpl; apply length_map. Qed.

Lemma notna_kept (s : Series) :
  count_missing (series_select (notna s) s) = 0%nat /\
  (series_len (series_select (notna s) s) + count_missing s = series_len s)%nat.
Proof.
  destruct s as [v|v|v|v]; cbn [notna series_select count_missing series_len].
  - split.
    + rewrite select_map_filter; [reflexivity|]. intros [|x]; [discriminate | reflexivity].
    + rewrite select_map_length by reflexivity.
      rewrite (filter_ext (fun x => match x with NaN => true | Fin _ => false end)
                          (fun x => negb match x with NaN => false | Fin _ => true end))
        by (now intros [|x]).
      apply filter_split_length.
  - split.
    + rewrite select_map_filter; [reflexivity|]. intros [x|]; [reflexivity | discriminate].
    + rewrite select_map_length by reflexivity.
      rewrite (filter_ext (fun x => match x with None => true | Some _ => false end)
                          (fun x => negb match x with None => false | Some _ => true end))
        by (now intros [x|]).
      apply filter_split_length.
  - split.
    + rewrite select_map_filter; [reflexivity|]. intros [x|]; [reflexivity | discriminate].
    + rewrite select_map_length by reflexivity.
      rewrite (filter_ext (fun x => match x with None => true | Some _ => false end)
                          (fun x => negb match x with None => false | Some _ => true end))
        by (now intros [x|]).
      apply filter_split_length.
  - split; [reflexivity|].
    rewrite select_map_length by reflexivity.
    rewrite Nat.add_0_r. clear. induction v as [|b v IH]; simpl; [reflexivity|].
    now rewrite IH.
Qed.

(** X20: dropping the rows with a missing value in a column, on a table
    whose columns have one length, leaves that column without a missing
    value, takes away exactly as many rows as the column had missing
    values, and keeps the columns at one length; an unknown column is
    refused. *)
Theorem dropna_subset_spec (col : string) (df : DataFrame) :
  (dropna_subset col df = None <-> get_col df col = None) /\
  (well_formed df = true ->
   forall s : Series,
     get_col df col = Some s ->
     exists (t : DataFrame) (s' : Series),
       dropna_subset col df = Some t /\
       get_col t col = Some s' /\
       count_missing s' = 0%nat /\
       (len t + count_missing s = len df)%nat /\
       well_formed t = true).
Proof.
  unfold dropna_subset. split.
  - destruct (get_col df col); split; congruence.
  - intros Hwf s Hcol. rewrite Hcol.
    exists (loc_rows (notna s) df), (series_select (notna s) s).
    pose proof (get_col_len df col s Hwf Hcol) as Hlen.
    destruct (notna_kept s) as [Hnone Hcount].
    split; [reflexivity|].
    split; [now rewrite get_col_loc_rows, Hcol|].
    split; [exact Hnone|].
    split; [|now apply loc_rows_well_formed].
    assert (Hwf' : well_formed (loc_rows (notna s) df) = true)
      by now apply loc_rows_well_formed.
    assert (Hcol' : get_col (loc_rows (notna s) df) col
                    = Some (series_select (notna s) s))
      by now rewrite get_col_loc_rows, Hcol.
    rewrite <- (get_col_len _ col _ Hwf' Hcol'). lia.
Qed.

Lemma dropna_subset_spec_witness :
  well_formed intake = true /\
  get_col intake "age" = Some (Numeric [Fin 30; Fin 41; NaN]) /\
  exists (t : DataFrame) (s' : Series),
    dropna_subset "age" intake = Some t /\
    get_col t "age" = Some s' /\
    count_missing s' = 0%nat /\
    (len t + count_missing (Numeric [Fin 30; Fin 41; NaN]) = len intake)%nat /\
    well_formed t = true.
Proof.
  split; [reflexivity|]. split; [reflexivity|].
  exact (proj2 (dropna_subset_spec "age" intake) eq_refl
               (Numeric [Fin 30; Fin 41; NaN]) eq_refl).
Defined.

(** ** The length-of-stay columns *)

Lemma find_los_cols_snoc (cols : list string) (c : string) :
  find_los_cols (cols ++ [c])
  = if is_admission_date c then (Some c, snd (find_los_cols cols))
    else if is_discharge_date c then (fst (find_los_cols cols), Some c)
         else find_los_cols cols.
Proof.
  unfold find_los_cols. rewrite fold_left_app. cbn [fold_left].
  unfold is_discharge_date, is_admission_date.
  destruct (contains "admission" (lower c) && contains "date" (lower c));
    [reflexivity|].
  cbn [negb andb].
  destruct (contains "discharge" (lower c) && contains "date" (lower c));
    reflexivity.
Qed.

Lemma is_discharge_not_admission (c : string) :
  is_discharge_date c = true -> is_admission_date c = false.
Proof.
  unfold is_discharge_date. destruct (is_admission_date c); [discriminate | reflexivity].
Qed.

Lemma last_match_admission (cols : list string) :
  match fst (find_los_cols cols) with
  | None => forall c, In c cols -> is_admission_date c = false
  | Some a =>
      exists l1 l2, cols = l1 ++ a :: l2 /\ is_admission_date a = true /\
                    forall c, In c l2 -> is_admission_date c = false
  end.
Proof.
  induction cols as [|c cols IH] using rev_ind.
  - cbn. tauto.
  - rewrite find_los_cols_snoc.
    destruct (is_admission_date c) eqn:Ea; cbn [fst].
    + exists cols, []. repeat split; [exact Ea | intros ? []].
    + assert (Hfst : fst (if is_discharge_date c
                          then (fst (find_los_cols cols), Some c)
                          else find_los_cols cols) = fst (find_los_cols cols))
        by (destruct (is_discharge_date c); reflexivity).
      rewrite Hfst. destruct (fst (find_los_cols cols)) as [a|].
      * destruct IH as (l1 & l2 & -> & Ha & Hl2).
        exists l1, (l2 ++ [c]). split; [now rewrite <- app_assoc|].
        split; [exact Ha|]. intros c' Hin. apply in_app_or in Hin.
        destruct Hin as [Hin|[<-|[]]]; [now apply Hl2 | exact Ea].
      * intros c' Hin. apply in_app_or in Hin.
        destruct Hin as [Hin|[<-|[]]]; [now apply IH | exact Ea].
Qed.

Lemma last_match_discharge (cols : list string) :
  match snd (find_los_cols cols) with
  | None => forall c, In c cols -> is_discharge_date c = false
  | Some d =>
      exists l1 l2, cols = l1 ++ d :: l2 /\ is_discharge_date d = true /\
                    forall c, In c l2 -> is_discharge_date c = false
  end.
Proof.
  induction cols as [|c cols IH] using rev_ind.
  - cbn. tauto.
  - rewrite find_los_cols_snoc.
    destruct (is_admission_date c) eqn:Ea; cbn [snd].
    + assert (Ed : is_discharge_date c = false)
        by (unfold is_discharge_date; now rewrite Ea).
      destruct (snd (find_los_cols cols)) as [d|].
      * destruct IH as (l1 & l2 & -> & Hd & Hl2).
        exists l1, (l2 ++ [c]). split; [now rewrite <- app_assoc|].
        split; [exact Hd|]. intros c' Hin. apply in_app_or in Hin.
        destruct Hin as [Hin|[<-|[]]]; [now apply Hl2 | exact Ed].
      * intros c' Hin. apply in_app_or in Hin.
        destruct Hin as [Hin|[<-|[]]]; [now apply IH | exact Ed].
    + destruct (is_discharge_date c) eqn:Ed; cbn [snd].
      * exists cols, []. repeat split; [exact Ed | intros ? []].
      * destruct (snd (find_los_cols cols)) as [d|].
        -- destruct IH as (l1 & l2 & -> & Hd & Hl2).
           exists l1, (l2 ++ [c]). split; [now rewrite <- app_assoc|].
           split; [exact Hd|]. intros c' Hin. apply in_app_or in Hin.
           destruct Hin as [Hin|[<-|[]]]; [now apply Hl2 | exact Ed].
        -- intros c' Hin. apply in_app_or in Hin.
           destruct Hin as [Hin|[<-|[]]]; [now apply IH | exact Ed].
Qed.

(** X21: the search for the length-of-stay columns answers the last
    column whose lower-cased name holds 'admission' and 'date', and the
    last column whose name holds 'discharge' and 'date' without being an
    admission date; it answers none exactly when no column qualifies, and
    the two answers are never the same column name. *)
Theorem find_los_cols_last_match (cols : list string) :
  (fst (find_los_cols cols) = None <->
   forall c, In c cols -> is_admission_date c = false) /\
  (snd (find_los_cols cols) = None <->
   forall c, In c cols -> is_discharge_date c = false) /\
  (forall a, fst (find_los_cols cols) = Some a ->
             exists l1 l2, cols = l1 ++ a :: l2 /\ is_admission_date a = true /\
                           forall c, In c l2 -> is_admission_date c = false) /\
  (forall d, snd (find_los_cols cols) = Some d ->
             exists l1 l2, cols = l1 ++ d :: l2 /\ is_discharge_date d = true /\
                           forall c, In c l2 -> is_discharge_date c = false) /\
  (forall a d, find_los_cols cols = (Some a, Some d) -> a <> d).
Proof.
  pose proof (last_match_admission cols) as Ha.
  pose proof (last_match_discharge cols) as Hd.
  destruct (find_los_cols cols) as [[a|] [d|]]; cbn [fst snd] in *.
  - split; [split; [discriminate|]|].
    { intro H. destruct Ha as (l1 & l2 & -> & Ha & _).
      rewrite H in Ha; [discriminate | apply in_elt]. }
    split; [split; [discriminate|]|].
    { intro H. destruct Hd as (l1 & l2 & -> & Hd & _).
      rewrite H in Hd; [discriminate | apply in_elt]. }
    split; [intros a' E; now injection E as <-|].
    split; [intros d' E; now injection E as <-|].
    intros a' d' E. injection E as <- <-. intros ->.
    destruct Ha as (_ & _ & _ & Ha & _). destruct Hd as (_ & _ & _ & Hd & _).
    apply is_discharge_not_admission in Hd. congruence.
  - split; [split; [discriminate|]|].
    { intro H. destruct Ha as (l1 & l2 & -> & Ha & _).
      rewrite H in Ha; [discriminate | apply in_elt]. }
    split; [tauto|].
    split; [intros a' E; now injection E as <-|].
    split; discriminate.
  - split; [tauto|].
    split; [split; [discriminate|]|].
    { intro H. destruct Hd as (l1 & l2 & -> & Hd & _).
      rewrite H in Hd; [discriminate | apply in_elt]. }
    split; [discriminate|].
    split; [intros d' E; now injection E as <-|].
    discriminate.
  - split; [tauto|]. split; [tauto|].
    split; [discriminate|]. split; discriminate.
Qed.

(** ** Length of stay *)

(** X22: the length of stay of a row with both dates is the whole number
    of days [n] with [n] days <= discharge - admission < [n + 1] days: it
    is 0 or more exactly when the discharge is not before the admission,
    and a discharge any time before the admission gives a negative length;
    a row with a missing date has no length of stay. *)
Theorem days_between_spec (d a : list (option Z)) (out : list num) :
  days_between d a = Numeric out ->
  (forall (i : nat) (x y : Z),
      nth_error d i = Some (Some x) -> nth_error a i = Some (Some y) ->
      exists n : Z,
        nth_error out i = Some (Fin (inject_Z n)) /\
        (n * ns_per_day <= x - y < (n + 1) * ns_per_day)%Z /\
        (0 <= n <-> y <= x)%Z) /\
  (forall (i : nat) (x y : option Z),
      nth_error d i = Some x -> nth_error a i = Some y ->
      x = None \/ y = None -> nth_error out i = Some NaN).
Proof.
  unfold days_between. intro H. injection H as <-.
  assert (Hnth : forall i x y,
             nth_error d i = Some x -> nth_error a i = Some y ->
             nth_error (combine d a) i = Some (x, y)).
  { clear. revert a. induction d as [|x0 d IH]; intros [|y0 a] [|i] x y Hx Hy;
      simpl in *; try discriminate.
    - injection Hx as <-. injection Hy as <-. reflexivity.
    - now apply IH. }
  split.
  - intros i x y Hx Hy. rewrite nth_error_map, (Hnth i _ _ Hx Hy). cbn.
    exists ((x - y) / ns_per_day)%Z. split; [reflexivity|].
    assert (Hpos : (0 < ns_per_day)%Z) by reflexivity.
    pose proof (Z.div_mod (x - y) ns_per_day ltac:(lia)).
    pose proof (Z.mod_pos_bound (x - y) ns_per_day Hpos).
    split; [lia|].
    split; intro Hn.
    + nia.
    + apply Z.div_pos; lia.
  - intros i x y Hx Hy Hmiss. rewrite nth_error_map, (Hnth i _ _ Hx Hy). cbn.
    destruct Hmiss as [-> | ->]; [reflexivity|]. now destruct x.
Qed.

Lemma days_between_spec_witness :
  days_between [Some 86400000000000%Z; None] [Some 172800000000000%Z; Some 0%Z]
  = Numeric [Fin (inject_Z (-1)); NaN] /\
  exists n : Z,
    nth_error [Fin (inject_Z (-1)); NaN] 0 = Some (Fin (inject_Z n)) /\
    (n * ns_per_day <= 86400000000000 - 172800000000000 < (n + 1) * ns_per_day)%Z /\
    (0 <= n <-> 172800000000000 <= 86400000000000)%Z.
Proof.
  split; [reflexivity|].
  exact (proj1 (days_between_spec
                  [Some 86400000000000%Z; None]
                  [Some 172800000000000%Z; Some 0%Z]
                  [Fin (inject_Z (-1)); NaN] eq_refl)
               0%nat 86400000000000%Z 172800000000000%Z eq_refl eq_refl).
Defined.

(** ** Date features *)

Lemma append_inj (c a b : string) : (c ++ a)%string = (c ++ b)%string -> a = b.
Proof.
  induction c as [|x c IH]; simpl; [tauto|].
  intro H. injection H as H. now apply IH.
Qed.

Lemma suffix_neq (c a b : string) : a <> b -> (c ++ a)%string <> (c ++ b)%string.
Proof. intros Hne H. apply Hne. exact (append_inj c a b H). Qed.

Section DateFeatures.
Variable lib : externals.

(** The table the five assignments leave. *)
Lemma extract_fields_result (d : DataFrame) (col : string) (v : list (option Z)) :
  get_col d col = Some (Datetime v) ->
  extract_fields lib col d
  = (set_col
       (set_col
          (set_col
             (set_col
                (set_col d (col ++ "_year") (dt_field (dt_year lib) v))
                (col ++ "_month") (dt_field (dt_month lib) v))
             (col ++ "_day") (dt_field (dt_day lib) v))
          (col ++ "_weekday") (dt_field (dt_dayofweek lib) v))
       (col ++ "_quarter") (dt_field (dt_quarter lib) v),
     Some tt).
Proof.
  intro H0. unfold extract_fields, extract_field, bind, column, lift, assign.
  rewrite H0. cbn [dt_values].
  rewrite !get_set_col_other by (apply append_suffix_neq; discriminate).
  rewrite H0. cbn [dt_values].
  rewrite !get_set_col_other by (apply append_suffix_neq; discriminate).
  rewrite H0. cbn [dt_values].
  rewrite !get_set_col_other by (apply append_suffix_neq; discriminate).
  rewrite H0. cbn [dt_values].
  rewrite !get_set_col_other by (apply append_suffix_neq; discriminate).
  rewrite H0. reflexivity.
Qed.

Lemma date_features_body_result (d : DataFrame) (col : string) (s : Series)
      (v : list (option Z)) :
  get_col d col = Some s ->
  to_datetime lib s = Some v ->
  exists d0 : DataFrame,
    date_features_body lib col d
    = (set_col
         (set_col
            (set_col
               (set_col
                  (set_col d0 (col ++ "_year") (dt_field (dt_year lib) v))
                  (col ++ "_month") (dt_field (dt_month lib) v))
               (col ++ "_day") (dt_field (dt_day lib) v))
            (col ++ "_weekday") (dt_field (dt_dayofweek lib) v))
         (col ++ "_quarter") (dt_field (dt_quarter lib) v),
       Some tt) /\
    get_col d0 col = Some (Datetime v) /\
    forall c, c <> col -> get_col d0 c = get_col d c.
Proof.
  intros Hcol Hv. unfold date_features_body, bind, column.
  rewrite Hcol.
  destruct (is_datetime s) eqn:Edt.
  - destruct s as [w|w|w|w]; try discriminate.
    cbn in Hv. injection Hv as ->. unfold ret.
    exists d. rewrite (extract_fields_result d col v Hcol).
    split; [reflexivity|]. split; [exact Hcol | reflexivity].
  - unfold lift. rewrite Hv. cbn [assign].
    exists (set_col d col (Datetime v)).
    rewrite (extract_fields_result _ col v (get_set_col_same d col _)).
    split; [reflexivity|]. split; [apply get_set_col_same|].
    intros c Hc. apply get_set_col_other. congruence.
Qed.

(** X23: on a table the assessment accepts, a successful 'Extract Date
    Features' stores a table in which the chosen column is a datetime
    column, the five columns [_year], [_month], [_day], [_weekday] and
    [_quarter] hold its fields, and every other column is as it was in
    the uploaded table. *)
Theorem date_features_success
        (ss : SessionState) (df : DataFrame) (col : string) (s : Series)
        (v : list (option Z)) :
  healthcare_data ss = Some df ->
  assessment_raises df = false ->
  get_col df col = Some s ->
  mem col (date_cols_of df) = true ->
  col <> EmptyString ->
  to_datetime lib s = Some v ->
  let r := preprocessing_page lib (Some (btn_extract_date_features col)) ss in
  how r = rerun /\
  messages r = [success_date_features col] /\
  exists t : DataFrame,
    healthcare_data_processed (final r) = Some t /\
    get_col t col = Some (Datetime v) /\
    get_col t (col ++ "_year") = Some (dt_field (dt_year lib) v) /\
    get_col t (col ++ "_month") = Some (dt_field (dt_month lib) v) /\
    get_col t (col ++ "_day") = Some (dt_field (dt_day lib) v) /\
    get_col t (col ++ "_weekday") = Some (dt_field (dt_dayofweek lib) v) /\
    get_col t (col ++ "_quarter") = Some (dt_field (dt_quarter lib) v) /\
    forall c : string,
      c <> col ->
      ~ In c [col ++ "_year"; col ++ "_month"; col ++ "_day";
              col ++ "_weekday"; col ++ "_quarter"]%string ->
      get_col t c = get_col df c.
Proof.
  intros Hdata Hacc Hcol Hmem Hne Hv r. subst r.
  unfold preprocessing_page. rewrite Hdata. unfold then_block.
  rewrite assessment_block_passes by exact Hacc.
  rewrite duplicates_block_passes by discriminate.
  cbn [convert_date_block outlier_block].
  unfold date_features_block. cbn [data]. rewrite Hmem.
  assert (Hneb : String.eqb col "" = false) by now apply String.eqb_neq.
  rewrite Hneb. cbn [negb andb]. unfold try_except. cbn [data].
  destruct (date_features_body_result df col s v Hcol Hv)
    as (d0 & -> & Hd0 & Hother).
  cbn. split; [reflexivity|]. split; [reflexivity|].
  eexists. split; [reflexivity|].
  split.
  { rewrite !get_set_col_other by (apply append_suffix_neq; discriminate).
    exact Hd0. }
  split.
  { rewrite !(get_set_col_other _ _ (col ++ "_year"))
      by (apply suffix_neq; discriminate).
    apply get_set_col_same. }
  split.
  { rewrite !(get_set_col_other _ _ (col ++ "_month"))
      by (apply suffix_neq; discriminate).
    apply get_set_col_same. }
  split.
  { rewrite !(get_set_col_other _ _ (col ++ "_day"))
      by (apply suffix_neq; discriminate).
    apply get_set_col_same. }
  split.
  { rewrite !(get_set_col_other _ _ (col ++ "_weekday"))
      by (apply suffix_neq; discriminate).
    apply get_set_col_same. }
  split; [apply get_set_col_same|].
  intros c Hc Hnotin. cbn [In] in Hnotin.
  rewrite !get_set_col_other by (intro E; apply Hnotin; rewrite E; tauto).
  now apply Hother.
Qed.
End DateFeatures.

Lemma date_features_success_witness :
  healthcare_data (mkSession (Some admissions) None) = Some admissions /\
  assessment_raises admissions = false /\
  get_col admissions "date_of_admission"
  = Some (Numeric [Fin (inject_Z 1704412800000000000);
                   Fin (inject_Z 1707523200000000000)]) /\
  mem "date_of_admission" (date_cols_of admissions) = true /\
  "date_of_admission"%string <> EmptyString /\
  to_datetime sample_lib
              (Numeric [Fin (inject_Z 1704412800000000000);
                        Fin (inject_Z 1707523200000000000)])
  = Some [Some 1704412800000000000%Z; Some 1707523200000000000%Z] /\
  how (preprocessing_page sample_lib
                          (Some (btn_extract_date_features "date_of_admission"))
                          (mkSession (Some admissions) None)) = rerun.
Proof.
  assert (Hne : "date_of_admission"%string <> EmptyString) by discriminate.
  split; [reflexivity|]. split; [reflexivity|]. split; [reflexivity|].
  split; [reflexivity|]. split; [exact Hne|]. split; [reflexivity|].
  exact (proj1 (date_features_success
                  sample_lib (mkSession (Some admissions) None) admissions
                  "date_of_admission"
                  (Numeric [Fin (inject_Z 1704412800000000000);
                            Fin (inject_Z 1707523200000000000)])
                  [Some 1704412800000000000%Z; Some 1707523200000000000%Z]
                  eq_refl eq_refl eq_refl eq_refl Hne eq_refl)).
Defined.

(** ** Quantiles and the extreme values *)

Lemma sorted_values_In (s : list num) (x : Q) :
  In x (sorted_values s) <-> In x (dropna s).
Proof.
  unfold sorted_values.
  split; apply Permutation_in; [apply Permutation_sym|]; apply sort_perm.
Qed.

Lemma quantile_within (s : list num) (q : Q) :
  0 <= q -> q <= 1 -> dropna s <> [] ->
  exists lo x hi : Q,
    series_min s = Fin lo /\ quantile s q = Fin x /\ series_max s = Fin hi /\
    In lo (dropna s) /\ In hi (dropna s) /\ lo <= x /\ x <= hi.
Proof.
  intros H0 H1 Hne.
  destruct (series_min_spec s Hne) as (lo & Hlo & Hlo_in & Hlo_le).
  destruct (series_max_spec s Hne) as (hi & Hhi & Hhi_in & Hhi_le).
  rewrite (quantile_value s q Hne).
  exists lo. eexists. exists hi.
  split; [exact Hlo|]. split; [reflexivity|]. split; [exact Hhi|].
  split; [exact Hlo_in|]. split; [exact Hhi_in|].
  pose proof (last_pos_nonneg s Hne) as Hn.
  assert (Hlen : (0 < List.length (sorted_values s))%nat).
  { rewrite sorted_values_length. destruct (dropna s); [congruence | simpl; lia]. }
  set (v := sorted_values s) in *.
  set (n1 := inject_Z (Z.of_nat (List.length v) - 1)) in *.
  assert (Hp0 : 0 <= n1 * q) by (apply Qmult_le_0_compat; assumption).
  assert (Hp1 : n1 * q <= n1).
  { assert (0 <= n1 * (1 - q)) by (apply Qmult_le_0_compat; lra). lra. }
  pose proof (sort_Q_sorted (dropna s)) as Hsorted. fold (sorted_values s) in Hsorted.
  fold v in Hsorted.
  pose proof (interpolate_lo v Hsorted Hlen (n1 * q) Hp0 Hp1) as Hl.
  pose proof (interpolate_hi v Hsorted Hlen (n1 * q) Hp0 Hp1) as Hh.
  destruct (floor_in_range v Hlen (n1 * q) Hp0 Hp1) as [_ Hidx].
  split.
  - eapply Qle_trans; [|exact Hl]. apply Hlo_le, sorted_values_In.
    fold v. apply nth_In. exact Hidx.
  - eapply Qle_trans; [exact Hh|]. apply Hhi_le, sorted_values_In.
    fold v. apply nth_In. lia.
Qed.

(** X24: for a column with a value, every quantile between the 0 and the
    1 quantile is a number between the column's minimum and maximum; for a
    column without a value it is not a number. *)
Theorem quantile_between_min_and_max (s : list num) (q : Q) :
  0 <= q -> q <= 1 ->
  (dropna s = [] -> quantile s q = NaN) /\
  (dropna s <> [] ->
   exists lo x hi : Q,
     series_min s = Fin lo /\ quantile s q = Fin x /\ series_max s = Fin hi /\
     lo <= x /\ x <= hi).
Proof.
  intros H0 H1. split; [apply quantile_empty|].
  intro Hne.
  destruct (quantile_within s q H0 H1 Hne) as (lo & x & hi & A & B & C & _ & _ & D & E).
  exists lo, x, hi. auto.
Qed.

Lemma quantile_between_min_and_max_witness :
  0 <= 1 # 4 /\ 1 # 4 <= 1 /\ dropna ages <> [] /\
  exists lo x hi : Q,
    series_min ages = Fin lo /\ quantile ages (1 # 4) = Fin x /\
    series_max ages = Fin hi /\ lo <= x /\ x <= hi.
Proof.
  assert (H0 : 0 <= 1 # 4) by lra.
  assert (H1 : 1 # 4 <= 1) by lra.
  assert (Hne : dropna ages <> []) by discriminate.
  split; [exact H0|]. split; [exact H1|]. split; [exact Hne|].
  exact (proj2 (quantile_between_min_and_max ages (1 # 4) H0 H1) Hne).
Defined.

Lemma mask_sum_none {A : Type} (p : A -> bool) (l : list A) :
  (forall x, In x l -> p x = false) -> mask_sum (map p l) = 0%nat.
Proof.
  intro H. rewrite mask_sum_filter.
  induction l as [|x l IH]; simpl; [reflexivity|].
  rewrite (H x) by now left. apply IH. intros y Hy. apply H. now right.
Qed.

Lemma num_ltb_false_intro (a b : num) : ~ num_lt a b -> num_ltb a b = false.
Proof.
  intro H. destruct (num_ltb a b) eqn:E; [|reflexivity].
  apply num_ltb_lt in E. contradiction.
Qed.

(** X25: a column whose values are all the same number has no
    outliers; its quartiles are that number and its IQR is 0. *)
Theorem constant_column_has_no_outliers (s : list num) (c : Q) :
  (forall x, In (Fin x) s -> x == c) ->
  outlier_count s = 0%nat /\
  (dropna s <> [] ->
   num_eq (Q1 s) (Fin c) /\ num_eq (Q3 s) (Fin c) /\ num_eq (IQR s) (Fin 0)).
Proof.
  intro Hconst.
  assert (Hq : forall q, 0 <= q -> q <= 1 -> dropna s <> [] ->
                         exists x, quantile s q = Fin x /\ x == c).
  { intros q H0 H1 Hne.
    destruct (quantile_within s q H0 H1 Hne)
      as (lo & x & hi & _ & Hx & _ & Hlo & Hhi & H2 & H3).
    exists x. split; [exact Hx|].
    apply In_dropna, Hconst in Hlo. apply In_dropna, Hconst in Hhi. lra. }
  destruct (dropna s) as [|d0 ds] eqn:Edrop.
  - split; [|congruence].
    unfold outlier_count, outliers_mask, lower_bound, upper_bound, IQR, Q1, Q3.
    rewrite !(quantile_empty s _ Edrop). cbn.
    apply mask_sum_none. intros [|x] _; reflexivity.
  - assert (Hne : d0 :: ds <> []) by discriminate.
    destruct (Hq (1 # 4) ltac:(lra) ltac:(lra) Hne) as (q1 & Hq1 & Hc1).
    destruct (Hq (3 # 4) ltac:(lra) ltac:(lra) Hne) as (q3 & Hq3 & Hc3).
    split.
    + unfold outlier_count, outliers_mask, lower_bound, upper_bound, IQR, Q1, Q3.
      rewrite Hq1, Hq3. cbn [num_sub num_add num_mul num_lift2].
      apply mask_sum_none. intros [|x] Hin; [reflexivity|].
      pose proof (Hconst x Hin) as Hx.
      apply orb_false_iff. unfold num_gtb.
      split; apply num_ltb_false_intro; simpl; lra.
    + intros _. unfold IQR, Q1, Q3. rewrite Hq1, Hq3. simpl.
      repeat split; lra.
Qed.

(** ** Rates are percentages *)

Lemma filter_and_length_le {A : Type} (p q : A -> bool) (l : list A) :
  (List.length (filter (fun x => p x && q x) l) <= List.length (filter p l))%nat.
Proof.
  induction l as [|x l IH]; simpl; [lia|].
  destruct (p x), (q x); simpl; lia.
Qed.

Lemma percentage_range (a n : nat) :
  (0 < n)%nat -> (a <= n)%nat ->
  0 <= Qnat a / Qnat n * 100 /\ Qnat a / Qnat n * 100 <= 100.
Proof.
  intros Hn Ha.
  destruct (ratio_range a n Hn Ha) as (q & Hq & H0 & H1 & _).
  destruct n as [|n']; [lia|]. cbn [ratio] in Hq. injection Hq as <-.
  split; lra.
Qed.

(** X26: every rate of the risk-rate aggregation is a number between 0
    and 100; the overall abnormal percentage is a number between 0 and 100
    for a column with a row, and not a number for a column without
    rows. *)
Theorem risk_rates_are_percentages (keys outcomes : list (option string)) :
  List.length keys = List.length outcomes ->
  (forall (g : string) (r : num),
      In (g, r) (risk_analysis keys outcomes) ->
      exists x : Q, r = Fin x /\ 0 <= x /\ x <= 100) /\
  (outcomes = [] -> abnormal_pct outcomes = NaN) /\
  (outcomes <> [] ->
   exists p : Q, abnormal_pct outcomes = Fin p /\ 0 <= p /\ p <= 100).
Proof.
  intro Hlen. split; [|split].
  - intros g r Hin. apply risk_analysis_In in Hin; [|exact Hlen].
    destruct Hin as [Hg ->]. unfold group_rate. eexists. split; [reflexivity|].
    apply percentage_range.
    + now apply group_size_pos.
    + unfold group_abnormal, group_size. apply filter_and_length_le.
  - intros ->. reflexivity.
  - intro Hne. unfold abnormal_pct, abnormal_rate.
    rewrite mean_bool_value
      by (rewrite length_map; destruct outcomes; [congruence | simpl; lia]).
    cbn. eexists. split; [reflexivity|].
    apply percentage_range.
    + rewrite length_map. destruct outcomes; [congruence | simpl; lia].
    + apply mask_sum_le.
Qed.

Lemma risk_rates_are_percentages_witness :
  List.length conditions = List.length test_results /\
  (forall (g : string) (r : num),
      In (g, r) (risk_analysis conditions test_results) ->
      exists x : Q, r = Fin x /\ 0 <= x /\ x <= 100).
Proof.
  split; [reflexivity|].
  exact (proj1 (risk_rates_are_percentages conditions test_results eq_refl)).
Defined.

Lemma constant_column_has_no_outliers_witness :
  (forall x, In (Fin x) [Fin 5; Fin 5; NaN; Fin 5] -> x == 5) /\
  outlier_count [Fin 5; Fin 5; NaN; Fin 5] = 0%nat /\
  num_eq (IQR [Fin 5; Fin 5; NaN; Fin 5]) (Fin 0).
Proof.
  assert (H : forall x, In (Fin x) [Fin 5; Fin 5; NaN; Fin 5] -> x == 5).
  { intros x [E|[E|[E|[E|[]]]]]; try discriminate; injection E as <-; reflexivity. }
  split; [exact H|].
  destruct (constant_column_has_no_outliers [Fin 5; Fin 5; NaN; Fin 5] 5 H)
    as (Hcount & Hq).
  split; [exact Hcount|].
  apply Hq. discriminate.
Defined.

(** ** The bounds do not depend on the order of the rows *)

Lemma Qle_bool_compat (x x' y y' : Q) :
  x == x' -> y == y' -> Qle_bool x y = Qle_bool x' y'.
Proof.
  intros Hx Hy.
  destruct (Qle_bool_spec x y) as [[-> H]|[-> H]];
    destruct (Qle_bool_spec x' y') as [[-> H']|[-> H']];
    try reflexivity; exfalso; rewrite Hx, Hy in H; lra.
Qed.

Lemma insert_map_Qred (x : Q) (l : list Q) :
  map Qred (insert Qle_bool x l) = insert Qle_bool (Qred x) (map Qred l).
Proof.
  induction l as [|y l IH]; simpl; [reflexivity|].
  rewrite (Qle_bool_compat (Qred x) x (Qred y) y) by apply Qred_correct.
  destruct (Qle_bool x y); simpl; [reflexivity | now rewrite IH].
Qed.

Lemma sort_map_Qred (l : list Q) :
  map Qred (sort Qle_bool l) = sort Qle_bool (map Qred l).
Proof.
  induction l as [|x l IH]; simpl; [reflexivity|].
  now rewrite insert_map_Qred, IH.
Qed.

(** Two sorted lists with the same elements are the same list, when the
    order is antisymmetric on these elements. *)
Lemma sorted_perm_unique {A : Type} (le : A -> A -> Prop) (l1 l2 : list A) :
  (forall x y, In x l1 -> In y l1 -> le x y -> le y x -> x = y) ->
  StronglySorted le l1 -> StronglySorted le l2 -> Permutation l1 l2 ->
  l1 = l2.
Proof.
  revert l2. induction l1 as [|a l1 IH]; intros l2 Hanti H1 H2 Hperm.
  - now apply Permutation_nil in Hperm.
  - destruct l2 as [|b l2];
      [apply Permutation_sym, Permutation_nil in Hperm; discriminate|].
    inversion H1 as [|? ? S1 F1]; subst. inversion H2 as [|? ? S2 F2]; subst.
    rewrite Forall_forall in F1, F2.
    assert (Hab : a = b).
    { assert (Hb : In b (a :: l1))
        by (apply (Permutation_in _ (Permutation_sym Hperm)); now left).
      assert (Ha : In a (b :: l2)) by (apply (Permutation_in _ Hperm); now left).
      destruct Hb as [Hb|Hb]; [exact Hb|].
      destruct Ha as [Ha|Ha]; [now symmetry|].
      apply Hanti; [now left | now right | now apply F1 | now apply F2]. }
    subst b. f_equal. apply IH; try assumption.
    + intros x y Hx Hy. apply Hanti; now right.
    + now apply Permutation_cons_inv in Hperm.
Qed.

Lemma sorted_canonical_perm (l l' : list Q) :
  Permutation l l' ->
  map Qred (sort Qle_bool l) = map Qred (sort Qle_bool l').
Proof.
  intro Hperm. rewrite !sort_map_Qred.
  apply (sorted_perm_unique Qle).
  - intros x y Hx Hy Hxy Hyx.
    apply (Permutation_in _ (Permutation_sym (sort_perm Qle_bool _))) in Hx.
    apply (Permutation_in _ (Permutation_sym (sort_perm Qle_bool _))) in Hy.
    apply in_map_iff in Hx. destruct Hx as (x0 & <- & _).
    apply in_map_iff in Hy. destruct Hy as (y0 & <- & _).
    apply Qred_complete. rewrite <- (Qred_correct x0), <- (Qred_correct y0).
    now apply Qle_antisym.
  - apply sort_Q_sorted.
  - apply sort_Q_sorted.
  - eapply perm_trans; [apply Permutation_sym, sort_perm|].
    eapply perm_trans; [|apply sort_perm].
    now apply Permutation_map.
Qed.

Lemma nth_Qred (v w : list Q) (i : nat) :
  map Qred v = map Qred w -> nth i v 0 == nth i w 0.
Proof.
  intro H.
  rewrite <- (Qred_correct (nth i v 0)), <- (Qred_correct (nth i w 0)).
  change (Qred 0) with (Qred 0).
  rewrite <- (map_nth Qred v 0 i), <- (map_nth Qred w 0 i), H. reflexivity.
Qed.

Lemma interpolate_Qeq (v w : list Q) (pos : Q) :
  map Qred v = map Qred w -> interpolate v pos == interpolate w pos.
Proof.
  intro H. unfold interpolate.
  assert (Hlen : List.length v = List.length w)
    by (rewrite <- (length_map Qred v), H; apply length_map).
  rewrite Hlen.
  set (lo := Z.to_nat (Qfloor pos)).
  set (hi := Nat.min (S lo) (List.length w - 1)).
  pose proof (nth_Qred v w lo H) as Ha.
  pose proof (nth_Qred v w hi H) as Hb.
  rewrite Ha, Hb. reflexivity.
Qed.

Lemma dropna_perm (s s' : list num) :
  Permutation s s' -> Permutation (dropna s) (dropna s').
Proof.
  induction 1 as [|x l l' _ IH|x y l|l l' l'' _ IH1 _ IH2].
  - apply perm_nil.
  - destruct x; simpl; [exact IH | now apply perm_skip].
  - destruct x, y; simpl; try apply Permutation_refl. apply perm_swap.
  - now apply perm_trans with (dropna l').
Qed.

Lemma quantile_perm (s s' : list num) (q : Q) :
  Permutation s s' -> num_eq (quantile s q) (quantile s' q).
Proof.
  intro Hperm. pose proof (dropna_perm s s' Hperm) as Hd.
  destruct (dropna s) as [|d0 ds] eqn:E.
  - apply Permutation_nil in Hd.
    rewrite (quantile_empty s q E), (quantile_empty s' q Hd). exact I.
  - assert (Hne : dropna s <> []) by (rewrite E; discriminate).
    assert (Hne' : dropna s' <> []).
    { intro E'. rewrite E' in Hd.
      apply Permutation_sym, Permutation_nil in Hd. discriminate. }
    rewrite <- E in Hd.
    rewrite (quantile_value s q Hne), (quantile_value s' q Hne'). simpl.
    pose proof (sorted_canonical_perm _ _ Hd) as Hc.
    fold (sorted_values s) in Hc. fold (sorted_values s') in Hc.
    assert (Hlen : List.length (sorted_values s) = List.length (sorted_values s'))
      by (rewrite <- (length_map Qred (sorted_values s)), Hc; apply length_map).
    rewrite Hlen. now apply interpolate_Qeq.
Qed.

Lemma num_ltb_compat (a b b' : num) :
  num_eq b b' -> num_ltb a b = num_ltb a b' /\ num_ltb b a = num_ltb b' a.
Proof.
  destruct a as [|x], b as [|y], b' as [|y']; simpl; try tauto.
  intro H. unfold Qlt_bool.
  rewrite (Qle_bool_compat y y' x x), (Qle_bool_compat x x y y');
    try assumption; try reflexivity. now split.
Qed.

Lemma filter_length_perm {A : Type} (p : A -> bool) (l l' : list A) :
  Permutation l l' -> List.length (filter p l) = List.length (filter p l').
Proof.
  induction 1 as [|x l l' _ IH|x y l|l l' l'' _ IH1 _ IH2]; simpl.
  - reflexivity.
  - destruct (p x); simpl; now rewrite IH.
  - destruct (p x), (p y); reflexivity.
  - now rewrite IH1.
Qed.

(** X27: the quartiles, the IQR, the two bounds and the number of
    outliers of a column are the same for every order of its rows. *)
Theorem bounds_do_not_depend_on_row_order (s s' : list num) :
  Permutation s s' ->
  num_eq (Q1 s) (Q1 s') /\
  num_eq (Q3 s) (Q3 s') /\
  num_eq (IQR s) (IQR s') /\
  num_eq (lower_bound s) (lower_bound s') /\
  num_eq (upper_bound s) (upper_bound s') /\
  outlier_count s = outlier_count s'.
Proof.
  intro Hperm.
  pose proof (quantile_perm s s' (1 # 4) Hperm) as H1.
  pose proof (quantile_perm s s' (3 # 4) Hperm) as H3.
  fold (Q1 s) (Q1 s') in H1. fold (Q3 s) (Q3 s') in H3.
  assert (Hi : num_eq (IQR s) (IQR s')).
  { unfold IQR. destruct (Q1 s), (Q1 s'), (Q3 s), (Q3 s'); simpl in *;
      try tauto. now rewrite H1, H3. }
  assert (Hl : num_eq (lower_bound s) (lower_bound s')).
  { unfold lower_bound. destruct (Q1 s), (Q1 s'), (IQR s), (IQR s'); simpl in *;
      try tauto. now rewrite H1, Hi. }
  assert (Hu : num_eq (upper_bound s) (upper_bound s')).
  { unfold upper_bound. destruct (Q3 s), (Q3 s'), (IQR s), (IQR s'); simpl in *;
      try tauto. now rewrite H3, Hi. }
  repeat (split; [assumption|]).
  unfold outlier_count, outliers_mask. rewrite !mask_sum_filter.
  rewrite (filter_length_perm _ s s' Hperm).
  f_equal. apply filter_ext. intro v. unfold num_gtb.
  rewrite (proj1 (num_ltb_compat v _ _ Hl)), (proj2 (num_ltb_compat v _ _ Hu)).
  reflexivity.
Qed.

Lemma bounds_do_not_depend_on_row_order_witness :
  Permutation ages [Fin 30; Fin 31; Fin 32; Fin 10; Fin 200] /\
  num_eq (lower_bound ages) (lower_bound [Fin 30; Fin 31; Fin 32; Fin 10; Fin 200]) /\
  outlier_count ages = outlier_count [Fin 30; Fin 31; Fin 32; Fin 10; Fin 200].
Proof.
  assert (H : Permutation ages [Fin 30; Fin 31; Fin 32; Fin 10; Fin 200]).
  { unfold ages.
    apply Permutation_sym.
    apply (Permutation_cons_app [Fin 10; Fin 200] [Fin 32; Fin 31] (Fin 30)).
    simpl.
    apply (Permutation_cons_app [Fin 10; Fin 200; Fin 32] [] (Fin 31)).
    simpl.
    apply (Permutation_cons_app [Fin 10; Fin 200] [] (Fin 32)).
    apply Permutation_refl. }
  split; [exact H|].
  destruct (bounds_do_not_depend_on_row_order _ _ H) as (_ & _ & _ & Hl & _ & Hc).
  split; [exact Hl | exact Hc].
Defined.

(** ** The summary of a run *)

Lemma set_col_existing (d : DataFrame) (c : string) (s s' : Series) :
  get_col d c = Some s ->
  series_len s' = series_len s ->
  same_shape (set_col d c s') d.
Proof.
  intros Hcol Hlen. unfold same_shape.
  induction d as [|[c0 s0] d IH]; simpl in *; [discriminate|].
  destruct (String.eqb c0 c) eqn:E.
  - injection Hcol as ->. simpl. split; congruence.
  - specialize (IH Hcol). destruct IH as (_ & IH2).
    simpl. split; congruence.
Qed.

Lemma same_shape_refl (d : DataFrame) : same_shape d d.
Proof. repeat split. Qed.

Lemma same_shape_trans (d1 d2 d3 : DataFrame) :
  same_shape d1 d2 -> same_shape d2 d3 -> same_shape d1 d3.
Proof. unfold same_shape. intros (A & B) (A' & B'). split; congruence. Qed.

Section Summary.
Variable lib : externals.

Lemma converted_same_shape (d : DataFrame) (c : string) (s : Series)
      (v : list (option Z)) :
  get_col d c = Some s -> to_datetime lib s = Some v ->
  same_shape (set_col d c (Datetime v)) d.
Proof.
  intros Hcol Hv. apply (set_col_existing d c s); [exact Hcol|].
  cbn. now apply (to_datetime_length lib).
Qed.

(** A length-of-stay body that raises leaves a table of the same shape. *)
Lemma length_of_stay_body_raises (d : DataFrame) (a_col d_col : string) :
  snd (length_of_stay_body lib a_col d_col d) = None ->
  same_shape (fst (length_of_stay_body lib a_col d_col d)) d.
Proof.
  unfold length_of_stay_body, bind, column, lift, assign.
  destruct (get_col d a_col) as [a|] eqn:Ha; [|intros _; apply same_shape_refl].
  destruct (to_datetime lib a) as [va|] eqn:Hva; [|intros _; apply same_shape_refl].
  pose proof (converted_same_shape d a_col a va Ha Hva) as S1.
  set (d1 := set_col d a_col (Datetime va)) in *.
  destruct (get_col d1 d_col) as [s|] eqn:Hs; [|intros _; exact S1].
  destruct (to_datetime lib s) as [vd|] eqn:Hvd; [|intros _; exact S1].
  pose proof (same_shape_trans _ _ _ (converted_same_shape d1 d_col s vd Hs Hvd) S1)
    as S2.
  set (d2 := set_col d1 d_col (Datetime vd)) in *.
  destruct (get_col d2 d_col) as [s'|]; [|intros _; exact S2].
  destruct (get_col d2 a_col) as [a'|]; [|intros _; exact S2].
  destruct (dt_values s') as [x|]; [|intros _; exact S2].
  destruct (dt_values a') as [y|]; [|intros _; exact S2].
  cbn. discriminate.
Qed.

Lemma try_except_next_shape (body : attempt unit) (ok err : message)
      (st st' : run_state) :
  (snd (body (data st)) = None -> same_shape (fst (body (data st))) (data st)) ->
  try_except body ok err st = next st' ->
  same_shape (data st') (data st).
Proof.
  unfold try_except. intro Hbody.
  destruct (body (data st)) as [d [u|]]; [discriminate|].
  intro H. injection H as <-. cbn in *. now apply Hbody.
Qed.

(** A block of the page that lets the script go on has not changed the
    shape of the working copy. *)
Lemma blocks_next_shape (cols : list string) (click : option button)
      (st st' : run_state) :
  (duplicates_block click st = next st' \/
   convert_date_block lib click st = next st' \/
   outlier_block lib cols click st = next st' \/
   date_features_block lib click st = next st' \/
   los_block lib click st = next st' \/
   age_groups_block click st = next st') ->
  same_shape (data st') (data st).
Proof.
  intros [H|[H|[H|[H|[H|H]]]]].
  - unfold duplicates_block in H.
    destruct (0 <? mask_sum (duplicated (data st)))%nat;
      [destruct click as [[]|]|]; try discriminate;
      injection H as <-; apply same_shape_refl.
  - unfold convert_date_block in H.
    destruct click as [[| col | | | |]|];
      try (injection H as <-; apply same_shape_refl).
    destruct (get_col (data st) col) as [s|];
      [|injection H as <-; apply same_shape_refl].
    destruct (mem col (date_columns_of (data st)) && negb (is_datetime s));
      [|injection H as <-; apply same_shape_refl].
    apply (try_except_next_shape _ _ _ _ _ ltac:(intro E;
             rewrite (convert_date_body_raises lib _ col E);
             apply same_shape_refl) H).
  - unfold outlier_block in H.
    destruct click as [[| | col method | | |]|];
      try (injection H as <-; apply same_shape_refl).
    destruct (get_col (data st) col) as [[v|v|v|v]|];
      try (injection H as <-; apply same_shape_refl).
    destruct (mem col cols && (0 <? outlier_count v)%nat);
      [discriminate | injection H as <-; apply same_shape_refl].
  - unfold date_features_block in H.
    destruct click as [[| | | col | |]|];
      try (injection H as <-; apply same_shape_refl).
    destruct (mem col (date_cols_of (data st)) && negb (String.eqb col ""));
      [|injection H as <-; apply same_shape_refl].
    apply (try_except_next_shape _ _ _ _ _ ltac:(intro E;
             rewrite (date_features_body_raises lib _ col E);
             apply same_shape_refl) H).
  - unfold los_block in H.
    destruct (find_los_cols (column_names (data st))) as [[a|] [d|]];
      try (injection H as <-; apply same_shape_refl).
    destruct click as [[]|]; try (injection H as <-; apply same_shape_refl).
    apply (try_except_next_shape _ _ _ _ _
             (length_of_stay_body_raises (data st) a d) H).
  - unfold age_groups_block in H.
    destruct (get_col (data st) "age") as [s|];
      [|injection H as <-; apply same_shape_refl].
    destruct click as [[]|]; try (injection H as <-; apply same_shape_refl).
    destruct s as [v|v|v|v]; try discriminate;
      cbn [series_len] in H; destruct (List.length v =? 0)%nat; discriminate.
Qed.

(** X28: at the end of a run that reaches the last line of the page, the
    working copy has as many rows and columns as the uploaded table, so
    the summary never reports removed records or new features: every
    handler that changes one of these numbers ends the run by a rerun
    before the summary.  What is left of the summary is the three fixed
    steps, after 'Handled missing values' when the count of missing
    values differs. *)
Theorem summary_reports_fixed_steps
        (click : option button) (ss : SessionState) (df t : DataFrame) :
  healthcare_data ss = Some df ->
  how (preprocessing_page lib click ss) = completed ->
  healthcare_data_processed (final (preprocessing_page lib click ss)) = Some t ->
  same_shape t df /\
  preprocessing_steps t df
  = (if (missing_count t =? missing_count df)%nat then [] else [step_handled_missing])
    ++ [step_analyzed; step_identified_outliers; step_prepared].
Proof.
  intros Hdata.
  destruct (assessment_raises df) eqn:Hacc.
  { rewrite (crash_result lib click ss df Hdata Hacc). cbn. discriminate. }
  rewrite (page_on_accepted lib click ss df Hdata Hacc).
  unfold then_block.
  set (cols := numerical_cols_of df). set (st0 := mkRun df ss []).
  assert (Hshape : forall st, same_shape (data st) df ->
                     forall st', (duplicates_block click st = next st' \/
                                  convert_date_block lib click st = next st' \/
                                  outlier_block lib cols click st = next st' \/
                                  date_features_block lib click st = next st' \/
                                  los_block lib click st = next st' \/
                                  age_groups_block click st = next st') ->
                                 same_shape (data st') df).
  { intros st Hst st' H.
    exact (same_shape_trans _ _ _ (blocks_next_shape cols click st st' H) Hst). }
  assert (H0 : same_shape (data st0) df) by apply same_shape_refl.
  destruct (duplicates_block click st0) as [st1|e1 st1] eqn:E1.
  2:{ cbn. intro Hh. pose proof (duplicates_block_exit click st0) as Hx.
      rewrite E1 in Hx. cbn in Hx. destruct Hx as [Hx|Hx]; congruence. }
  pose proof (Hshape st0 H0 st1 (or_introl E1)) as H1.
  destruct (convert_date_block lib click st1) as [st2|e2 st2] eqn:E2.
  2:{ cbn. intro Hh. pose proof (convert_date_block_exit lib click st1) as Hx.
      rewrite E2 in Hx. cbn in Hx. destruct Hx as [Hx|Hx]; congruence. }
  pose proof (Hshape st1 H1 st2 (or_intror (or_introl E2))) as H2.
  destruct (outlier_block lib cols click st2) as [st3|e3 st3] eqn:E3.
  2:{ cbn. intro Hh. pose proof (outlier_block_exit lib cols click st2) as Hx.
      rewrite E3 in Hx. cbn in Hx. destruct Hx as [Hx|Hx]; congruence. }
  pose proof (Hshape st2 H2 st3 (or_intror (or_intror (or_introl E3)))) as H3.
  destruct (date_features_block lib click st3) as [st4|e4 st4] eqn:E4.
  2:{ cbn. intro Hh. pose proof (date_features_block_exit lib click st3) as Hx.
      rewrite E4 in Hx. cbn in Hx. destruct Hx as [Hx|Hx]; congruence. }
  pose proof (Hshape st3 H3 st4
                     (or_intror (or_intror (or_intror (or_introl E4))))) as H4.
  destruct (los_block lib click st4) as [st5|e5 st5] eqn:E5.
  2:{ cbn. intro Hh. pose proof (los_block_exit lib click st4) as Hx.
      rewrite E5 in Hx. cbn in Hx. destruct Hx as [Hx|Hx]; congruence. }
  pose proof (Hshape st4 H4 st5
                     (or_intror (or_intror (or_intror (or_intror (or_introl E5))))))
    as H5.
  destruct (age_groups_block click st5) as [st6|e6 st6] eqn:E6.
  2:{ cbn. intro Hh.
      destruct (age_groups_block_exit click st5) as [Hx|[Hx|(Hx & _)]];
        rewrite E6 in Hx; cbn in Hx; congruence. }
  pose proof (Hshape st5 H5 st6
                     (or_intror (or_intror (or_intror (or_intror (or_intror E6))))))
    as H6.
  cbn. intros _ Ht. injection Ht as <-.
  split; [exact H6|].
  destruct H6 as (A & B). unfold preprocessing_steps.
  rewrite A, B, !Nat.eqb_refl. reflexivity.
Qed.
End Summary.

Lemma summary_reports_fixed_steps_witness :
  healthcare_data (mkSession (Some admissions) None) = Some admissions /\
  how (preprocessing_page sample_lib (Some btn_calculate_los)
                          (mkSession (Some admissions) None)) = completed /\
  healthcare_data_processed
    (final (preprocessing_page sample_lib (Some btn_calculate_los)
                               (mkSession (Some admissions) None)))
  = Some (set_col admissions "date_of_admission"
                  (Datetime [Some 1704412800000000000%Z; Some 1707523200000000000%Z])) /\
  preprocessing_steps
    (set_col admissions "date_of_admission"
             (Datetime [Some 1704412800000000000%Z; Some 1707523200000000000%Z]))
    admissions
  = [step_analyzed; step_identified_outliers; step_prepared].
Proof.
  split; [reflexivity|]. split; [reflexivity|]. split; [reflexivity|].
  exact (proj2 (summary_reports_fixed_steps
                  sample_lib (Some btn_calculate_los)
                  (mkSession (Some admissions) None)
                  admissions _ eq_refl eq_refl eq_refl)).
Defined.

(** ** The share of high-cost cases *)

Lemma firstn_In_nth {A : Type} (d : A) (k : nat) (l : list A) (x : A) :
  In x (firstn k l) -> exists i, (i < k)%nat /\ (i < List.length l)%nat /\ nth i l d = x.
Proof.
  revert l. induction k as [|k IH]; intros [|y l]; simpl; try tauto.
  intros [<-|H].
  - exists 0%nat. repeat split; lia.
  - destruct (IH l H) as (i & Hi & Hl & Hx).
    exists (S i). repeat split; [lia | lia | exact Hx].
Qed.

Lemma filter_none {A : Type} (p : A -> bool) (l : list A) :
  (forall x, In x l -> p x = false) -> filter p l = [].
Proof.
  intro H. induction l as [|x l IH]; simpl; [reflexivity|].
  rewrite (H x) by now left. apply IH. intros y Hy. apply H. now right.
Qed.

(** In a sorted column, the values strictly above the [q] quantile lie
    after the position the quantile is read at. *)
Lemma count_above_interpolate (v : list Q) (pos : Q) :
  StronglySorted Qle v -> (0 < List.length v)%nat ->
  0 <= pos -> pos <= inject_Z (Z.of_nat (List.length v) - 1) ->
  (List.length (filter (fun x => Qlt_bool (interpolate v pos) x) v)
   + S (Z.to_nat (Qfloor pos)) <= List.length v)%nat.
Proof.
  intros Hs Hlen H0 H1.
  pose proof (interpolate_lo v Hs Hlen pos H0 H1) as Hlo.
  destruct (floor_in_range v Hlen pos H0 H1) as [_ Hidx].
  set (lo := Z.to_nat (Qfloor pos)) in *.
  set (t := interpolate v pos) in *.
  rewrite <- (firstn_skipn (S lo) v) at 1.
  rewrite filter_app, length_app.
  assert (Hfirst : filter (fun x => Qlt_bool t x) (firstn (S lo) v) = []).
  { apply filter_none. intros x Hx.
    destruct (firstn_In_nth 0 (S lo) v x Hx) as (i & Hi & Hl & <-).
    destruct (Qlt_bool_spec t (nth i v 0)) as [[_ Hlt]|[E _]]; [|exact E].
    exfalso.
    pose proof (sorted_nth_le v Hs i lo ltac:(lia) Hidx). lra. }
  rewrite Hfirst. cbn [List.length].
  pose proof (filter_length_le (fun x => Qlt_bool t x) (skipn (S lo) v)) as Hle.
  rewrite length_skipn in Hle. lia.
Qed.

Lemma count_gtb_dropna (s : list num) (t : Q) :
  mask_sum (map (fun x => num_gtb x (Fin t)) s)
  = List.length (filter (fun x => Qlt_bool t x) (dropna s)).
Proof.
  rewrite mask_sum_filter.
  induction s as [|[|x] s IH]; cbn [map filter dropna].
  - reflexivity.
  - exact IH.
  - change (num_gtb (Fin x) (Fin t)) with (Qlt_bool t x).
    destruct (Qlt_bool t x); cbn [List.length]; now rewrite IH.
Qed.

(** X29: the cases counted as high-cost (billing strictly above the 0.9
    quantile) are at most a tenth of the billed cases, rounded up: ten
    times their number is at most the number of billing values plus 8, so
    the reported share never exceeds 10 + 80/n percent of the n rows. *)
Theorem high_billing_share_bounded (v : list num) :
  (10 * mask_sum (map (fun x => num_gtb x (quantile v (9 # 10))) v)
   <= List.length (dropna v) + 8)%nat /\
  forall p : Q,
    high_billing_pct v = Fin p ->
    0 <= p /\ p <= 10 + 80 / Qnat (List.length v).
Proof.
  assert (Hcount : (10 * mask_sum (map (fun x => num_gtb x (quantile v (9 # 10))) v)
                    <= List.length (dropna v) + 8)%nat).
  { destruct (dropna v) as [|d0 ds] eqn:Edrop.
    - rewrite (quantile_empty v _ Edrop).
      rewrite mask_sum_none; [simpl; lia|].
      intros [|x] _; reflexivity.
    - assert (Hne : dropna v <> []) by (rewrite Edrop; discriminate).
      rewrite <- Edrop. rewrite (quantile_value v _ Hne), count_gtb_dropna.
      set (w := sorted_values v).
      assert (Hlen : (0 < List.length w)%nat).
      { unfold w. rewrite sorted_values_length, Edrop. simpl. lia. }
      rewrite (filter_length_perm _ (dropna v) w) by apply sort_perm.
      pose proof (last_pos_nonneg v Hne) as Hn. fold w in Hn.
      set (n1 := inject_Z (Z.of_nat (List.length w) - 1)) in *.
      assert (Hp0 : 0 <= n1 * (9 # 10)) by (apply Qmult_le_0_compat; lra).
      assert (Hp1 : n1 * (9 # 10) <= n1) by lra.
      pose proof (count_above_interpolate w (n1 * (9 # 10)) (sort_Q_sorted _)
                                          Hlen Hp0 Hp1) as Hc.
      rewrite <- (sorted_values_length v). fold w.
      assert (Hfl : (9 * (Z.of_nat (List.length w) - 1)
                     < 10 * (Qfloor (n1 * (9 # 10)) + 1))%Z).
      { unfold n1, Qfloor, inject_Z, Qmult. cbn [Qnum Qden].
        change (Z.pos (1 * 10)) with 10%Z.
        pose proof (Z.div_mod ((Z.of_nat (List.length w) - 1) * 9) 10 ltac:(lia)).
        pose proof (Z.mod_pos_bound ((Z.of_nat (List.length w) - 1) * 9) 10
                                    ltac:(lia)).
        lia. }
      assert (Hf0 : (0 <= Qfloor (n1 * (9 # 10)))%Z).
      { change 0%Z with (Qfloor 0). now apply Qfloor_resp_le. }
      lia. }
  split; [exact Hcount|].
  intros p Hp. unfold high_billing_pct in Hp.
  destruct v as [|a v0] eqn:Ev; [discriminate|]. rewrite <- Ev in *.
  assert (Hlen : (0 < List.length v)%nat) by (rewrite Ev; simpl; lia).
  rewrite mean_bool_value in Hp by (now rewrite length_map).
  cbn in Hp. injection Hp as <-. rewrite length_map.
  set (c := mask_sum (map (fun x => num_gtb x (quantile v (9 # 10))) v)) in *.
  assert (Hc : (c <= List.length v)%nat).
  { unfold c. pose proof (mask_sum_le (map (fun x => num_gtb x (quantile v (9 # 10))) v)).
    now rewrite length_map in H. }
  destruct (percentage_range c (List.length v) Hlen Hc) as [P0 P1].
  split; [exact P0|].
  assert (Hm : (List.length (dropna v) <= List.length v)%nat).
  { clear. induction v as [|[|x] v IH]; simpl; lia. }
  pose proof (Qnat_pos _ Hlen) as Hn.
  assert (H10 : 10 * Qnat c <= Qnat (List.length v) + 8).
  { assert (Hle : (10 * c <= List.length v + 8)%nat) by lia.
    apply Qnat_le in Hle. rewrite Qnat_plus in Hle.
    assert (E : Qnat (10 * c) == 10 * Qnat c).
    { unfold Qnat. rewrite Nat2Z.inj_mul, inject_Z_mult. reflexivity. }
    rewrite E in Hle. exact Hle. }
  assert (E : 10 + 80 / Qnat (List.length v)
              == (10 * (Qnat (List.length v) + 8)) / Qnat (List.length v))
    by (field; lra).
  rewrite E.
  apply Qle_shift_div_l; [exact Hn|].
  assert (E' : Qnat c / Qnat (List.length v) * 100 * Qnat (List.length v)
               == 100 * Qnat c) by (field; lra).
  rewrite E'. lra.
Qed.

(** ** The outlier computation on a column where the arithmetic is exact *)


(** A column without a value: no quartile, no bound, no outlier. *)
Lemma outlier_computation_empty (s : list num) :
  dropna s = [] ->
  Q1 s = NaN /\ Q3 s = NaN /\ IQR s = NaN /\
  lower_bound s = NaN /\ upper_bound s = NaN /\
  outlier_count s = 0%nat.
Proof.
  intro E. unfold lower_bound, upper_bound, IQR, Q1, Q3.
  rewrite !(quantile_empty s _ E). repeat split.
  unfold outlier_count, outliers_mask, lower_bound, upper_bound, IQR, Q1, Q3.
  rewrite !(quantile_empty s _ E). cbn.
  apply mask_sum_none. intros [|x] _; reflexivity.
Qed.



(** ** Capping to the bounds *)

Lemma cap_outliers_is_clip (s : list num) :
  cap_outliers s = clip (lower_bound s) (upper_bound s) s.
Proof. reflexivity. Qed.

Lemma clip_map (lb ub : num) (s : list num) :
  clip lb ub s = map (cap_value lb ub) s.
Proof. unfold clip, assign_where. now rewrite map_map. Qed.

(** C4, as the code has it, for the bounds [l <= u] that lines 310-311
    have computed and a column of values a float holds: the two masked
    assignments keep the length of the column and its missing values,
    leave every value within the bounds unchanged and put every value
    between the bounds; the minimum is the lower bound when some value
    was strictly below it, and the maximum is the upper bound when some
    value was strictly above it. *)
Theorem cap_outliers_spec (s : list num) (l u : Q) :
  float64_column s = true ->
  l <= u ->
  let capped := clip (Fin l) (Fin u) s in
  List.length capped = List.length s /\
  (forall i : nat, nth_error s i = Some NaN -> nth_error capped i = Some NaN) /\
  (forall (i : nat) (x : Q),
      nth_error s i = Some (Fin x) -> l <= x -> x <= u ->
      nth_error capped i = Some (Fin x)) /\
  (forall y : Q, In (Fin y) capped -> l <= y /\ y <= u) /\
  ((exists x : Q, In (Fin x) s /\ x < l) ->
   num_eq (series_min capped) (Fin l)) /\
  ((exists x : Q, In (Fin x) s /\ u < x) ->
   num_eq (series_max capped) (Fin u)).
Proof.
  intros _ Hlu capped. subst capped. rewrite clip_map.
  split; [apply length_map|].
  split; [intros i Hi; rewrite nth_error_map, Hi; reflexivity|].
  split.
  { intros i x Hi H1 H2. rewrite nth_error_map, Hi. cbn [option_map].
    rewrite cap_value_within; [reflexivity | |]; simpl; lra. }
  assert (Hclamped : forall y, In y (map (clamp l u) (dropna s)) -> l <= y /\ y <= u).
  { intros y Hy. apply in_map_iff in Hy. destruct Hy as (x & <- & _).
    destruct (clamp_cases l u x Hlu) as [[_ ->]|[[_ ->]|(? & ? & ->)]];
      split; lra. }
  split; [|split].
  - intros y Hy. apply Hclamped.
    rewrite <- dropna_map_clamp. now apply In_dropna.
  - intros (x & Hin & Hlt).
    assert (Hne' : dropna (map (cap_value (Fin l) (Fin u)) s) <> []).
    { rewrite dropna_map_clamp. apply In_dropna in Hin.
      destruct (dropna s); [contradiction | discriminate]. }
    destruct (series_min_spec _ Hne') as (m & Hm & Hmin & Hle).
    rewrite Hm. simpl. rewrite dropna_map_clamp in Hmin, Hle.
    apply Qle_antisym.
    + apply Hle. apply in_map_iff. exists x. split; [|now apply In_dropna].
      destruct (clamp_cases l u x Hlu) as [[_ ->]|[[? _]|(? & _)]];
        [reflexivity | exfalso; lra | exfalso; lra].
    + apply (Hclamped m Hmin).
  - intros (x & Hin & Hlt).
    assert (Hne' : dropna (map (cap_value (Fin l) (Fin u)) s) <> []).
    { rewrite dropna_map_clamp. apply In_dropna in Hin.
      destruct (dropna s); [contradiction | discriminate]. }
    destruct (series_max_spec _ Hne') as (m & Hm & Hmax & Hle).
    rewrite Hm. simpl. rewrite dropna_map_clamp in Hmax, Hle.
    apply Qle_antisym.
    + apply (Hclamped m Hmax).
    + apply Hle. apply in_map_iff. exists x. split; [|now apply In_dropna].
      destruct (clamp_cases l u x Hlu) as [[? _]|[[_ ->]|(_ & ? & _)]];
        [exfalso; lra | reflexivity | exfalso; lra].
Qed.

Lemma cap_outliers_spec_witness :
  float64_column ages = true /\
  27 <= 35 /\
  (exists x : Q, In (Fin x) ages /\ x < 27) /\
  num_eq (series_min (clip (Fin 27) (Fin 35) ages)) (Fin 27) /\
  num_eq (lower_bound ages) (Fin 27) /\
  num_eq (upper_bound ages) (Fin 35).
Proof.
  assert (Hlu : 27 <= 35) by lra.
  assert (H : exists x : Q, In (Fin x) ages /\ x < 27).
  { exists 10. split; [simpl; tauto | lra]. }
  split; [reflexivity|]. split; [exact Hlu|]. split; [exact H|].
  split; [|split; vm_compute; reflexivity].
  exact (proj1 (proj2 (proj2 (proj2 (proj2
           (cap_outliers_spec ages 27 35 eq_refl Hlu))))) H).
Defined.
